(** * PrimoGPT: the data merging and filtering notebook

    A shallow embedding of the notebook "Data Merging and Filtering for
    PrimoGPT Training": [load_json_files], [parse_response],
    [filter_samples] and the cells that load the directory and save
    [merged_data.json], together with the parts of the Python library they
    call: [re.search] on the fixed pattern [\{.*\}], [json.loads],
    [json.dump] with [indent=2], [str], [int], [any], [list.extend],
    [str.endswith] and subscripting; and, from the notebook that trains
    the model, the cell that reads [merged_data.json] and formats the
    prompts.

    - A Python [str] is a list of Unicode code points, a value that
      [json.loads] can return is a [pyvalue], and a raised exception is the
      [Raise] case of [result]; the only handler in the notebook, [except
      json.JSONDecodeError], is the one place where a [Raise] is turned back
      into a value.
    - A float is kept as the number token it was read from, and its text
      ([repr]) is a field of the [runtime] record, as are the two tables of
      the Unicode database that [repr] and [int] consult beyond ASCII.
      Every function that needs them takes the runtime as a parameter, and
      every property below holds for all runtimes.
    - The interpreter's recursion limit is not part of [json_loads], which
      reads a text of any nesting depth; [json_loads_within] has it, the
      two agree on a text that nests within the limit, and the property
      that depends on the limit (C3) is stated within it.
    - The directory is the list of its entries in the order of
      [os.listdir]; an entry is a file's text or the exception that opening
      or reading it raises. *)

From Stdlib Require Import String Ascii.
From Stdlib Require Import List ZArith NArith Bool Lia Permutation.
From Stdlib Require DecimalPos.
Import ListNotations.

Local Open Scope N_scope.
Local Open Scope list_scope.

(** ** Text *)

(** A code point, and Python's [str]. *)
Definition char := N.
Definition str := list char.

(** The code points of an ASCII literal. *)
Definition ustr (s : string) : str :=
  map N_of_ascii (list_ascii_of_string s).

(** The same, with every apostrophe read as a double quote, so that JSON
    text can be written as a literal: [jstr "{'a': 1}"]. *)
Definition jstr (s : string) : str :=
  map (fun c => if c =? 39 then 34 else c) (ustr s).

Definition LF : char := 10.
Definition lbrace : char := 123.
Definition rbrace : char := 125.

Fixpoint str_eqb (a b : str) : bool :=
  match a, b with
  | [], [] => true
  | x :: a', y :: b' => (x =? y) && str_eqb a' b'
  | _, _ => false
  end.

(** [s.endswith(suffix)] *)
Definition endswith (s suffix : str) : bool :=
  str_eqb (skipn (length s - length suffix)%nat s) suffix
  && (length suffix <=? length s)%nat.

(** ** Exceptions *)

Inductive exn : Type :=
| KeyError
| TypeError
| ValueError
| JSONDecodeError
| AttributeError
| OSError.

Inductive result (A : Type) : Type :=
| Ok (a : A)
| Raise (e : exn).
Arguments Ok {A} a.
Arguments Raise {A} e.

Definition bind {A B : Type} (m : result A) (k : A -> result B) : result B :=
  match m with
  | Ok a => k a
  | Raise e => Raise e
  end.

Notation "x <- m ;; k" := (bind m (fun x => k))
  (at level 61, m at next level, right associativity).
Notation "' p <- m ;; k" := (bind m (fun x => match x with p => k end))
  (at level 61, p pattern, m at next level, right associativity).

(** ** [re.search(r'\{.*\}', s)]

    The pattern is a literal [{], then [.*] (greedy; [.] is any character
    but a line feed, the flags being the default ones), then a literal [}].
    The matcher below is the backtracking one: the star first takes one more
    character and, only when the rest fails, gives it back. *)

Definition dot (c : char) : bool := negb (c =? LF).

(** [.*\}] anchored at the head of [s]: the text it matches. *)
Fixpoint match_star_rbrace (s : str) : option str :=
  match s with
  | [] => None
  | c :: rest =>
      match (if dot c then match_star_rbrace rest else None) with
      | Some m => Some (c :: m)
      | None => if c =? rbrace then Some [c] else None
      end
  end.

(** [\{.*\}] anchored at the head of [s]. *)
Definition match_here (s : str) : option str :=
  match s with
  | c :: rest =>
      if c =? lbrace then option_map (cons c) (match_star_rbrace rest)
      else None
  | [] => None
  end.

(** A match object: [m.start()] and [m.group()]. *)
Record re_match : Type := {
  m_start : nat;
  group : str
}.

(** The scan of [re.search] from position [pos], [s] being the text from
    there on: the match at the leftmost position that has one. *)
Fixpoint search_from (pos : nat) (s : str) : option re_match :=
  match s with
  | [] => None
  | _ :: rest =>
      match match_here s with
      | Some g => Some {| m_start := pos; group := g |}
      | None => search_from (S pos) rest
      end
  end.

Definition re_search (s : str) : option re_match := search_from 0 s.

(** [s.find(c)] for a single character, [None] standing for -1. *)
Fixpoint str_find (c : char) (s : str) : option nat :=
  match s with
  | [] => None
  | x :: rest => if x =? c then Some O else option_map S (str_find c rest)
  end.

(** ** Python values *)

(** A float is kept as the text it was read from: the number token of the
    JSON text, or one of the three constants the decoder accepts. *)
Inductive pyfloat : Type :=
| FNum (lexeme : str)
| FNaN
| FInf
| FNegInf.

(** The values [json.loads] can return.  A [dict] keeps its items in
    insertion order and has no two items with the same key. *)
#[local] Unset Elimination Schemes.
Inductive pyvalue : Type :=
| PyNone
| PyBool (b : bool)
| PyInt (z : Z)
| PyFloat (f : pyfloat)
| PyStr (s : str)
| PyList (l : list pyvalue)
| PyDict (d : list (str * pyvalue)).
#[local] Set Elimination Schemes.

Definition dict := list (str * pyvalue).

(** What the interpreter and its Unicode database supply. *)
Record runtime : Type := {
  (** [repr(float(lexeme))] for a number token with a fraction or an
      exponent *)
  float_repr : str -> str;
  (** [str.isprintable], asked for code points from 128 on *)
  unicode_isprintable : char -> bool;
  (** [unicodedata.decimal], asked for code points from 128 on *)
  unicode_decimal : char -> option N
}.

(** *** Dictionaries *)

Fixpoint dict_get {V : Type} (d : list (str * V)) (k : str) : option V :=
  match d with
  | [] => None
  | (k', v) :: d' => if str_eqb k' k then Some v else dict_get d' k
  end.

(** [d[k] = v]: an existing key keeps its place. *)
Fixpoint dict_set {V : Type} (d : list (str * V)) (k : str) (v : V)
  : list (str * V) :=
  match d with
  | [] => [(k, v)]
  | (k', v') :: d' =>
      if str_eqb k' k then (k', v) :: d' else (k', v') :: dict_set d' k v
  end.

Definition dict_keys {V : Type} (d : list (str * V)) : list str := map fst d.
Definition dict_values {V : Type} (d : list (str * V)) : list V := map snd d.

(** *** Numbers as text *)

Definition isdigit (c : char) : bool := (48 <=? c) && (c <=? 57).

Fixpoint uint_digits (u : Decimal.uint) : str :=
  match u with
  | Decimal.Nil => []
  | Decimal.D0 u' => 48 :: uint_digits u'
  | Decimal.D1 u' => 49 :: uint_digits u'
  | Decimal.D2 u' => 50 :: uint_digits u'
  | Decimal.D3 u' => 51 :: uint_digits u'
  | Decimal.D4 u' => 52 :: uint_digits u'
  | Decimal.D5 u' => 53 :: uint_digits u'
  | Decimal.D6 u' => 54 :: uint_digits u'
  | Decimal.D7 u' => 55 :: uint_digits u'
  | Decimal.D8 u' => 56 :: uint_digits u'
  | Decimal.D9 u' => 57 :: uint_digits u'
  end.

(** [str(z)] for an [int] *)
Definition int_str (z : Z) : str :=
  match z with
  | Z0 => [48]
  | Zpos p => uint_digits (Pos.to_uint p)
  | Zneg p => 45 :: uint_digits (Pos.to_uint p)
  end.

(** The value of a run of decimal digits. *)
Definition digits_value (ds : str) : Z :=
  fold_left (fun acc d => (acc * 10 + Z.of_N (d - 48))%Z) ds 0%Z.

(** [sys.get_int_max_str_digits()] *)
Definition int_max_str_digits : nat := 4300.

Definition hex_digit (n : N) : char :=
  if n <? 10 then 48 + n else 87 + n.

(** [n] in lower-case hexadecimal, [width] digits. *)
Fixpoint hex_fixed (width : nat) (n : N) : str :=
  match width with
  | O => []
  | S w => hex_fixed w (n / 16) ++ [hex_digit (n mod 16)]
  end.

(** *** [repr] and [str] *)

Definition str_contains (s : str) (c : char) : bool :=
  existsb (N.eqb c) s.

Section WithRuntime.

Context (rt : runtime).

Definition isprintable (c : char) : bool :=
  if c <? 128 then (32 <=? c) && (c <=? 126) else unicode_isprintable rt c.

Definition repr_char (quote c : char) : str :=
  if (c =? quote) || (c =? 92) then [92; c]
  else if c =? 9 then [92; 116]
  else if c =? 10 then [92; 110]
  else if c =? 13 then [92; 114]
  else if isprintable c then [c]
  else if c <=? 255 then 92 :: 120 :: hex_fixed 2 c
  else if c <=? 65535 then 92 :: 117 :: hex_fixed 4 c
  else 92 :: 85 :: hex_fixed 8 c.

(** [repr(s)] for a [str]: single quotes, unless the text has one and has
    no double quote. *)
Definition str_repr (s : str) : str :=
  let quote : char :=
    if str_contains s 39 && negb (str_contains s 34) then 34 else 39 in
  quote :: flat_map (repr_char quote) s ++ [quote].

Definition float_str (f : pyfloat) : str :=
  match f with
  | FNum lexeme => float_repr rt lexeme
  | FNaN => ustr "nan"
  | FInf => ustr "inf"
  | FNegInf => ustr "-inf"
  end.

(** [', '.join(items)] *)
Fixpoint join_comma (items : list str) : str :=
  match items with
  | [] => []
  | [x] => x
  | x :: rest => x ++ ustr ", " ++ join_comma rest
  end.

Fixpoint py_repr (v : pyvalue) : str :=
  match v with
  | PyNone => ustr "None"
  | PyBool true => ustr "True"
  | PyBool false => ustr "False"
  | PyInt z => int_str z
  | PyFloat f => float_str f
  | PyStr s => str_repr s
  | PyList l => ustr "[" ++ join_comma (map py_repr l) ++ ustr "]"
  | PyDict d =>
      ustr "{"
      ++ join_comma
           (map (fun kv => str_repr (fst kv) ++ ustr ": " ++ py_repr (snd kv)) d)
      ++ ustr "}"
  end.

(** [str(v)] *)
Definition py_str (v : pyvalue) : str :=
  match v with
  | PyStr s => s
  | _ => py_repr v
  end.

(** *** [int(s)] for a [str] *)

(** [Py_ISSPACE], the white space [int] skips around the digits. *)
Definition isspace_ascii (c : char) : bool :=
  ((9 <=? c) && (c <=? 13)) || (c =? 32).

(** [str.isspace] of one character. *)
Definition unicode_isspace (c : char) : bool :=
  ((9 <=? c) && (c <=? 13)) || ((28 <=? c) && (c <=? 32))
  || (c =? 133) || (c =? 160) || (c =? 5760)
  || ((8192 <=? c) && (c <=? 8202))
  || (c =? 8232) || (c =? 8233) || (c =? 8239) || (c =? 8287)
  || (c =? 12288).

(** The ASCII form [int] gives a character before it parses: ASCII stays,
    other white space becomes a blank, other decimal digits become ASCII
    digits, and anything else has none. *)
Definition ascii_form (c : char) : option char :=
  if c <? 127 then Some c
  else if unicode_isspace c then Some 32
  else if c <? 128 then None
  else option_map (fun d => 48 + d) (unicode_decimal rt c).

Fixpoint ascii_forms (s : str) : option str :=
  match s with
  | [] => Some []
  | c :: rest =>
      match ascii_form c, ascii_forms rest with
      | Some a, Some r => Some (a :: r)
      | _, _ => None
      end
  end.

Fixpoint lstrip (s : str) : str :=
  match s with
  | c :: rest => if isspace_ascii c then lstrip rest else s
  | [] => []
  end.

(** The digits of the number, single underscores allowed between two of
    them; [prev] is the character before [s].  Gives the digits read
    (last one first) and the text left. *)
Fixpoint scan_digits (prev : char) (ds : str) (s : str) : option (str * str) :=
  match s with
  | [] => if prev =? 95 then None else Some (ds, [])
  | c :: rest =>
      if isdigit c then scan_digits c (c :: ds) rest
      else if c =? 95 then
        if (prev =? 95) || negb (isdigit prev) then None
        else scan_digits c ds rest
      else if prev =? 95 then None
      else Some (ds, s)
  end.

Definition int_of_ascii (s : str) : result Z :=
  let s1 := lstrip s in
  let '(neg, s2) :=
    match s1 with
    | c :: rest =>
        if c =? 43 then (false, rest)
        else if c =? 45 then (true, rest)
        else (false, s1)
    | [] => (false, s1)
    end in
  match scan_digits 0 [] s2 with
  | None => Raise ValueError
  | Some (ds, rest) =>
      match ds, lstrip rest with
      | _ :: _, [] =>
          if (int_max_str_digits <? length ds)%nat then Raise ValueError
          else
            let n := digits_value (rev ds) in
            Ok (if neg then (- n)%Z else n)
      | _, _ => Raise ValueError
      end
  end.

(** [int(s)] *)
Definition py_int (s : str) : result Z :=
  match ascii_forms s with
  | Some a => int_of_ascii a
  | None => Raise ValueError
  end.

End WithRuntime.

(** ** [json.loads]

    The decoder is split in two: [lex] cuts the text into tokens, skipping
    the white space JSON allows between them, and [parse] runs a pushdown
    automaton over the tokens.  Both read from left to right and stop at
    the first thing that is wrong, as the library's scanner does. *)

Inductive token : Type :=
| TLBrace
| TRBrace
| TLBracket
| TRBracket
| TComma
| TColon
| TString (s : str)
| TInt (lexeme : str)
| TFloat (lexeme : str)
| TConst (v : pyvalue)
| TBad.

Inductive lexmode : Type :=
| LIdle
| LString (acc : str)
| LInt (acc : str)
| LFrac (acc : str)
| LExp (acc : str).

Definition json_ws (c : char) : bool :=
  (c =? 32) || (c =? 9) || (c =? 10) || (c =? 13).

Definition hex_value (c : char) : option N :=
  if isdigit c then Some (c - 48)
  else if (97 <=? c) && (c <=? 102) then Some (c - 87)
  else if (65 <=? c) && (c <=? 70) then Some (c - 55)
  else None.

(** The four hexadecimal digits of a [\uXXXX] escape. *)
Definition hex4 (a b c d : char) : option N :=
  match hex_value a, hex_value b, hex_value c, hex_value d with
  | Some x, Some y, Some z, Some w => Some (((x * 16 + y) * 16 + z) * 16 + w)
  | _, _, _, _ => None
  end.

Definition is_high_surrogate (c : N) : bool := (55296 <=? c) && (c <=? 56319).
Definition is_low_surrogate (c : N) : bool := (56320 <=? c) && (c <=? 57343).
Definition join_surrogates (hi lo : N) : N :=
  65536 + (hi - 55296) * 1024 + (lo - 56320).

(** The character a one-letter escape stands for. *)
Definition simple_escape (c : char) : option char :=
  if c =? 34 then Some 34
  else if c =? 92 then Some 92
  else if c =? 47 then Some 47
  else if c =? 98 then Some 8
  else if c =? 102 then Some 12
  else if c =? 110 then Some 10
  else if c =? 114 then Some 13
  else if c =? 116 then Some 9
  else None.

(** The accumulators hold the text read so far, last character first. *)
Fixpoint lex (m : lexmode) (s : str) {struct s} : list token :=
  match s with
  | [] =>
      match m with
      | LIdle => []
      | LString _ => [TBad]
      | LInt acc => [TInt (rev acc)]
      | LFrac acc | LExp acc => [TFloat (rev acc)]
      end
  | c :: rest =>
      (* [c] is where a token has to start; evaluated only where it is used *)
      let fresh (_ : unit) : list token :=
        if json_ws c then lex LIdle rest
        else if c =? 123 then TLBrace :: lex LIdle rest
        else if c =? 125 then TRBrace :: lex LIdle rest
        else if c =? 91 then TLBracket :: lex LIdle rest
        else if c =? 93 then TRBracket :: lex LIdle rest
        else if c =? 44 then TComma :: lex LIdle rest
        else if c =? 58 then TColon :: lex LIdle rest
        else if c =? 34 then lex (LString []) rest
        else if isdigit c then lex (LInt [c]) rest
        else
          match c, rest with
          | 110, 117 :: 108 :: 108 :: r => TConst PyNone :: lex LIdle r
          | 116, 114 :: 117 :: 101 :: r => TConst (PyBool true) :: lex LIdle r
          | 102, 97 :: 108 :: 115 :: 101 :: r =>
              TConst (PyBool false) :: lex LIdle r
          | 78, 97 :: 78 :: r => TConst (PyFloat FNaN) :: lex LIdle r
          | 73, 110 :: 102 :: 105 :: 110 :: 105 :: 116 :: 121 :: r =>
              TConst (PyFloat FInf) :: lex LIdle r
          | 45, 73 :: 110 :: 102 :: 105 :: 110 :: 105 :: 116 :: 121 :: r =>
              TConst (PyFloat FNegInf) :: lex LIdle r
          | 45, d :: r => if isdigit d then lex (LInt [d; c]) r else [TBad]
          | _, _ => [TBad]
          end in
      (* an exponent that starts at [c], put after [acc] *)
      let exponent (acc : str) : option (list token) :=
        if (c =? 101) || (c =? 69) then
          match rest with
          | d :: r =>
              if isdigit d then Some (lex (LExp (d :: c :: acc)) r)
              else if (d =? 43) || (d =? 45) then
                match r with
                | d' :: r' =>
                    if isdigit d' then Some (lex (LExp (d' :: d :: c :: acc)) r')
                    else None
                | [] => None
                end
              else None
          | [] => None
          end
        else None in
      match m with
      | LIdle => fresh tt
      | LString acc =>
          if c =? 34 then TString (rev acc) :: lex LIdle rest
          else if c =? 92 then
            match rest with
            | 117 :: h1 :: h2 :: h3 :: h4 :: r =>
                match hex4 h1 h2 h3 h4 with
                | None => [TBad]
                | Some u =>
                    let alone (_ : unit) := lex (LString (u :: acc)) r in
                    if is_high_surrogate u then
                      match r with
                      | 92 :: 117 :: l1 :: l2 :: l3 :: l4 :: r' =>
                          match hex4 l1 l2 l3 l4 with
                          | None => [TBad]
                          | Some u2 =>
                              if is_low_surrogate u2 then
                                lex (LString (join_surrogates u u2 :: acc)) r'
                              else alone tt
                          end
                      | _ => alone tt
                      end
                    else alone tt
                end
            | e :: r =>
                match simple_escape e with
                | Some x => lex (LString (x :: acc)) r
                | None => [TBad]
                end
            | [] => [TBad]
            end
          else if c <? 32 then [TBad]
          else lex (LString (c :: acc)) rest
      | LInt acc =>
          let leading_zero :=
            match acc with
            | [48] | [48; 45] => true
            | _ => false
            end in
          if isdigit c && negb leading_zero then lex (LInt (c :: acc)) rest
          else if c =? 46 then
            match rest with
            | d :: r =>
                if isdigit d then lex (LFrac (d :: c :: acc)) r
                else TInt (rev acc) :: fresh tt
            | [] => TInt (rev acc) :: fresh tt
            end
          else
            match exponent acc with
            | Some ts => ts
            | None => TInt (rev acc) :: fresh tt
            end
      | LFrac acc =>
          if isdigit c then lex (LFrac (c :: acc)) rest
          else
            match exponent acc with
            | Some ts => ts
            | None => TFloat (rev acc) :: fresh tt
            end
      | LExp acc =>
          if isdigit c then lex (LExp (c :: acc)) rest
          else TFloat (rev acc) :: fresh tt
      end
  end.

(** What the default [parse_int], [int], makes of an integer token. *)
Definition json_int (lexeme : str) : result Z :=
  match lexeme with
  | 45 :: ds =>
      if (int_max_str_digits <? length ds)%nat then Raise ValueError
      else Ok (- digits_value ds)%Z
  | ds =>
      if (int_max_str_digits <? length ds)%nat then Raise ValueError
      else Ok (digits_value ds)
  end.

(** An array or an object that is still open.  [FList] holds the elements
    read so far, last one first; [FDictValue] is an object waiting for the
    value of [key]. *)
Inductive frame : Type :=
| FList (acc : list pyvalue)
| FDict (d : dict)
| FDictValue (d : dict) (key : str).

(** What the automaton can take next. *)
Inductive expect : Type :=
| XValue            (* a value *)
| XValueOrEnd       (* just after a left bracket: a value or the right bracket *)
| XKeyOrEnd         (* just after a left brace: a key or the right brace *)
| XKey              (* after a comma in an object: a key *)
| XColon (k : str)  (* after a key *)
| XSep              (* after a value in an array or object *)
| XDone (v : pyvalue).

(** A value is complete: it goes into the innermost open container. *)
Definition reduce (v : pyvalue) (stk : list frame) : option (expect * list frame) :=
  match stk with
  | [] => Some (XDone v, [])
  | FList acc :: stk' => Some (XSep, FList (v :: acc) :: stk')
  | FDictValue d k :: stk' => Some (XSep, FDict (dict_set d k v) :: stk')
  | FDict _ :: _ => None
  end.

Definition value_token (t : token) : option (result pyvalue) :=
  match t with
  | TString s => Some (Ok (PyStr s))
  | TInt lexeme => Some (z <- json_int lexeme ;; Ok (PyInt z))
  | TFloat lexeme => Some (Ok (PyFloat (FNum lexeme)))
  | TConst v => Some (Ok v)
  | _ => None
  end.

(** One token. [None] is a syntax error. *)
Definition parse_step (x : expect) (stk : list frame) (t : token)
  : result (option (expect * list frame)) :=
  let value : result (option (expect * list frame)) :=
    match t with
    | TLBrace => Ok (Some (XKeyOrEnd, FDict [] :: stk))
    | TLBracket => Ok (Some (XValueOrEnd, FList [] :: stk))
    | _ =>
        match value_token t with
        | Some r => v <- r ;; Ok (reduce v stk)
        | None => Ok None
        end
    end in
  match x with
  | XValue => value
  | XValueOrEnd =>
      match t, stk with
      | TRBracket, FList acc :: stk' => Ok (reduce (PyList (rev acc)) stk')
      | _, _ => value
      end
  | XKeyOrEnd =>
      match t, stk with
      | TString k, _ => Ok (Some (XColon k, stk))
      | TRBrace, FDict d :: stk' => Ok (reduce (PyDict d) stk')
      | _, _ => Ok None
      end
  | XKey =>
      match t with
      | TString k => Ok (Some (XColon k, stk))
      | _ => Ok None
      end
  | XColon k =>
      match t, stk with
      | TColon, FDict d :: stk' => Ok (Some (XValue, FDictValue d k :: stk'))
      | _, _ => Ok None
      end
  | XSep =>
      match t, stk with
      | TComma, FList _ :: _ => Ok (Some (XValue, stk))
      | TRBracket, FList acc :: stk' => Ok (reduce (PyList (rev acc)) stk')
      | TComma, FDict _ :: _ => Ok (Some (XKey, stk))
      | TRBrace, FDict d :: stk' => Ok (reduce (PyDict d) stk')
      | _, _ => Ok None
      end
  | XDone _ => Ok None
  end.

Fixpoint parse (x : expect) (stk : list frame) (ts : list token)
  : result pyvalue :=
  match ts with
  | [] =>
      match x with
      | XDone v => Ok v
      | _ => Raise JSONDecodeError
      end
  | t :: ts' =>
      o <- parse_step x stk t ;;
      match o with
      | Some (x', stk') => parse x' stk' ts'
      | None => Raise JSONDecodeError
      end
  end.

(** [json.loads(s)] for a [str].  The interpreter's limit on recursion is
    left out of it: it follows arrays and objects nested to any depth,
    where CPython raises [RecursionError] beyond the limit;
    [json_loads_within] below has the limit. *)
Definition json_loads (s : str) : result pyvalue :=
  match s with
  | 65279 :: _ => Raise JSONDecodeError
  | _ => parse XValue [] (lex LIdle s)
  end.

(** [json.loads] in an interpreter that lets the decoder recurse [room]
    deep.  The scanner enters a recursive call for each array and object it
    opens, so the depth of the recursion is the number of containers that
    are open, the length of the stack here (which grows only when a
    container is opened); beyond what the interpreter allows CPython raises
    [RecursionError], which is no [ValueError] and for which [None] stands
    here. *)
Fixpoint parse_within (room : nat) (x : expect) (stk : list frame) (ts : list token)
  : option (result pyvalue) :=
  match ts with
  | [] =>
      match x with
      | XDone v => Some (Ok v)
      | _ => Some (Raise JSONDecodeError)
      end
  | t :: ts' =>
      match parse_step x stk t with
      | Raise e => Some (Raise e)
      | Ok None => Some (Raise JSONDecodeError)
      | Ok (Some (x', stk')) =>
          if (room <? length stk')%nat then None
          else parse_within room x' stk' ts'
      end
  end.

Definition json_loads_within (room : nat) (s : str) : option (result pyvalue) :=
  match s with
  | 65279 :: _ => Some (Raise JSONDecodeError)
  | _ => parse_within room XValue [] (lex LIdle s)
  end.

(** ** [json.dumps(obj, indent=2)] *)

Definition json_escape (c : char) : str :=
  if c =? 34 then [92; 34]
  else if c =? 92 then [92; 92]
  else if c =? 10 then [92; 110]
  else if c =? 13 then [92; 114]
  else if c =? 9 then [92; 116]
  else if c =? 8 then [92; 98]
  else if c =? 12 then [92; 102]
  else if (32 <=? c) && (c <=? 126) then [c]
  else if c <? 65536 then 92 :: 117 :: hex_fixed 4 c
  else
    let n := c - 65536 in
    (92 :: 117 :: hex_fixed 4 (55296 + (n / 1024) mod 1024))
    ++ (92 :: 117 :: hex_fixed 4 (56320 + n mod 1024)).

(** A string, with [ensure_ascii] left at its default. *)
Definition json_string (s : str) : str :=
  34 :: flat_map json_escape s ++ [34].

Definition newline_indent (level : nat) : str :=
  LF :: repeat 32 (2 * level)%nat.

Fixpoint join_with (sep : str) (items : list str) : str :=
  match items with
  | [] => []
  | [x] => x
  | x :: rest => x ++ sep ++ join_with sep rest
  end.

Section Dumps.

Context (rt : runtime).

Definition float_json (f : pyfloat) : str :=
  let r := float_str rt f in
  if str_eqb r (ustr "nan") then ustr "NaN"
  else if str_eqb r (ustr "inf") then ustr "Infinity"
  else if str_eqb r (ustr "-inf") then ustr "-Infinity"
  else r.

Fixpoint dumps (level : nat) (v : pyvalue) : str :=
  match v with
  | PyNone => ustr "null"
  | PyBool true => ustr "true"
  | PyBool false => ustr "false"
  | PyInt z => int_str z
  | PyFloat f => float_json f
  | PyStr s => json_string s
  | PyList [] => ustr "[]"
  | PyList l =>
      ustr "[" ++ newline_indent (S level)
      ++ join_with (44 :: newline_indent (S level)) (map (dumps (S level)) l)
      ++ newline_indent level ++ ustr "]"
  | PyDict [] => ustr "{}"
  | PyDict d =>
      ustr "{" ++ newline_indent (S level)
      ++ join_with (44 :: newline_indent (S level))
           (map (fun kv =>
                   json_string (fst kv) ++ ustr ": " ++ dumps (S level) (snd kv))
                d)
      ++ newline_indent level ++ ustr "}"
  end.

Definition json_dumps (obj : pyvalue) : str := dumps 0 obj.

End Dumps.

(** ** The notebook *)

(** A file of the data directory: its text, or the exception that opening
    or reading it raises. *)
Inductive file : Type :=
| Text (content : str)
| Unreadable (e : exn).

(** The directory, in the order of [os.listdir]. *)
Definition directory := list (str * file).

Definition read_file (f : file) : result str :=
  match f with
  | Text content => Ok content
  | Unreadable e => Raise e
  end.

(** [data.extend(x)]: the elements of a list, the keys of a dict, the
    characters of a str. *)
Definition extend (data : list pyvalue) (x : pyvalue) : result (list pyvalue) :=
  match x with
  | PyList l => Ok (data ++ l)
  | PyDict d => Ok (data ++ map PyStr (dict_keys d))
  | PyStr s => Ok (data ++ map (fun c => PyStr [c]) s)
  | _ => Raise TypeError
  end.

(** [sample[key]] *)
Definition getitem (sample : pyvalue) (key : str) : result pyvalue :=
  match sample with
  | PyDict d =>
      match dict_get d key with
      | Some v => Ok v
      | None => Raise KeyError
      end
  | _ => Raise TypeError
  end.

(** What [parse_response] returns when it returns a dict. *)
Definition feature_map := list (str * str).

Section Notebook.

Context (rt : runtime).

(** The loop of [load_json_files]; [data] is the list built so far. *)
Fixpoint load_loop (entries : directory) (data : list pyvalue)
  : result (list pyvalue) :=
  match entries with
  | [] => Ok data
  | (filename, f) :: rest =>
      if endswith filename (ustr ".json") then
        content <- read_file f ;;
        loaded <- json_loads content ;;
        data' <- extend data loaded ;;
        load_loop rest data'
      else load_loop rest data
  end.

Definition load_json_files (d : directory) : result (list pyvalue) :=
  load_loop d [].

(** The dict comprehension of [parse_response]. *)
Definition stringify (response_dict : dict) : feature_map :=
  map (fun kv =>
         (fst kv,
          match snd kv with
          | PyNone => ustr "0"
          | v => py_str rt v
          end))
      response_dict.

(** [parse_response]; [None] is Python's [None].  Only
    [json.JSONDecodeError] is caught. *)
Definition parse_response (response_str : pyvalue) : result (option feature_map) :=
  match response_str with
  | PyStr s =>
      match re_search s with
      | Some m =>
          match json_loads (group m) with
          | Ok (PyDict response_dict) => Ok (Some (stringify response_dict))
          | Ok _ => Raise AttributeError
          | Raise JSONDecodeError => Ok None
          | Raise e => Raise e
          end
      | None => Ok None
      end
  | _ => Raise TypeError
  end.

(** [any(int(value) != 0 ... for value in values)]: the generator is
    consumed up to the first true element.  Every value is a [str], so the
    [else False] branch of the conditional expression is never taken. *)
Fixpoint any_nonzero (values : list str) : result bool :=
  match values with
  | [] => Ok false
  | value :: rest =>
      n <- py_int rt value ;;
      if (n =? 0)%Z then any_nonzero rest else Ok true
  end.

(** The test of the loop body of [filter_samples]: [None] and the empty
    dict are false, and [and] then leaves [any] unevaluated. *)
Definition keeps (sample : pyvalue) : result bool :=
  r <- getitem sample (ustr "response") ;;
  response <- parse_response r ;;
  match response with
  | None | Some [] => Ok false
  | Some fm => any_nonzero (dict_values fm)
  end.

Fixpoint filter_loop (data filtered_data removed_samples : list pyvalue)
  : result (list pyvalue * list pyvalue) :=
  match data with
  | [] => Ok (filtered_data, removed_samples)
  | sample :: rest =>
      keep <- keeps sample ;;
      if keep then filter_loop rest (filtered_data ++ [sample]) removed_samples
      else filter_loop rest filtered_data (removed_samples ++ [sample])
  end.

Definition filter_samples (data : list pyvalue)
  : result (list pyvalue * list pyvalue) :=
  filter_loop data [] [].

(** What a run of the cells leaves behind: the number printed by the
    fourth cell and the text of [merged_data.json]. *)
Record run : Type := {
  total_printed : nat;
  merged_data_json : str
}.

(** The cells after the definitions: load, print, save. *)
Definition run_cells (data_directory : directory) : result run :=
  all_samples <- load_json_files data_directory ;;
  Ok {| total_printed := length all_samples;
        merged_data_json := json_dumps rt (PyList all_samples) |}.

End Notebook.

(** ** Notions used in the statements *)

(** [l1] is [l2] with some elements left out: the order is kept. *)
Inductive subseq {A : Type} : list A -> list A -> Prop :=
| subseq_nil : subseq [] []
| subseq_skip (x : A) (l1 l2 : list A) : subseq l1 l2 -> subseq l1 (x :: l2)
| subseq_take (x : A) (l1 l2 : list A) : subseq l1 l2 -> subseq (x :: l1) (x :: l2).

(** At least one feature reads as an integer other than zero. *)
Definition has_nonzero_feature (rt : runtime) (fm : feature_map) : Prop :=
  exists k v n, In (k, v) fm /\ py_int rt v = Ok n /\ n <> 0%Z.

(** A [{] of [s] is followed by a [}] with no line feed in between. *)
Definition brace_pair_on_a_line (s : str) : Prop :=
  exists a b c, s = a ++ lbrace :: b ++ rbrace :: c /\ ~ In LF b.

(** The first [}] of [s], if any, comes after a line feed: the line that
    [s] starts with has none. *)
Definition no_rbrace_on_first_line (s : str) : Prop :=
  forall x y, s = x ++ rbrace :: y -> In LF x.

(** No left brace of [pre] can start a match: each is followed by a line
    without a right brace, [rest] being the text after [pre]. *)
Definition no_match_starts_in (pre rest : str) : Prop :=
  forall p1 p2, pre = p1 ++ lbrace :: p2 -> no_rbrace_on_first_line (p2 ++ rest).

(** The text is valid JSON for the decoder: it reads a value from it. *)
Definition decodes (text : str) : Prop := exists v, json_loads text = Ok v.

(** The number of digits of an integer literal, its sign left out. *)
Definition int_digits (lexeme : str) : nat :=
  match lexeme with
  | 45 :: ds => length ds
  | ds => length ds
  end.

(** The integer literals of a text, as the scanner cuts them out. *)
Definition int_literals (text : str) : list str :=
  flat_map (fun t => match t with TInt lexeme => [lexeme] | _ => [] end)
           (lex LIdle text).

(** No integer literal of the text has more digits than [int] converts. *)
Definition ints_within_limit (text : str) : bool :=
  forallb (fun lexeme => (int_digits lexeme <=? int_max_str_digits)%nat)
          (int_literals text).

(** The number of open brackets and braces after a token, [d] being the
    number before it. *)
Definition depth_after (d : nat) (t : token) : nat :=
  match t with
  | TLBrace | TLBracket => S d
  | TRBrace | TRBracket => pred d
  | _ => d
  end.

Fixpoint max_depth (d : nat) (ts : list token) : nat :=
  match ts with
  | [] => d
  | t :: ts' => Nat.max d (max_depth (depth_after d t) ts')
  end.

(** How deep the arrays and objects of a text nest: the largest number of
    brackets and braces open at a time, those inside strings not counted. *)
Definition nesting_depth (text : str) : nat := max_depth 0 (lex LIdle text).

(** The open containers of the automaton rest on an object. *)
Fixpoint dict_at_bottom (stk : list frame) : bool :=
  match stk with
  | [] => false
  | [FDict _] | [FDictValue _ _] => true
  | _ :: stk' => dict_at_bottom stk'
  end.

(** What the automaton will return is an object: either it is done with
    one, or its open containers rest on one. *)
Definition yields_dict (x : expect) (stk : list frame) : Prop :=
  match x with
  | XDone v => exists d, v = PyDict d
  | _ => dict_at_bottom stk = true
  end.

(** The entry is one [load_json_files] opens. *)
Definition is_json_name (entry : str * file) : bool :=
  endswith (fst entry) (ustr ".json").

(** The entry is a file whose text decodes to the list [samples]. *)
Definition holds_array (entry : str * file) (samples : list pyvalue) : Prop :=
  exists content,
    snd entry = Text content /\ json_loads content = Ok (PyList samples).

(** The sample [{"response": text}]. *)
Definition sample_of (text : str) : pyvalue :=
  PyDict [(ustr "response", PyStr text)].

(** The runtime of the closed examples.  Their texts are ASCII and hold no
    float, so that none of its fields is consulted on them. *)
Definition ascii_runtime : runtime :=
  {| float_repr := fun lexeme => lexeme;
     unicode_isprintable := fun _ => false;
     unicode_decimal := fun _ => None |}.

(** The test of the loop as a boolean: true when it returns [True], false
    when it returns [False] or raises. *)
Definition accepts (rt : runtime) (sample : pyvalue) : bool :=
  match keeps rt sample with
  | Ok true => true
  | _ => false
  end.

(** The test of the loop raises nothing on the sample. *)
Definition test_returns (rt : runtime) (sample : pyvalue) : Prop :=
  exists b, keeps rt sample = Ok b.

(** What iterating over a decoded value yields, for the values that can
    be iterated over: [extend] appends these. *)
Definition iterated (v : pyvalue) : option (list pyvalue) :=
  match v with
  | PyList l => Some l
  | PyDict d => Some (map PyStr (dict_keys d))
  | PyStr s => Some (map (fun c => PyStr [c]) s)
  | _ => None
  end.

(** The entry is a file whose text decodes to a value that iterates to
    [items]. *)
Definition holds_items (entry : str * file) (items : list pyvalue) : Prop :=
  exists content v,
    snd entry = Text content /\ json_loads content = Ok v /\
    iterated v = Some items.

(** A decoded value that is a boolean, an array or an object. *)
Definition is_bool_or_container (v : pyvalue) : bool :=
  match v with
  | PyBool _ | PyList _ | PyDict _ => true
  | _ => false
  end.

(** What opening, reading and decoding one entry and iterating over the
    result gives: the samples it contributes, or the exception. *)
Definition entry_items (entry : str * file) : result (list pyvalue) :=
  content <- read_file (snd entry) ;;
  loaded <- json_loads content ;;
  match iterated loaded with
  | Some items => Ok items
  | None => Raise TypeError
  end.

(** ** Notions used for the saved file *)

(** A Unicode scalar value: a code point that is not a surrogate.  The
    text of a file decoded as UTF-8 has no other. *)
Definition scalar (c : char) : bool :=
  (c <? 55296) || ((57344 <=? c) && (c <? 1114112)).

(** The integer is within what [int] converts from text. *)
Definition fits_int (z : Z) : bool :=
  (length (int_str (Z.abs z)) <=? int_max_str_digits)%nat.

Fixpoint keys_distinct (ks : list str) : bool :=
  match ks with
  | [] => true
  | k :: rest => negb (existsb (str_eqb k) rest) && keys_distinct rest
  end.

(** The values that the decoder gives back from their dumped text: text
    is made of scalar values, integers are within the limit of [int],
    objects have distinct keys, and there is no float other than the three
    constants (the text of a float being left to the runtime). *)
Fixpoint reloadable (v : pyvalue) : bool :=
  match v with
  | PyNone | PyBool _ => true
  | PyInt z => fits_int z
  | PyFloat (FNum _) => false
  | PyFloat _ => true
  | PyStr s => forallb scalar s
  | PyList l => forallb reloadable l
  | PyDict d =>
      keys_distinct (map fst d)
      && forallb (fun kv => forallb scalar (fst kv) && reloadable (snd kv)) d
  end.

(** Token lists put one after the other with a comma in between. *)
Fixpoint join_tokens (items : list (list token)) : list token :=
  match items with
  | [] => []
  | [x] => x
  | x :: rest => x ++ TComma :: join_tokens rest
  end.

(** The tokens of the dumped text of a value. *)
Fixpoint tokens_of (v : pyvalue) : list token :=
  match v with
  | PyInt z => [TInt (int_str z)]
  | PyStr s => [TString s]
  | PyList l => TLBracket :: join_tokens (map tokens_of l) ++ [TRBracket]
  | PyDict d =>
      TLBrace
      :: join_tokens
           (map (fun kv => TString (fst kv) :: TColon :: tokens_of (snd kv)) d)
      ++ [TRBrace]
  | _ => [TConst v]
  end.

(** The lexer has read a zero, with or without a sign, and nothing else:
    no digit may follow. *)
Definition leading_zero (acc : str) : bool :=
  match acc with
  | [48] | [48; 45] => true
  | _ => false
  end.

(** What follows a value in a dumped text: nothing, a comma or a line
    feed. *)
Definition ends_value (rest : str) : Prop :=
  match rest with
  | [] => True
  | c :: _ => c = 44 \/ c = 10
  end.

(** A text lexes to the tokens [ts], whatever value text follows. *)
Definition lexes_to (text : str) (ts : list token) : Prop :=
  forall rest, ends_value rest -> lex LIdle (text ++ rest) = ts ++ lex LIdle rest.

(** The automaton is about to read a value. *)
Definition wants_value (x : expect) : Prop := x = XValue \/ x = XValueOrEnd.

(** Reading the tokens [ts] in state [x] amounts to completing [v]. *)
Definition parses_as (ts : list token) (v : pyvalue) : Prop :=
  forall x stk rest,
    wants_value x ->
    parse x stk (ts ++ rest) =
    match reduce v stk with
    | Some (x', stk') => parse x' stk' rest
    | None => Raise JSONDecodeError
    end.

(** A character of a text file that any encoding based on ASCII writes as
    it is: a line feed or a printable ASCII character. *)
Definition plain_ascii (c : char) : bool :=
  (c =? 10) || ((32 <=? c) && (c <=? 126)).

(** Every character of the text is plain. *)
Definition all_plain (s : str) : Prop := Forall (fun c => plain_ascii c = true) s.

(** The value holds no float read from a number token (the text of such a
    float is left to the runtime). *)
Fixpoint no_number_float (v : pyvalue) : bool :=
  match v with
  | PyFloat (FNum _) => false
  | PyList l => forallb no_number_float l
  | PyDict d => forallb (fun kv => no_number_float (snd kv)) d
  | _ => true
  end.

(** The name of the saved file inside the data directory. *)
Definition merged_name : str := ustr "merged_data.json".

(** The data directory after the last cell has run on [dir] and written
    [text]: the entry [merged_data.json] holds [text], the other entries
    are as before, and the listing comes in any order. *)
Definition after_run (dir : directory) (text : str) (dir' : directory) : Prop :=
  Permutation dir'
    ((merged_name, Text text)
     :: filter (fun entry => negb (str_eqb (fst entry) merged_name)) dir).

(** The open containers of the automaton rest on an object whose keys so
    far are distinct. *)
Fixpoint distinct_at_bottom (stk : list frame) : Prop :=
  match stk with
  | [] => False
  | [FDict d] | [FDictValue d _] => NoDup (dict_keys d)
  | [FList _] => False
  | _ :: stk' => distinct_at_bottom stk'
  end.

(** What the automaton will return is an object with distinct keys. *)
Definition yields_distinct (x : expect) (stk : list frame) : Prop :=
  match x with
  | XDone v => exists d, v = PyDict d /\ NoDup (dict_keys d)
  | _ => distinct_at_bottom stk
  end.

(** ** The training notebook: preparing the data

    The cell "Prepare data in Alpaca format" of the notebook that trains
    the model reads [merged_data.json], builds three columns from the
    samples and formats each row as a prompt. *)

(** The literal [alpaca_prompt]. *)
Definition alpaca_prompt : str :=
  ustr "Below is an instruction that describes a task, paired with an input that provides further context. Write a response that appropriately completes the request."
  ++ [LF; LF] ++ ustr "### Instruction:" ++ [LF] ++ ustr "{}"
  ++ [LF; LF] ++ ustr "### Input:" ++ [LF] ++ ustr "{}"
  ++ [LF; LF] ++ ustr "### Response:" ++ [LF] ++ ustr "{}".

(** The three columns of [dataset_dict]. *)
Record columns : Type := {
  instruction_col : list pyvalue;
  input_col : list pyvalue;
  output_col : list pyvalue
}.

Definition empty_columns : columns :=
  {| instruction_col := []; input_col := []; output_col := [] |}.

(** The loop [for item in data] that fills the columns. *)
Fixpoint columns_loop (data : list pyvalue) (dataset_dict : columns) : result columns :=
  match data with
  | [] => Ok dataset_dict
  | item :: rest =>
      instruction <- getitem item (ustr "instruction") ;;
      input <- getitem item (ustr "input") ;;
      response <- getitem item (ustr "response") ;;
      columns_loop rest
        {| instruction_col := instruction_col dataset_dict ++ [instruction];
           input_col := input_col dataset_dict ++ [input];
           output_col := output_col dataset_dict ++ [response] |}
  end.

(** From the text of the file to the columns: [json.load], then the
    loop over what was loaded. *)
Definition build_columns (file_text : str) : result columns :=
  data <- json_loads file_text ;;
  match iterated data with
  | Some items => columns_loop items empty_columns
  | None => Raise TypeError
  end.

Section Formatting.

Context (rt : runtime).

(** [template.format( *args )] for templates whose replacement fields are
    all written [{}]; [{{] and [}}] stand for one brace.  The result is
    [None] where Python does something this model leaves out: a field with
    a name, an index, a conversion or a format specification, or a field
    for which no argument is left.  An argument is put in as [format(arg,
    '')], which is [str(arg)] for the values at hand. *)
Fixpoint str_format (template : str) (args : list pyvalue) : option (result str) :=
  let put (text : str) (tail : option (result str)) : option (result str) :=
    match tail with
    | Some (Ok s) => Some (Ok (text ++ s))
    | other => other
    end in
  match template with
  | [] => Some (Ok [])
  | 123 :: 123 :: rest => put [123] (str_format rest args)
  | 123 :: 125 :: rest =>
      match args with
      | arg :: args' => put (py_str rt arg) (str_format rest args')
      | [] => None
      end
  | 123 :: [] => Some (Raise ValueError)
  | 123 :: _ => None
  | 125 :: 125 :: rest => put [125] (str_format rest args)
  | 125 :: _ => Some (Raise ValueError)
  | c :: rest => put [c] (str_format rest args)
  end.

(** [formatting_prompts_func], on the three columns of a batch; [zip]
    stops with the shortest column. *)
Fixpoint formatting_prompts_func (EOS_TOKEN : str)
         (instructions inputs outputs : list pyvalue) : option (result (list str)) :=
  match instructions, inputs, outputs with
  | instruction :: instructions', input :: inputs', output :: outputs' =>
      match str_format alpaca_prompt [instruction; input; output] with
      | Some (Ok formatted) =>
          match formatting_prompts_func EOS_TOKEN instructions' inputs' outputs' with
          | Some (Ok texts) => Some (Ok ((formatted ++ EOS_TOKEN) :: texts))
          | other => other
          end
      | Some (Raise e) => Some (Raise e)
      | None => None
      end
  | _, _, _ => Some (Ok [])
  end.

(** The prompt of one row, as the notebook's introduction lays it out. *)
Definition alpaca_text (EOS_TOKEN : str) (instruction input output : pyvalue) : str :=
  ustr "Below is an instruction that describes a task, paired with an input that provides further context. Write a response that appropriately completes the request."
  ++ [LF; LF] ++ ustr "### Instruction:" ++ [LF] ++ py_str rt instruction
  ++ [LF; LF] ++ ustr "### Input:" ++ [LF] ++ py_str rt input
  ++ [LF; LF] ++ ustr "### Response:" ++ [LF] ++ py_str rt output
  ++ EOS_TOKEN.

End Formatting.

(** What reading the three fields of an item raises, if it raises: an item
    that is no dict cannot be indexed by a key, a dict may lack a key. *)
Definition field_fault (item : pyvalue) : option exn :=
  match item with
  | PyDict d =>
      match dict_get d (ustr "instruction"), dict_get d (ustr "input"),
            dict_get d (ustr "response") with
      | Some _, Some _, Some _ => None
      | _, _, _ => Some KeyError
      end
  | _ => Some TypeError
  end.

(** * Properties *)

(** ** The monad *)

Lemma bind_ok {A B : Type} (m : result A) (k : A -> result B) (b : B) :
  bind m k = Ok b -> exists a, m = Ok a /\ k a = Ok b.
Proof.
  destruct m as [a | e]; simpl; intros H; [eauto | discriminate].
Qed.

Lemma bind_raise {A B : Type} (m : result A) (k : A -> result B) (e : exn) :
  m = Raise e -> bind m k = Raise e.
Proof. intros ->. reflexivity. Qed.

(** ** The pattern *)

Lemma rbrace_is_dot : dot rbrace = true.
Proof. reflexivity. Qed.

Lemma dot_false_iff (c : char) : dot c = false <-> c = LF.
Proof.
  unfold dot. rewrite negb_false_iff. apply N.eqb_eq.
Qed.

Lemma dot_true_iff (c : char) : dot c = true <-> c <> LF.
Proof.
  unfold dot. rewrite negb_true_iff. apply N.eqb_neq.
Qed.

(** When [.*\}] fails, the first line of the text has no right brace. *)
Lemma match_star_rbrace_none (s : str) :
  match_star_rbrace s = None -> no_rbrace_on_first_line s.
Proof.
  unfold no_rbrace_on_first_line.
  induction s as [| c s IH]; intros Hm x y Heq.
  - destruct x; discriminate.
  - simpl in Hm. destruct (dot c) eqn:Hd.
    + destruct (match_star_rbrace s) eqn:Hs; [discriminate |].
      destruct (c =? rbrace) eqn:Hc; [discriminate |].
      destruct x as [| x0 x]; simpl in Heq; injection Heq as -> ->.
      * rewrite N.eqb_refl in Hc. discriminate.
      * right. apply (IH eq_refl x y eq_refl).
    + apply dot_false_iff in Hd. subst c.
      destruct x as [| x0 x]; simpl in Heq; injection Heq as Hx ->.
      * discriminate.
      * left. congruence.
Qed.

(** What [.*\}] matches: everything up to the last right brace of the
    first line. *)
Lemma match_star_rbrace_some (s g : str) :
  match_star_rbrace s = Some g ->
  exists body post,
    s = body ++ rbrace :: post /\ g = body ++ [rbrace] /\
    ~ In LF body /\ no_rbrace_on_first_line post.
Proof.
  revert g. induction s as [| c s IH]; intros g Hm; [discriminate |].
  simpl in Hm. destruct (dot c) eqn:Hd.
  - destruct (match_star_rbrace s) as [g' |] eqn:Hs.
    + injection Hm as <-.
      destruct (IH g' eq_refl) as (body & post & -> & -> & Hb & Hp).
      exists (c :: body), post. repeat split; auto.
      intros [Hc | Hin]; [| tauto].
      apply dot_true_iff in Hd. congruence.
    + destruct (c =? rbrace) eqn:Hc; [| discriminate].
      apply N.eqb_eq in Hc. subst c. injection Hm as <-.
      exists [], s. repeat split; auto.
      apply match_star_rbrace_none, Hs.
  - destruct (c =? rbrace) eqn:Hc; [| discriminate].
    apply N.eqb_eq in Hc. apply dot_false_iff in Hd. subst c. discriminate.
Qed.

(** [.*\}] matches as soon as the first line has a right brace. *)
Lemma match_star_rbrace_complete (b c : str) :
  ~ In LF b -> match_star_rbrace (b ++ rbrace :: c) <> None.
Proof.
  induction b as [| x b IH]; intros Hb; simpl.
  - destruct (match_star_rbrace c); discriminate.
  - assert (Hx : dot x = true) by (apply dot_true_iff; intros ->; apply Hb; now left).
    rewrite Hx.
    destruct (match_star_rbrace (b ++ rbrace :: c)) eqn:Hs; [discriminate |].
    exfalso. apply IH; auto. intros Hin. apply Hb. now right.
Qed.

Lemma match_here_none (rest : str) :
  match_here (lbrace :: rest) = None -> no_rbrace_on_first_line rest.
Proof.
  simpl. destruct (match_star_rbrace rest) eqn:Hs; [discriminate |].
  intros _. apply match_star_rbrace_none, Hs.
Qed.

Lemma match_here_some (s g : str) :
  match_here s = Some g ->
  exists body post,
    s = lbrace :: body ++ rbrace :: post /\ g = lbrace :: body ++ [rbrace] /\
    ~ In LF body /\ no_rbrace_on_first_line post.
Proof.
  destruct s as [| c rest]; [discriminate |]. simpl.
  destruct (c =? lbrace) eqn:Hc; [| discriminate].
  apply N.eqb_eq in Hc. subst c.
  destruct (match_star_rbrace rest) as [g' |] eqn:Hs; [| discriminate].
  intros [= <-].
  destruct (match_star_rbrace_some _ _ Hs) as (body & post & -> & -> & Hb & Hp).
  exists body, post. auto.
Qed.

(** The match of [re.search]: it starts at the leftmost left brace that has
    a right brace after it on its line, and ends at the last right brace
    of that line. *)
Lemma search_from_some (pos : nat) (s : str) (m : re_match) :
  search_from pos s = Some m ->
  exists pre body post,
    s = pre ++ lbrace :: body ++ rbrace :: post /\
    group m = lbrace :: body ++ [rbrace] /\
    m_start m = (pos + length pre)%nat /\
    ~ In LF body /\
    no_rbrace_on_first_line post /\
    no_match_starts_in pre (lbrace :: body ++ rbrace :: post).
Proof.
  revert pos. induction s as [| c s IH]; intros pos Hs; [discriminate |].
  cbn [search_from] in Hs.
  destruct (match_here (c :: s)) as [g |] eqn:Hh.
  - injection Hs as <-.
    destruct (match_here_some _ _ Hh) as (body & post & Heq & -> & Hb & Hp).
    exists [], body, post. simpl. repeat split; auto.
    intros p1 p2 Hpre. destruct p1; discriminate.
  - destruct (IH _ Hs) as (pre & body & post & -> & Hg & Hst & Hb & Hp & Hl).
    exists (c :: pre), body, post. simpl. repeat split; auto.
    + rewrite Hst. lia.
    + intros p1 p2 Hpre. destruct p1 as [| x p1]; simpl in Hpre.
      * injection Hpre as -> ->. apply match_here_none, Hh.
      * injection Hpre as -> ->. apply (Hl p1 p2 eq_refl).
Qed.

Lemma search_from_none (pos : nat) (s : str) :
  search_from pos s = None -> ~ brace_pair_on_a_line s.
Proof.
  revert pos. induction s as [| x s IH]; intros pos Hs (a & b & c & Heq & Hb).
  - destruct a; discriminate.
  - cbn [search_from] in Hs.
    destruct (match_here (x :: s)) eqn:Hh; [discriminate |].
    destruct a as [| a0 a]; simpl in Heq; injection Heq as -> ->.
    + apply Hb. apply (match_here_none _ Hh b c eq_refl).
    + apply (IH _ Hs). exists a, b, c. auto.
Qed.

Lemma search_from_complete (pos : nat) (s : str) :
  brace_pair_on_a_line s -> search_from pos s <> None.
Proof.
  intros (a & b & c & -> & Hb). revert pos.
  induction a as [| x a IH]; intros pos; cbn [search_from app].
  - unfold match_here. rewrite N.eqb_refl.
    destruct (match_star_rbrace (b ++ rbrace :: c)) eqn:Hs; [discriminate |].
    exfalso. apply (match_star_rbrace_complete b c Hb Hs).
  - destruct (match_here (x :: a ++ lbrace :: b ++ rbrace :: c));
      [discriminate | apply IH].
Qed.

(** [re.search] finds nothing exactly when no line has a left brace
    followed by a right brace. *)
Lemma re_search_none_iff (s : str) :
  re_search s = None <-> ~ brace_pair_on_a_line s.
Proof.
  split.
  - apply search_from_none.
  - intros Hn. destruct (re_search s) eqn:Hs; [| reflexivity].
    exfalso. apply Hn.
    destruct (search_from_some _ _ _ Hs) as (pre & body & post & -> & _ & _ & Hb & _).
    exists pre, body, post. auto.
Qed.

Lemma match_star_rbrace_without (s : str) :
  ~ In rbrace s -> match_star_rbrace s = None.
Proof.
  induction s as [| c s IH]; intros Hn; [reflexivity |]. simpl.
  rewrite IH by (intros Hin; apply Hn; now right).
  destruct (c =? rbrace) eqn:Hc.
  - apply N.eqb_eq in Hc. exfalso. apply Hn. now left.
  - now destruct (dot c).
Qed.

Lemma match_star_rbrace_exact (body post : str) :
  ~ In LF body -> ~ In rbrace post ->
  match_star_rbrace (body ++ rbrace :: post) = Some (body ++ [rbrace]).
Proof.
  intros Hb Hp. induction body as [| x body IH]; simpl.
  - rewrite (match_star_rbrace_without post Hp). reflexivity.
  - assert (Hx : dot x = true) by (apply dot_true_iff; intros ->; apply Hb; now left).
    rewrite Hx, IH; [reflexivity |]. intros Hin. apply Hb. now right.
Qed.

(** An object on one line, in a text with no left brace before it and no
    right brace after it, is what [re.search] matches. *)
Lemma search_from_embedded (pos : nat) (pre body post : str) :
  ~ In lbrace pre -> ~ In LF body -> ~ In rbrace post ->
  search_from pos (pre ++ lbrace :: body ++ rbrace :: post)
  = Some {| m_start := (pos + length pre)%nat;
            group := lbrace :: body ++ [rbrace] |}.
Proof.
  intros Hpre Hbody Hpost. revert pos.
  induction pre as [| x pre IH]; intros pos; cbn [search_from app].
  - unfold match_here. rewrite N.eqb_refl.
    rewrite (match_star_rbrace_exact body post Hbody Hpost). simpl.
    do 2 f_equal. lia.
  - assert (Hx : (x =? lbrace) = false).
    { apply N.eqb_neq. intros ->. apply Hpre. now left. }
    unfold match_here at 1. rewrite Hx.
    rewrite IH by (intros Hin; apply Hpre; now right).
    do 2 f_equal. simpl. lia.
Qed.

Lemma re_search_embedded (pre body post : str) :
  ~ In lbrace pre -> ~ In LF body -> ~ In rbrace post ->
  re_search (pre ++ lbrace :: body ++ rbrace :: post)
  = Some {| m_start := length pre; group := lbrace :: body ++ [rbrace] |}.
Proof.
  intros. unfold re_search. now rewrite search_from_embedded.
Qed.

(** The converse of [search_from_some]: the three conditions it gives pin
    the match down. *)
Lemma match_star_rbrace_first_line (s : str) :
  no_rbrace_on_first_line s -> match_star_rbrace s = None.
Proof.
  intros Hn. destruct (match_star_rbrace s) as [g |] eqn:Hm; [| reflexivity].
  destruct (match_star_rbrace_some _ _ Hm) as (body & post & -> & _ & Hb & _).
  exfalso. apply Hb. apply (Hn body post). reflexivity.
Qed.

Lemma match_star_rbrace_last (body post : str) :
  ~ In LF body -> no_rbrace_on_first_line post ->
  match_star_rbrace (body ++ rbrace :: post) = Some (body ++ [rbrace]).
Proof.
  intros Hb Hp. induction body as [| x body IH]; simpl.
  - rewrite (match_star_rbrace_first_line post Hp). reflexivity.
  - assert (Hx : dot x = true) by (apply dot_true_iff; intros ->; apply Hb; now left).
    rewrite Hx, IH; [reflexivity |]. intros Hin. apply Hb. now right.
Qed.

Lemma no_match_starts_in_nil (rest : str) : no_match_starts_in [] rest.
Proof. intros p1 p2 H. destruct p1; discriminate. Qed.

Lemma no_match_starts_in_cons (c : char) (pre rest : str) :
  no_match_starts_in (c :: pre) rest <->
  (c = lbrace -> no_rbrace_on_first_line (pre ++ rest)) /\
  no_match_starts_in pre rest.
Proof.
  split.
  - intros H. split.
    + intros ->. apply (H [] pre). reflexivity.
    + intros p1 p2 ->. apply (H (c :: p1) p2). reflexivity.
  - intros [Hc Hpre] p1 p2 Heq.
    destruct p1 as [| x p1]; simpl in Heq; injection Heq as -> ->.
    + apply Hc. reflexivity.
    + apply (Hpre p1 p2). reflexivity.
Qed.

Lemma search_from_exact (pos : nat) (pre body post : str) :
  no_match_starts_in pre (lbrace :: body ++ rbrace :: post) ->
  ~ In LF body -> no_rbrace_on_first_line post ->
  search_from pos (pre ++ lbrace :: body ++ rbrace :: post)
  = Some {| m_start := (pos + length pre)%nat;
            group := lbrace :: body ++ [rbrace] |}.
Proof.
  intros Hpre Hbody Hpost. revert pos.
  induction pre as [| x pre IH]; intros pos; cbn [search_from app].
  - unfold match_here. rewrite N.eqb_refl.
    rewrite (match_star_rbrace_last body post Hbody Hpost). simpl.
    do 2 f_equal. lia.
  - apply no_match_starts_in_cons in Hpre. destruct Hpre as [Hx Hpre].
    assert (Hh : match_here (x :: pre ++ lbrace :: body ++ rbrace :: post) = None).
    { unfold match_here. destruct (x =? lbrace) eqn:Hc; [| reflexivity].
      apply N.eqb_eq in Hc.
      rewrite (match_star_rbrace_first_line _ (Hx Hc)). reflexivity. }
    rewrite Hh. rewrite (IH Hpre). simpl. do 2 f_equal. lia.
Qed.

(** An object on one line is what [re.search] matches exactly when no left
    brace before it has a right brace on its line and no right brace
    follows the object on its line. *)
Lemma re_search_exact (pre body post : str) :
  no_match_starts_in pre (lbrace :: body ++ rbrace :: post) ->
  ~ In LF body -> no_rbrace_on_first_line post ->
  re_search (pre ++ lbrace :: body ++ rbrace :: post)
  = Some {| m_start := length pre; group := lbrace :: body ++ [rbrace] |}.
Proof.
  intros. unfold re_search. now rewrite search_from_exact.
Qed.

(** ** The loop of [filter_samples] *)

Section FilterLoop.

Context (rt : runtime).

(** A run of the loop that ends appends to the two lists the samples the
    test accepts and those it rejects, each in the order of the input. *)
Lemma filter_loop_ok (data f r f' r' : list pyvalue) :
  filter_loop rt data f r = Ok (f', r') ->
  exists kept gone,
    f' = f ++ kept /\ r' = r ++ gone /\
    Forall (fun s => keeps rt s = Ok true) kept /\
    Forall (fun s => keeps rt s = Ok false) gone /\
    Permutation (kept ++ gone) data /\
    subseq kept data /\ subseq gone data /\
    Forall (fun s => exists b, keeps rt s = Ok b) data.
Proof.
  revert f r. induction data as [| sample rest IH]; intros f r H.
  - injection H as <- <-. exists [], [].
    rewrite !app_nil_r. repeat split; auto using subseq_nil.
  - cbn [filter_loop] in H. apply bind_ok in H. destruct H as ([|] & Hk & H).
    + destruct (IH _ _ H) as (kept & gone & -> & -> & Hkept & Hgone & Hp & Hs1 & Hs2 & Hall).
      exists (sample :: kept), gone. rewrite <- app_assoc.
      repeat split; eauto using subseq_take, subseq_skip.
      simpl. now apply perm_skip.
    + destruct (IH _ _ H) as (kept & gone & -> & -> & Hkept & Hgone & Hp & Hs1 & Hs2 & Hall).
      exists kept, (sample :: gone). rewrite <- app_assoc.
      repeat split; eauto using subseq_take, subseq_skip.
      apply Permutation_sym, Permutation_cons_app, Permutation_sym, Hp.
Qed.

(** The exception of the first sample the test fails on is the one the
    loop raises. *)
Lemma filter_loop_first_raise (before after f r : list pyvalue)
      (sample : pyvalue) (e : exn) :
  Forall (fun s => exists b, keeps rt s = Ok b) before ->
  keeps rt sample = Raise e ->
  filter_loop rt (before ++ sample :: after) f r = Raise e.
Proof.
  intros Hb Hk. revert f r.
  induction Hb as [| s before [b Hs] _ IH]; intros f r; cbn [filter_loop app].
  - now rewrite Hk.
  - rewrite Hs. cbn [bind]. destruct b; apply IH.
Qed.

(** A sample the test fails on makes the loop raise, whatever comes
    before it. *)
Lemma filter_loop_raise (data f r : list pyvalue) (sample : pyvalue) (e : exn) :
  In sample data -> keeps rt sample = Raise e ->
  exists e', filter_loop rt data f r = Raise e'.
Proof.
  intros Hin Hk. revert f r.
  induction data as [| s rest IH]; intros f r; [contradiction |].
  cbn [filter_loop]. destruct (keeps rt s) as [b | e0] eqn:Hs.
  - destruct Hin as [-> | Hin]; [congruence |].
    cbn [bind]. destruct b; apply IH, Hin.
  - cbn [bind]. eauto.
Qed.

(** Where a sample ends up, in a run that ends. *)
Lemma filter_samples_in (data retained removed : list pyvalue) (sample : pyvalue) :
  filter_samples rt data = Ok (retained, removed) ->
  In sample data ->
  (In sample retained <-> keeps rt sample = Ok true) /\
  (In sample removed <-> keeps rt sample = Ok false).
Proof.
  intros H Hin. apply filter_loop_ok in H.
  destruct H as (kept & gone & -> & -> & Hkept & Hgone & Hp & _ & _ & Hall).
  simpl. rewrite Forall_forall in Hkept, Hgone.
  assert (Hor : In sample kept \/ In sample gone).
  { apply in_app_or. eapply Permutation_in; [apply Permutation_sym, Hp | exact Hin]. }
  split; split; intros Hx; auto.
  - destruct Hor as [? | Hg]; auto. apply Hgone in Hg. congruence.
  - destruct Hor as [Hg | ?]; auto. apply Hkept in Hg. congruence.
Qed.

Lemma any_nonzero_true (values : list str) :
  any_nonzero rt values = Ok true ->
  exists v n, In v values /\ py_int rt v = Ok n /\ n <> 0%Z.
Proof.
  induction values as [| v rest IH]; [discriminate |].
  cbn [any_nonzero]. intros H. apply bind_ok in H. destruct H as (n & Hn & H).
  destruct (n =? 0)%Z eqn:Hz.
  - destruct (IH H) as (v' & n' & Hin & Hv & Hne). exists v', n'. simpl. auto.
  - apply Z.eqb_neq in Hz. exists v, n. simpl. auto.
Qed.

Lemma any_nonzero_false (values : list str) :
  any_nonzero rt values = Ok false ->
  Forall (fun v => py_int rt v = Ok 0%Z) values.
Proof.
  induction values as [| v rest IH]; [constructor |].
  cbn [any_nonzero]. intros H. apply bind_ok in H. destruct H as (n & Hn & H).
  destruct (n =? 0)%Z eqn:Hz; [| discriminate].
  apply Z.eqb_eq in Hz. subst n. constructor; auto.
Qed.

(** The generator is consumed up to the first value that is not an integer
    zero: a value that is not an integer, reached over zeros only, raises. *)
Lemma any_nonzero_raise (before after : list str) (v : str) (e : exn) :
  Forall (fun x => py_int rt x = Ok 0%Z) before ->
  py_int rt v = Raise e ->
  any_nonzero rt (before ++ v :: after) = Raise e.
Proof.
  intros Hb Hv. induction Hb as [| x before Hx _ IH]; cbn [any_nonzero app].
  - now rewrite Hv.
  - rewrite Hx. exact IH.
Qed.

End FilterLoop.

(** ** The test of the loop body *)

Lemma not_in_str (s : str) (c : char) : str_contains s c = false -> ~ In c s.
Proof.
  unfold str_contains. intros H Hin.
  assert (Ht : existsb (N.eqb c) s = true).
  { apply existsb_exists. exists c. split; [exact Hin | apply N.eqb_refl]. }
  congruence.
Qed.

Section Keeps.

Context (rt : runtime).

Lemma keeps_unfold (sample r : pyvalue) (o : option feature_map) :
  getitem sample (ustr "response") = Ok r ->
  parse_response rt r = Ok o ->
  keeps rt sample =
  match o with
  | Some fm => any_nonzero rt (dict_values fm)
  | None => Ok false
  end.
Proof.
  intros Hg Hp. unfold keeps. rewrite Hg. cbn [bind]. rewrite Hp. cbn [bind].
  destruct o as [[| kv fm] |]; reflexivity.
Qed.

Lemma keeps_ok (sample : pyvalue) (b : bool) :
  keeps rt sample = Ok b ->
  exists r o, getitem sample (ustr "response") = Ok r /\ parse_response rt r = Ok o.
Proof.
  unfold keeps. intros H.
  apply bind_ok in H. destruct H as (r & Hr & H).
  apply bind_ok in H. destruct H as (o & Ho & _). eauto.
Qed.

Lemma has_nonzero_feature_values (fm : feature_map) :
  has_nonzero_feature rt fm <->
  exists v n, In v (dict_values fm) /\ py_int rt v = Ok n /\ n <> 0%Z.
Proof.
  unfold has_nonzero_feature, dict_values. split.
  - intros (k & v & n & Hin & Hv & Hn). exists v, n. split; auto.
    apply in_map_iff. exists (k, v). auto.
  - intros (v & n & Hin & Hv & Hn). apply in_map_iff in Hin.
    destruct Hin as ([k v'] & Heq & Hin). simpl in Heq. subst v'.
    exists k, v, n. auto.
Qed.

(** The test of the loop: it accepts the sample exactly when the sample has
    a Feature Map with a value that reads as a non-zero integer, provided
    it raises nothing. *)
Lemma keeps_true_iff (sample : pyvalue) (b : bool) :
  keeps rt sample = Ok b ->
  (b = true <->
   exists r fm,
     getitem sample (ustr "response") = Ok r /\
     parse_response rt r = Ok (Some fm) /\
     has_nonzero_feature rt fm).
Proof.
  intros Hk. destruct (keeps_ok _ _ Hk) as (r & o & Hr & Ho).
  rewrite (keeps_unfold _ _ _ Hr Ho) in Hk. split.
  - intros ->. destruct o as [fm |]; [| discriminate].
    exists r, fm. repeat split; auto.
    apply has_nonzero_feature_values, any_nonzero_true, Hk.
  - intros (r' & fm & Hr' & Hfm & Hnz).
    rewrite Hr in Hr'. injection Hr' as <-.
    rewrite Ho in Hfm. injection Hfm as ->.
    destruct b; [reflexivity | exfalso].
    apply any_nonzero_false in Hk. rewrite Forall_forall in Hk.
    apply has_nonzero_feature_values in Hnz.
    destruct Hnz as (v & n & Hin & Hv & Hn).
    rewrite (Hk v Hin) in Hv. congruence.
Qed.

(** Prose around an object that sits on one line changes nothing, as long
    as it has no left brace before the object and no right brace after. *)
Lemma parse_response_in_prose (pre obj post body : str) :
  obj = lbrace :: body ++ [rbrace] ->
  ~ In lbrace pre -> ~ In LF body -> ~ In rbrace post ->
  parse_response rt (PyStr (pre ++ obj ++ post)) = parse_response rt (PyStr obj).
Proof.
  intros -> Hpre Hbody Hpost. unfold parse_response.
  replace (pre ++ (lbrace :: body ++ [rbrace]) ++ post)
    with (pre ++ lbrace :: body ++ rbrace :: post)
    by (simpl; now rewrite <- app_assoc).
  rewrite (re_search_embedded pre body post Hpre Hbody Hpost).
  replace (lbrace :: body ++ [rbrace])
    with ([] ++ lbrace :: body ++ rbrace :: []) at 2 by reflexivity.
  rewrite (re_search_embedded [] body []) by (simpl; tauto).
  reflexivity.
Qed.

(** The text around an object that sits on one line changes nothing, as
    long as the object is what the pattern matches. *)
Lemma parse_response_at_match (pre obj post body : str) :
  obj = lbrace :: body ++ [rbrace] ->
  no_match_starts_in pre (obj ++ post) -> ~ In LF body -> no_rbrace_on_first_line post ->
  parse_response rt (PyStr (pre ++ obj ++ post)) = parse_response rt (PyStr obj).
Proof.
  intros -> Hpre Hbody Hpost. unfold parse_response.
  assert (Heq : (lbrace :: body ++ [rbrace]) ++ post = lbrace :: body ++ rbrace :: post)
    by (simpl; now rewrite <- app_assoc).
  rewrite Heq in *.
  rewrite (re_search_exact pre body post Hpre Hbody Hpost).
  replace (lbrace :: body ++ [rbrace])
    with ([] ++ lbrace :: body ++ rbrace :: []) at 2 by reflexivity.
  rewrite (re_search_embedded [] body []) by (simpl; tauto).
  reflexivity.
Qed.

End Keeps.

(** ** The partition *)

(** C2.  When [filter_samples] ends without an error, the two lists it
    returns partition the input: together they are a permutation of it, no
    sample is in both, and each keeps the order of the input. *)
Theorem filter_samples_partition (rt : runtime) (data retained removed : list pyvalue) :
  filter_samples rt data = Ok (retained, removed) ->
  Permutation (retained ++ removed) data /\
  (forall s, In s retained -> In s removed -> False) /\
  subseq retained data /\
  subseq removed data.
Proof.
  intros H. apply filter_loop_ok in H.
  destruct H as (kept & gone & -> & -> & Hkept & Hgone & Hp & Hs1 & Hs2 & _).
  simpl. repeat split; auto.
  intros s Hin1 Hin2. rewrite Forall_forall in Hkept, Hgone.
  apply Hkept in Hin1. apply Hgone in Hin2. congruence.
Qed.

Lemma filter_samples_partition_witness :
  let a := sample_of (jstr "{'a': 1, 'b': 0}") in
  let b := sample_of (ustr "nothing to extract") in
  let c := sample_of (jstr "scores: {'x': '0', 'y': -2}") in
  filter_samples ascii_runtime [a; b; c; b] = Ok ([a; c], [b; b]) /\
  Permutation ([a; c] ++ [b; b]) [a; b; c; b] /\
  (forall s, In s [a; c] -> In s [b; b] -> False) /\
  subseq [a; c] [a; b; c; b] /\
  subseq [b; b] [a; b; c; b].
Proof.
  intros a b c. split.
  - vm_compute. reflexivity.
  - apply (filter_samples_partition ascii_runtime [a; b; c; b] [a; c] [b; b]).
    vm_compute. reflexivity.
Defined.

(** ** The decision *)

(** C5 as stated does not hold.  That a response contains one of the two
    objects does not decide the sample: the pattern matches from the first
    left brace that has a right brace on its line to the last right brace
    of that line, and the match need not be the object.  In the first
    response the match is [{} {"a": 1, "b": 0}], which does not decode, and
    the sample is removed; in the second the match is [{"k": 1}], on the
    line before the object of zeros, and the sample is retained. *)
Lemma contained_object_does_not_decide :
  let ones := jstr "{} {'a': 1, 'b': 0}" in
  let zeros := jstr "{'k': 1}" ++ [LF] ++ jstr "{'a': 0, 'b': '0', 'c': null}" in
  (exists pre post, ones = pre ++ jstr "{'a': 1, 'b': 0}" ++ post) /\
  filter_samples ascii_runtime [sample_of ones] = Ok ([], [sample_of ones]) /\
  (exists pre post, zeros = pre ++ jstr "{'a': 0, 'b': '0', 'c': null}" ++ post) /\
  filter_samples ascii_runtime [sample_of zeros] = Ok ([sample_of zeros], []).
Proof.
  intros ones zeros. split; [| split; [| split]].
  - exists (jstr "{} "), []. vm_compute. reflexivity.
  - vm_compute. reflexivity.
  - exists (jstr "{'k': 1}" ++ [LF]), []. vm_compute. reflexivity.
  - vm_compute. reflexivity.
Qed.

(** C5, amended.  In a run that ends, a sample is retained exactly when its
    Feature Map exists and has a value that reads as a non-zero integer.  A
    sample in whose response the pattern matches
    [{"a": 0, "b": "0", "c": null}] is removed and one in whose response it
    matches [{"a": 1, "b": 0}] is retained; the object is what the pattern
    matches when no left brace before it has a right brace after it on its
    own line, and no right brace follows the object on its line. *)
Theorem filter_decision_rule (rt : runtime)
        (data retained removed : list pyvalue) (sample : pyvalue) :
  filter_samples rt data = Ok (retained, removed) ->
  In sample data ->
  (In sample retained <->
   exists r fm,
     getitem sample (ustr "response") = Ok r /\
     parse_response rt r = Ok (Some fm) /\
     has_nonzero_feature rt fm) /\
  (forall pre post,
     no_match_starts_in pre (jstr "{'a': 0, 'b': '0', 'c': null}" ++ post) ->
     no_rbrace_on_first_line post ->
     getitem sample (ustr "response")
     = Ok (PyStr (pre ++ jstr "{'a': 0, 'b': '0', 'c': null}" ++ post)) ->
     In sample removed /\ ~ In sample retained) /\
  (forall pre post,
     no_match_starts_in pre (jstr "{'a': 1, 'b': 0}" ++ post) ->
     no_rbrace_on_first_line post ->
     getitem sample (ustr "response")
     = Ok (PyStr (pre ++ jstr "{'a': 1, 'b': 0}" ++ post)) ->
     In sample retained /\ ~ In sample removed).
Proof.
  intros Hf Hin.
  destruct (filter_samples_in rt _ _ _ _ Hf Hin) as [Hret Hrem].
  assert (Hb : exists b, keeps rt sample = Ok b).
  { apply filter_loop_ok in Hf.
    destruct Hf as (_ & _ & _ & _ & _ & _ & _ & _ & _ & Hall).
    rewrite Forall_forall in Hall. apply Hall, Hin. }
  destruct Hb as [b Hb].
  split; [| split].
  - rewrite Hret, Hb. rewrite <- (keeps_true_iff rt sample b Hb).
    split; congruence.
  - intros pre post Hpre Hpost Hg.
    assert (Hk : keeps rt sample = Ok false).
    { rewrite (keeps_unfold rt sample _
                 (Some [(ustr "a", ustr "0"); (ustr "b", ustr "0"); (ustr "c", ustr "0")]) Hg).
      - vm_compute. reflexivity.
      - rewrite (parse_response_at_match rt pre _ post (jstr "'a': 0, 'b': '0', 'c': null"));
          auto; try (vm_compute; reflexivity).
        apply not_in_str. vm_compute. reflexivity. }
    split; [apply Hrem, Hk | rewrite Hret; congruence].
  - intros pre post Hpre Hpost Hg.
    assert (Hk : keeps rt sample = Ok true).
    { rewrite (keeps_unfold rt sample _
                 (Some [(ustr "a", ustr "1"); (ustr "b", ustr "0")]) Hg).
      - vm_compute. reflexivity.
      - rewrite (parse_response_at_match rt pre _ post (jstr "'a': 1, 'b': 0"));
          auto; try (vm_compute; reflexivity).
        apply not_in_str. vm_compute. reflexivity. }
    split; [apply Hret, Hk | rewrite Hrem; congruence].
Qed.

Ltac no_match_in_text :=
  match goal with
  | |- no_match_starts_in ?p ?r =>
      let p' := eval vm_compute in p in
      let r' := eval vm_compute in r in
      change (no_match_starts_in p' r')
  end;
  repeat (apply no_match_starts_in_cons; split;
          [intros Hc; try discriminate Hc; apply match_star_rbrace_none; reflexivity |]);
  apply no_match_starts_in_nil.

Lemma filter_decision_rule_witness :
  let zeros := sample_of ([lbrace; LF] ++ jstr "Features: {'a': 0, 'b': '0', 'c': null}."
                          ++ [LF; rbrace]) in
  let ones := sample_of (jstr "{ as asked:" ++ [LF] ++ jstr "{'a': 1, 'b': 0}") in
  filter_samples ascii_runtime [zeros; ones] = Ok ([ones], [zeros]) /\
  (In ones [ones] <->
   exists r fm,
     getitem ones (ustr "response") = Ok r /\
     parse_response ascii_runtime r = Ok (Some fm) /\
     has_nonzero_feature ascii_runtime fm) /\
  (In zeros [zeros] /\ ~ In zeros [ones]) /\
  (In ones [ones] /\ ~ In ones [zeros]).
Proof.
  intros zeros ones.
  assert (Hf : filter_samples ascii_runtime [zeros; ones] = Ok ([ones], [zeros]))
    by (vm_compute; reflexivity).
  split; [exact Hf |]. split; [| split].
  - apply (filter_decision_rule ascii_runtime _ _ _ ones Hf). right. left. reflexivity.
  - assert (Hin : In zeros [zeros; ones]) by (left; reflexivity).
    destruct (filter_decision_rule ascii_runtime _ _ _ zeros Hf Hin) as (_ & Hz & _).
    apply (Hz ([lbrace; LF] ++ ustr "Features: ") (ustr "." ++ [LF; rbrace])).
    + no_match_in_text.
    + apply match_star_rbrace_none. reflexivity.
    + reflexivity.
  - assert (Hin : In ones [zeros; ones]) by (right; left; reflexivity).
    destruct (filter_decision_rule ascii_runtime _ _ _ ones Hf Hin) as (_ & _ & Ho).
    apply (Ho (ustr "{ as asked:" ++ [LF]) []).
    + no_match_in_text.
    + intros x y H. destruct x; discriminate.
    + reflexivity.
Defined.

(** ** Failures *)

(** A sample whose response yields no Feature Map fails the test of the
    loop without an error, and goes to the removed list. *)
Lemma no_features_is_removed (rt : runtime) (r sample : pyvalue) :
  parse_response rt r = Ok None ->
  getitem sample (ustr "response") = Ok r ->
  keeps rt sample = Ok false /\
  filter_samples rt [sample] = Ok ([], [sample]) /\
  forall data retained removed,
    filter_samples rt data = Ok (retained, removed) ->
    In sample data ->
    In sample removed /\ ~ In sample retained.
Proof.
  intros Hp Hg.
  assert (Hk : keeps rt sample = Ok false) by apply (keeps_unfold rt _ _ _ Hg Hp).
  split; [exact Hk | split].
  - unfold filter_samples. cbn [filter_loop]. rewrite Hk. reflexivity.
  - intros data retained removed Hf Hin.
    destruct (filter_samples_in rt _ _ _ _ Hf Hin) as [Hret Hrem].
    split; [apply Hrem, Hk | rewrite Hret, Hk; discriminate].
Qed.

(** *** What the decoder raises, and how deep it recurses *)

Lemma not_bom (A : Type) (c : char) (a b : A) :
  c <> 65279 -> match c with 65279 => a | _ => b end = b.
Proof.
  intros Hc. destruct c as [| p]; [reflexivity |].
  do 16 (destruct p as [p | p |]; try reflexivity). congruence.
Qed.

Lemma json_int_raises (lexeme : str) (e : exn) :
  json_int lexeme = Raise e ->
  e = ValueError /\ (int_digits lexeme <=? int_max_str_digits)%nat = false.
Proof.
  unfold json_int, int_digits.
  assert (H : forall ds : str,
             (int_max_str_digits <? length ds)%nat = true ->
             (length ds <=? int_max_str_digits)%nat = false).
  { intros ds Hl. apply Nat.ltb_lt in Hl. apply Nat.leb_gt. exact Hl. }
  destruct lexeme as [| c ds].
  - destruct (int_max_str_digits <? length (@nil char))%nat eqn:Hl; [| discriminate].
    intros [= <-]. split; [reflexivity | apply H, Hl].
  - destruct (N.eq_dec c 45) as [-> | Hc].
    + destruct (int_max_str_digits <? length ds)%nat eqn:Hl; [| discriminate].
      intros [= <-]. split; [reflexivity | apply H, Hl].
    + assert (Hj : forall A (a b : A),
                 match c with 45 => a | _ => b end = b).
      { intros A a b. destruct c as [| p]; [reflexivity |].
        do 6 (destruct p as [p | p |]; try reflexivity). congruence. }
      rewrite !Hj.
      destruct (int_max_str_digits <? length (c :: ds))%nat eqn:Hl; [| discriminate].
      intros [= <-]. split; [reflexivity | apply H, Hl].
Qed.

Lemma reduce_depth (v : pyvalue) (stk stk' : list frame) (x' : expect) :
  reduce v stk = Some (x', stk') -> length stk' = length stk.
Proof.
  destruct stk as [| [acc | d | d k] stk0]; cbn [reduce];
    intros H; try discriminate; injection H as <- <-; reflexivity.
Qed.

(** A step of the automaton raises only where an integer is converted. *)
Lemma parse_step_raises (x : expect) (stk : list frame) (t : token) (e : exn) :
  parse_step x stk t = Raise e ->
  exists lexeme, t = TInt lexeme /\ json_int lexeme = Raise e.
Proof.
  assert (Hv : forall r : result pyvalue,
             (v <- r ;; Ok (reduce v stk)) = Raise e -> r = Raise e).
  { intros [v | e']; cbn [bind]; congruence. }
  assert (Hi : forall lexeme,
             (z <- json_int lexeme ;; Ok (PyInt z)) = Raise e -> json_int lexeme = Raise e).
  { intros lexeme. destruct (json_int lexeme); cbn [bind]; congruence. }
  destruct x; destruct t; cbn [parse_step value_token]; intros H;
    try discriminate;
    try (apply Hv in H; try discriminate; apply Hi in H; eexists; split; [reflexivity | exact H]);
    try (destruct stk as [| [acc | d | d0 k0] stk0]; try discriminate;
         try (apply Hv in H; try discriminate; apply Hi in H;
              eexists; split; [reflexivity | exact H])).
Qed.

(** The stack grows by one at a left bracket or brace, shrinks by one at a
    right one, and keeps its length otherwise. *)
Lemma parse_step_depth (x x' : expect) (stk stk' : list frame) (t : token) :
  parse_step x stk t = Ok (Some (x', stk')) ->
  length stk' = depth_after (length stk) t.
Proof.
  assert (Hv : forall r : result pyvalue,
             (v <- r ;; Ok (reduce v stk)) = Ok (Some (x', stk')) ->
             length stk' = length stk).
  { intros [v | e']; cbn [bind]; [| discriminate].
    intros [= H]. apply (reduce_depth _ _ _ _ H). }
  assert (Hr : forall v stk0,
             Ok (reduce v stk0) = Ok (Some (x', stk')) -> length stk' = length stk0).
  { intros v stk0 [= H]. apply (reduce_depth _ _ _ _ H). }
  destruct x; destruct t; cbn [parse_step value_token depth_after]; intros H;
    try discriminate;
    try (injection H as <- <-; reflexivity);
    try (apply Hv in H; exact H);
    try (destruct stk as [| [acc | d | d0 k0] stk0]; try discriminate;
         try (injection H as <- <-; reflexivity);
         try (apply Hv in H; exact H);
         try (apply Hr in H; cbn [length pred]; exact H)).
Qed.

Lemma parse_raises (x : expect) (stk : list frame) (ts : list token) (e : exn) :
  parse x stk ts = Raise e ->
  e = JSONDecodeError \/
  exists lexeme, In (TInt lexeme) ts /\ json_int lexeme = Raise e.
Proof.
  revert x stk. induction ts as [| t ts IH]; intros x stk H.
  - left. destruct x; cbn [parse] in H; congruence.
  - cbn [parse] in H. destruct (parse_step x stk t) as [[[x' stk'] |] | e'] eqn:Hs;
      cbn [bind] in H.
    + destruct (IH _ _ H) as [-> | (lexeme & Hin & Hj)]; [now left | right].
      exists lexeme. split; [now right | exact Hj].
    + left. congruence.
    + injection H as ->. right.
      destruct (parse_step_raises _ _ _ _ Hs) as (lexeme & -> & Hj).
      exists lexeme. split; [now left | exact Hj].
Qed.

(** With no integer literal beyond the limit of [int], the decoder raises
    nothing but [JSONDecodeError]. *)
Lemma json_loads_raises (text : str) (e : exn) :
  json_loads text = Raise e ->
  ints_within_limit text = true ->
  e = JSONDecodeError.
Proof.
  intros H Hl.
  assert (Hp : parse XValue [] (lex LIdle text) = Raise e -> e = JSONDecodeError).
  { intros Hp. destruct (parse_raises _ _ _ _ Hp) as [-> | (lexeme & Hin & Hj)];
      [reflexivity | exfalso].
    apply json_int_raises in Hj. destruct Hj as [_ Hj].
    unfold ints_within_limit in Hl. rewrite forallb_forall in Hl.
    rewrite Hl in Hj; [discriminate |].
    unfold int_literals. apply in_flat_map. exists (TInt lexeme).
    split; [exact Hin | now left]. }
  unfold json_loads in H.
  destruct text as [| c rest]; [exact (Hp H) |].
  destruct (N.eq_dec c 65279) as [-> | Hc]; [congruence |].
  rewrite (not_bom _ c _ _ Hc) in H. exact (Hp H).
Qed.

Lemma max_depth_ge (d : nat) (ts : list token) : (d <= max_depth d ts)%nat.
Proof. destruct ts; cbn [max_depth]; lia. Qed.

Lemma parse_within_room (room : nat) (x : expect) (stk : list frame) (ts : list token) :
  (max_depth (length stk) ts <= room)%nat ->
  parse_within room x stk ts = Some (parse x stk ts).
Proof.
  revert x stk. induction ts as [| t ts IH]; intros x stk Hd.
  - destruct x; reflexivity.
  - cbn [parse_within parse].
    destruct (parse_step x stk t) as [[[x' stk'] |] | e'] eqn:Hs; cbn [bind];
      try reflexivity.
    cbn [max_depth] in Hd. rewrite <- (parse_step_depth _ _ _ _ _ Hs) in Hd.
    assert (Hle : (length stk' <= room)%nat).
    { pose proof (max_depth_ge (length stk') ts). lia. }
    apply Nat.ltb_ge in Hle. rewrite Hle. apply IH. lia.
Qed.

(** On a text that nests no deeper than the interpreter lets the decoder
    recurse, the limit plays no part: the decoder does what [json_loads]
    does. *)
Lemma json_loads_within_room (room : nat) (text : str) :
  (nesting_depth text <= room)%nat ->
  json_loads_within room text = Some (json_loads text).
Proof.
  intros Hd. unfold json_loads_within, json_loads.
  assert (H : parse_within room XValue [] (lex LIdle text)
              = Some (parse XValue [] (lex LIdle text)))
    by (apply parse_within_room; exact Hd).
  destruct text as [| c rest]; [exact H |].
  destruct (N.eq_dec c 65279) as [-> | Hc]; [reflexivity |].
  rewrite !(not_bom _ c _ _ Hc). exact H.
Qed.

(** Beyond it the decoder raises [RecursionError] where [json_loads], which
    has no such limit, goes on to the syntax error. *)
Example recursion_limit_comes_first :
  json_loads (jstr "{'a': [[[[ }") = Raise JSONDecodeError /\
  json_loads_within 5 (jstr "{'a': [[[[ }") = Some (Raise JSONDecodeError) /\
  json_loads_within 4 (jstr "{'a': [[[[ }") = None.
Proof. repeat split; vm_compute; reflexivity. Qed.

(** C3 as stated does not hold.  The matched text below is not valid JSON:
    it has a comma before the closing brace, and the decoder reads no value
    from it, nor from the same text with a short number.  Yet
    [parse_response] raises: the decoder converts the integer of 4301
    digits before it comes to the comma, [int] refuses it with a plain
    [ValueError], and the handler catches [JSONDecodeError] only. *)
Lemma undecodable_match_may_raise :
  let text := jstr "{'a': " ++ repeat 49 4301 ++ jstr ", }" in
  re_search text = Some {| m_start := 0; group := text |} /\
  ~ decodes text /\
  json_loads (jstr "{'a': 1, }") = Raise JSONDecodeError /\
  parse_response ascii_runtime (PyStr text) = Raise ValueError /\
  filter_samples ascii_runtime [sample_of text] = Raise ValueError.
Proof.
  intros text.
  assert (Hl : json_loads text = Raise ValueError) by (vm_compute; reflexivity).
  split; [vm_compute; reflexivity |]. split; [| split; [| split]].
  - intros (v & Hv). rewrite Hl in Hv. discriminate.
  - vm_compute. reflexivity.
  - vm_compute. reflexivity.
  - vm_compute. reflexivity.
Qed.

(** C3, amended.  When the response has no match of the pattern, or the
    matched text is not valid JSON (the decoder reads no value from it), has
    no integer literal of more than 4300 digits and nests its arrays and
    objects no deeper than the interpreter lets the decoder recurse
    ([room]), the decoder raises [JSONDecodeError], which the handler
    catches: [parse_response] returns [None] and raises nothing; a sample
    with such a response fails the test of the loop without an error, and
    goes to the removed list. *)
Theorem parse_response_recovers (rt : runtime) (room : nat) (s : str) :
  re_search s = None \/
  (exists m, re_search s = Some m /\
             ~ decodes (group m) /\
             ints_within_limit (group m) = true /\
             (nesting_depth (group m) <= room)%nat) ->
  (forall m, re_search s = Some m ->
             json_loads_within room (group m) = Some (Raise JSONDecodeError)) /\
  parse_response rt (PyStr s) = Ok None /\
  forall sample,
    getitem sample (ustr "response") = Ok (PyStr s) ->
    keeps rt sample = Ok false /\
    filter_samples rt [sample] = Ok ([], [sample]) /\
    forall data retained removed,
      filter_samples rt data = Ok (retained, removed) ->
      In sample data ->
      In sample removed /\ ~ In sample retained.
Proof.
  intros H.
  assert (Hj : forall m, re_search s = Some m ->
                         json_loads (group m) = Raise JSONDecodeError /\
                         (nesting_depth (group m) <= room)%nat).
  { intros m Hm. destruct H as [H | (m' & Hm' & Hn & Hl & Hd)]; [congruence |].
    assert (m' = m) by congruence. subst m'. split; [| exact Hd].
    destruct (json_loads (group m)) as [v | e] eqn:He.
    - exfalso. apply Hn. exists v. exact He.
    - f_equal. apply (json_loads_raises _ _ He Hl). }
  assert (Hp : parse_response rt (PyStr s) = Ok None).
  { unfold parse_response. destruct (re_search s) as [m |] eqn:Hm; [| reflexivity].
    destruct (Hj m eq_refl) as [-> _]. reflexivity. }
  split; [| split; [exact Hp |]].
  - intros m Hm. destruct (Hj m Hm) as [He Hd].
    rewrite (json_loads_within_room room _ Hd), He. reflexivity.
  - intros sample Hg. apply (no_features_is_removed rt _ _ Hp Hg).
Qed.

Lemma parse_response_recovers_witness :
  let s := jstr "The features are {'a': 1, 'b': [2, } as requested" in
  (re_search s = None \/
   exists m, re_search s = Some m /\
             ~ decodes (group m) /\
             ints_within_limit (group m) = true /\
             (nesting_depth (group m) <= 2)%nat) /\
  json_loads_within 2 (jstr "{'a': 1, 'b': [2, }") = Some (Raise JSONDecodeError) /\
  parse_response ascii_runtime (PyStr s) = Ok None /\
  filter_samples ascii_runtime [sample_of s] = Ok ([], [sample_of s]).
Proof.
  intros s.
  assert (Hm : re_search s = Some {| m_start := 17; group := jstr "{'a': 1, 'b': [2, }" |})
    by (vm_compute; reflexivity).
  assert (H : re_search s = None \/
              exists m, re_search s = Some m /\
                        ~ decodes (group m) /\
                        ints_within_limit (group m) = true /\
                        (nesting_depth (group m) <= 2)%nat).
  { right. eexists. split; [exact Hm |]. split; [| split].
    - intros (v & Hv). vm_compute in Hv. discriminate.
    - vm_compute. reflexivity.
    - apply Nat.leb_le. vm_compute. reflexivity. }
  split; [exact H |].
  destruct (parse_response_recovers ascii_runtime 2 s H) as (Hw & Hp & Hs).
  split; [exact (Hw _ Hm) |]. split; [exact Hp |].
  apply (Hs (sample_of s)). reflexivity.
Defined.

(** The two samples the specification lists: a response without any
    braces, and one whose object is never closed. *)
Example no_braces_is_removed :
  re_search (ustr "no features were found") = None /\
  re_search (jstr "{'a': 'not-json'") = None /\
  filter_samples ascii_runtime
    [sample_of (ustr "no features were found"); sample_of (jstr "{'a': 'not-json'")]
  = Ok ([], [sample_of (ustr "no features were found");
             sample_of (jstr "{'a': 'not-json'")]).
Proof. repeat split; vm_compute; reflexivity. Qed.

(** Two texts on which the decoder does not raise [JSONDecodeError]: it
    accepts the constant [NaN], and it raises a plain [ValueError], which
    the handler does not catch, on an integer of more than 4300 digits. *)
Example decoder_outside_the_handler :
  parse_response ascii_runtime (PyStr (jstr "{'a': NaN}"))
  = Ok (Some [(ustr "a", ustr "nan")]) /\
  json_loads (jstr "{'a': " ++ repeat 49 4301 ++ jstr "}") = Raise ValueError /\
  parse_response ascii_runtime (PyStr (jstr "{'a': " ++ repeat 49 4301 ++ jstr "}"))
  = Raise ValueError.
Proof. repeat split; vm_compute; reflexivity. Qed.






(** ** The decoder on a text that starts with a left brace *)

Lemma dict_at_bottom_cons (f : frame) (stk : list frame) :
  stk <> [] -> dict_at_bottom (f :: stk) = dict_at_bottom stk.
Proof.
  destruct stk; [congruence |]. destruct f; reflexivity.
Qed.

Lemma dict_at_bottom_push (f : frame) (stk : list frame) :
  dict_at_bottom stk = true -> dict_at_bottom (f :: stk) = true.
Proof.
  intros H. rewrite dict_at_bottom_cons; [exact H |].
  intros ->. discriminate.
Qed.

Lemma reduce_bottom (v : pyvalue) (stk stk' : list frame) (x' : expect) :
  dict_at_bottom stk = true ->
  reduce v stk = Some (x', stk') ->
  yields_dict x' stk'.
Proof.
  destruct stk as [| [acc | d | d k] rest]; simpl reduce;
    try discriminate; intros Hb [= <- <-]; simpl yields_dict.
  - destruct rest; [discriminate | exact Hb].
  - destruct rest; [reflexivity | exact Hb].
Qed.

Lemma pop_bottom (v : pyvalue) (f : frame) (stk stk' : list frame) (x' : expect) :
  dict_at_bottom (f :: stk) = true ->
  (stk = [] -> exists d, v = PyDict d) ->
  reduce v stk = Some (x', stk') ->
  yields_dict x' stk'.
Proof.
  intros Hb Hv. destruct stk as [| g rest].
  - intros [= <- <-]. simpl. auto.
  - apply reduce_bottom. rewrite dict_at_bottom_cons in Hb; [exact Hb | discriminate].
Qed.

Lemma parse_step_value_yields_dict (stk stk' : list frame) (t : token) (x' : expect) :
  dict_at_bottom stk = true ->
  parse_step XValue stk t = Ok (Some (x', stk')) ->
  yields_dict x' stk'.
Proof.
  intros Hb. unfold parse_step.
  destruct t; cbn [value_token]; try discriminate;
    first [ intros [= <- <-]; cbn [yields_dict]; apply dict_at_bottom_push, Hb
          | intros H; apply bind_ok in H; destruct H as (w & _ & [= H]);
            apply (reduce_bottom _ _ _ _ Hb H) ].
Qed.

Lemma parse_step_yields_dict (x x' : expect) (stk stk' : list frame) (t : token) :
  yields_dict x stk ->
  parse_step x stk t = Ok (Some (x', stk')) ->
  yields_dict x' stk'.
Proof.
  destruct x; simpl yields_dict; intros Hb.
  - apply parse_step_value_yields_dict, Hb.
  - destruct t;
      try (match goal with
           | |- parse_step _ _ ?t = _ -> _ =>
               intros H; exact (parse_step_value_yields_dict stk stk' t x' Hb H)
           end).
    destruct stk as [| [acc | d | d k] rest];
      cbn [parse_step value_token]; try discriminate.
    intros [= H].
    apply (pop_bottom _ _ _ _ _ Hb) in H; [exact H |].
    intros ->. discriminate.
  - destruct t; cbn [parse_step]; try discriminate.
    + destruct stk as [| [acc | d | d k] rest]; try discriminate.
      intros [= H]. apply (pop_bottom _ _ _ _ _ Hb) in H; eauto.
    + intros [= <- <-]. exact Hb.
  - destruct t; cbn [parse_step]; try discriminate.
    intros [= <- <-]. exact Hb.
  - destruct t; cbn [parse_step]; try discriminate.
    destruct stk as [| [acc | d | d0 k0] rest]; try discriminate.
    intros [= <- <-]. simpl.
    destruct rest; [reflexivity | exact Hb].
  - destruct t; cbn [parse_step]; try discriminate;
      destruct stk as [| [acc | d | d0 k0] rest]; try discriminate.
    + intros [= H]. apply (pop_bottom _ _ _ _ _ Hb) in H; eauto.
    + intros [= H]. apply (pop_bottom _ _ _ _ _ Hb) in H; [exact H |].
      intros ->. discriminate.
    + intros [= <- <-]. exact Hb.
    + intros [= <- <-]. exact Hb.
  - discriminate.
Qed.

Lemma parse_yields_dict (ts : list token) (x : expect) (stk : list frame) (v : pyvalue) :
  yields_dict x stk ->
  parse x stk ts = Ok v ->
  exists d, v = PyDict d.
Proof.
  revert x stk. induction ts as [| t ts IH]; intros x stk Hy; cbn [parse].
  - destruct x; try discriminate. intros [= <-]. exact Hy.
  - intros H. apply bind_ok in H. destruct H as ([[x' stk'] |] & Hs & H);
      [| discriminate].
    apply (IH x' stk'); [| exact H].
    apply (parse_step_yields_dict _ _ _ _ _ Hy Hs).
Qed.

(** A text that starts with a left brace decodes to a dict, if it decodes
    at all. *)
Lemma json_loads_lbrace (rest : str) (v : pyvalue) :
  json_loads (lbrace :: rest) = Ok v -> exists d, v = PyDict d.
Proof.
  unfold json_loads.
  change (lex LIdle (lbrace :: rest)) with (TLBrace :: lex LIdle rest).
  cbn [parse parse_step bind]. apply parse_yields_dict. reflexivity.
Qed.

(** ** The Feature Map *)

Lemma stringify_keys (rt : runtime) (d : dict) :
  dict_keys (stringify rt d) = dict_keys d.
Proof.
  unfold dict_keys, stringify. rewrite map_map. reflexivity.
Qed.

Lemma stringify_pointwise (rt : runtime) (d : dict) :
  Forall2
    (fun item feature =>
       fst feature = fst item /\
       snd feature = match snd item with
                     | PyNone => ustr "0"
                     | x => py_str rt x
                     end)
    d (stringify rt d).
Proof.
  induction d as [| kv d IH]; constructor; auto.
Qed.

(** C4.  When the matched text decodes, what it decodes to is a dict, and
    [parse_response] returns a map with the same keys in the same order,
    in which each value is [str] of the decoded value, except that [None]
    (a JSON null) becomes the text ["0"]. *)
Theorem parse_response_normalizes (rt : runtime) (s : str) (m : re_match) (v : pyvalue) :
  re_search s = Some m ->
  json_loads (group m) = Ok v ->
  exists (d : dict) (fm : feature_map),
    v = PyDict d /\
    parse_response rt (PyStr s) = Ok (Some fm) /\
    dict_keys fm = dict_keys d /\
    Forall2
      (fun item feature =>
         fst feature = fst item /\
         snd feature = match snd item with
                       | PyNone => ustr "0"
                       | x => py_str rt x
                       end)
      d fm /\
    (forall k, In (k, PyNone) d -> In (k, ustr "0") fm) /\
    (forall k x, In (k, x) d -> x <> PyNone -> In (k, py_str rt x) fm).
Proof.
  intros Hs Hl.
  assert (Hd : exists d, v = PyDict d).
  { destruct (search_from_some _ _ _ Hs) as (_ & body & _ & _ & Hg & _).
    rewrite Hg in Hl. apply (json_loads_lbrace _ _ Hl). }
  destruct Hd as [d ->].
  exists d, (stringify rt d). split; [reflexivity |]. split.
  { unfold parse_response. rewrite Hs, Hl. reflexivity. }
  split; [apply stringify_keys |]. split; [apply stringify_pointwise |].
  split.
  - intros k Hin. unfold stringify. apply in_map_iff.
    exists (k, PyNone). auto.
  - intros k x Hin Hx. unfold stringify. apply in_map_iff.
    exists (k, x). split; [| exact Hin].
    cbn [fst snd]. destruct x; congruence.
Qed.

Lemma parse_response_normalizes_witness :
  let s := jstr "Analysis: {'a': 2, 'b': null, 'c': 'up', 'd': true, 'e': [1, 'x']} done" in
  let obj := jstr "{'a': 2, 'b': null, 'c': 'up', 'd': true, 'e': [1, 'x']}" in
  let d := [(ustr "a", PyInt 2); (ustr "b", PyNone); (ustr "c", PyStr (ustr "up"));
            (ustr "d", PyBool true);
            (ustr "e", PyList [PyInt 1; PyStr (ustr "x")])] in
  re_search s = Some {| m_start := 10; group := obj |} /\
  json_loads obj = Ok (PyDict d) /\
  parse_response ascii_runtime (PyStr s)
  = Ok (Some [(ustr "a", ustr "2"); (ustr "b", ustr "0"); (ustr "c", ustr "up");
              (ustr "d", ustr "True"); (ustr "e", ustr "[1, 'x']")]) /\
  exists (d' : dict) (fm : feature_map),
    PyDict d = PyDict d' /\
    parse_response ascii_runtime (PyStr s) = Ok (Some fm) /\
    dict_keys fm = dict_keys d'.
Proof.
  intros s obj d.
  assert (Hs : re_search s = Some {| m_start := 10; group := obj |})
    by (vm_compute; reflexivity).
  assert (Hl : json_loads obj = Ok (PyDict d)) by (vm_compute; reflexivity).
  split; [exact Hs |]. split; [exact Hl |].
  split; [vm_compute; reflexivity |].
  destruct (parse_response_normalizes ascii_runtime s _ _ Hs Hl)
    as (d' & fm & Hv & Hp & Hk & _).
  exists d', fm. auto.
Defined.

(** ** The loader *)

Lemma load_loop_filter (entries : directory) (data : list pyvalue) :
  load_loop entries data = load_loop (filter is_json_name entries) data.
Proof.
  revert data. induction entries as [| [name f] rest IH]; intros data;
    [reflexivity |].
  cbn [load_loop filter]. unfold is_json_name at 1. cbn [fst].
  destruct (endswith name (ustr ".json")) eqn:Hn.
  - cbn [load_loop]. rewrite Hn.
    destruct (read_file f) as [content | e]; [| reflexivity]. cbn [bind].
    destruct (json_loads content) as [loaded | e]; [| reflexivity]. cbn [bind].
    destruct (extend data loaded) as [data' | e]; [| reflexivity]. cbn [bind].
    apply IH.
  - apply IH.
Qed.

(** Files that each hold an array load to the arrays put end to end. *)
Lemma load_loop_arrays (entries : directory) (arrays : list (list pyvalue))
      (data : list pyvalue) :
  Forall2 holds_array (filter is_json_name entries) arrays ->
  load_loop entries data = Ok (data ++ concat arrays).
Proof.
  rewrite load_loop_filter.
  assert (Hall : Forall (fun e => is_json_name e = true) (filter is_json_name entries)).
  { apply Forall_forall. intros e He. apply filter_In in He. tauto. }
  revert Hall. generalize (filter is_json_name entries) as js. clear entries.
  intros js Hall H. revert data.
  induction H as [| [name f] xs js arrays (content & Hf & Hl) _ IH]; intros data.
  - simpl. now rewrite app_nil_r.
  - inversion Hall as [| ? ? Hn Hall']; subst.
    unfold is_json_name in Hn. cbn [fst snd] in Hn, Hf. subst f.
    cbn [load_loop]. rewrite Hn. cbn [read_file bind]. rewrite Hl.
    cbn [bind extend]. rewrite (IH Hall'). cbn [concat].
    now rewrite app_assoc.
Qed.

(** A file that the loop opens and whose text does not decode makes it
    raise: either on that file or on one before it. *)
Lemma load_loop_raise (entries : directory) (data : list pyvalue)
      (name content : str) (e : exn) :
  In (name, Text content) entries ->
  endswith name (ustr ".json") = true ->
  json_loads content = Raise e ->
  exists e', load_loop entries data = Raise e'.
Proof.
  intros Hin Hn Hl. revert data.
  induction entries as [| [name' f] rest IH]; intros data; [contradiction |].
  cbn [load_loop]. destruct Hin as [[= -> ->] | Hin].
  - rewrite Hn. cbn [read_file bind]. rewrite Hl. cbn [bind]. eauto.
  - destruct (endswith name' (ustr ".json")); [| apply IH, Hin].
    destruct (read_file f) as [c | e1]; cbn [bind]; [| eauto].
    destruct (json_loads c) as [loaded | e2]; cbn [bind]; [| eauto].
    destruct (extend data loaded) as [data' | e3]; cbn [bind]; [| eauto].
    apply IH, Hin.
Qed.

(** The exception is that of the decoder when the files before load. *)
Lemma load_loop_first_raise (before after : directory) (data data' : list pyvalue)
      (name content : str) (e : exn) :
  load_loop before data = Ok data' ->
  endswith name (ustr ".json") = true ->
  json_loads content = Raise e ->
  load_loop (before ++ (name, Text content) :: after) data = Raise e.
Proof.
  intros Hb Hn Hl. revert data Hb.
  induction before as [| [name' f] rest IH]; intros data Hb; cbn [load_loop app].
  - rewrite Hn. cbn [read_file bind]. rewrite Hl. reflexivity.
  - cbn [load_loop] in Hb.
    destruct (endswith name' (ustr ".json")); [| apply IH, Hb].
    destruct (read_file f) as [c | e1]; cbn [bind] in *; [| discriminate].
    destruct (json_loads c) as [loaded | e2]; cbn [bind] in *; [| discriminate].
    destruct (extend data loaded) as [d1 | e3]; cbn [bind] in *; [| discriminate].
    apply IH, Hb.
Qed.

(** C7.  [load_json_files] opens the entries whose name ends in [.json]
    and no other; when each of them holds a JSON array the result is the
    arrays put end to end in the order of the listing; and when the text of
    one of them does not decode, the call raises and returns no list. *)
Theorem load_json_files_contract (dir : directory) :
  load_json_files dir = load_json_files (filter is_json_name dir) /\
  (forall arrays,
     Forall2 holds_array (filter is_json_name dir) arrays ->
     load_json_files dir = Ok (concat arrays)) /\
  (forall name content e,
     In (name, Text content) dir ->
     endswith name (ustr ".json") = true ->
     json_loads content = Raise e ->
     (exists e', load_json_files dir = Raise e') /\
     (forall data, load_json_files dir <> Ok data) /\
     (forall before after data,
        dir = before ++ (name, Text content) :: after ->
        load_json_files before = Ok data ->
        load_json_files dir = Raise e)).
Proof.
  unfold load_json_files. split; [apply load_loop_filter |]. split.
  - intros arrays H. apply (load_loop_arrays dir arrays [] H).
  - intros name content e Hin Hn Hl.
    destruct (load_loop_raise dir [] name content e Hin Hn Hl) as [e' He'].
    split; [eauto |]. split.
    + intros data. rewrite He'. discriminate.
    + intros before after data -> Hb.
      apply (load_loop_first_raise before after [] data name content e Hb Hn Hl).
Qed.

Lemma load_json_files_contract_witness :
  let a := sample_of (jstr "{'a': 1}") in
  let b := sample_of (ustr "none") in
  let good :=
    [(ustr "b.json", Text (jstr "[{'response': 'none'}]"));
     (ustr "notes.txt", Text (ustr "not JSON at all"));
     (ustr "json", Unreadable OSError);
     (ustr "a.json", Text (jstr "[{'response': '{\'a\': 1}'}, {'response': 'none'}]"))] in
  let bad := good ++ [(ustr "c.json", Text (jstr "[{'response': 'cut"))] in
  load_json_files good = Ok [b; a; b] /\
  load_json_files bad = Raise JSONDecodeError.
Proof.
  intros a b good bad. split.
  - destruct (load_json_files_contract good) as (_ & Harrays & _).
    apply (Harrays [[b]; [a; b]]).
    repeat constructor; eexists; (split; [reflexivity | vm_compute; reflexivity]).
  - destruct (load_json_files_contract bad) as (_ & _ & Hraise).
    destruct (Hraise (ustr "c.json") (jstr "[{'response': 'cut") JSONDecodeError)
      as (_ & _ & Hfirst).
    + unfold bad. apply in_or_app. right. left. reflexivity.
    + vm_compute. reflexivity.
    + vm_compute. reflexivity.
    + apply (Hfirst good [] [b; a; b]); [reflexivity | vm_compute; reflexivity].
Defined.

(** ** The match *)

(** C8 as stated does not hold.  The match need not start at the first
    left brace of the text: here the first one is alone on its line, and
    the match starts two characters later. *)
Lemma match_may_start_after_first_lbrace :
  let s := [lbrace; LF] ++ jstr "{'a': 1}" in
  brace_pair_on_a_line s /\
  str_find lbrace s = Some 0%nat /\
  re_search s = Some {| m_start := 2; group := jstr "{'a': 1}" |}.
Proof.
  intros s. split; [| split; vm_compute; reflexivity].
  exists [lbrace; LF], (jstr "'a': 1"), []. split; [reflexivity |].
  apply not_in_str. reflexivity.
Qed.

(** C8, amended.  When some left brace of the text has a right brace after
    it on the same line, [re.search] matches: the match starts at the first
    such left brace (a left brace before it has no right brace on its
    line), runs over no line feed, and ends at the last right brace of the
    line.  So two objects on one line, with no brace around them, are
    matched as one text that spans both. *)
Theorem re_search_leftmost_greedy (s : str) :
  (brace_pair_on_a_line s ->
   exists m pre body post,
     re_search s = Some m /\
     s = pre ++ lbrace :: body ++ rbrace :: post /\
     m_start m = length pre /\
     group m = lbrace :: body ++ [rbrace] /\
     ~ In LF body /\
     no_rbrace_on_first_line post /\
     no_match_starts_in pre (lbrace :: body ++ rbrace :: post)) /\
  (forall pre b1 mid b2 post,
     s = pre ++ lbrace :: b1 ++ rbrace :: mid ++ lbrace :: b2 ++ rbrace :: post ->
     ~ In lbrace pre -> ~ In LF b1 -> ~ In LF mid -> ~ In LF b2 ->
     ~ In rbrace post ->
     re_search s
     = Some {| m_start := length pre;
               group := lbrace :: b1 ++ rbrace :: mid ++ lbrace :: b2 ++ [rbrace] |}).
Proof.
  split.
  - intros Hpair.
    destruct (re_search s) as [m |] eqn:Hs.
    + destruct (search_from_some _ _ _ Hs)
        as (pre & body & post & Heq & Hg & Hst & Hb & Hp & Hl).
      exists m, pre, body, post. repeat split; auto.
    + exfalso. apply (search_from_complete 0 s Hpair Hs).
  - intros pre b1 mid b2 post -> Hpre H1 Hmid H2 Hpost.
    replace (pre ++ lbrace :: b1 ++ rbrace :: mid ++ lbrace :: b2 ++ rbrace :: post)
      with (pre ++ lbrace :: (b1 ++ rbrace :: mid ++ lbrace :: b2) ++ rbrace :: post).
    2:{ f_equal. f_equal. rewrite <- app_assoc. simpl. f_equal. f_equal.
        rewrite <- app_assoc. reflexivity. }
    rewrite re_search_embedded; auto.
    + do 3 f_equal. rewrite <- app_assoc. simpl. rewrite <- app_assoc. reflexivity.
    + intros Hin. apply in_app_or in Hin. destruct Hin as [Hin | [Hin | Hin]];
        [tauto | discriminate |].
      apply in_app_or in Hin. destruct Hin as [Hin | [Hin | Hin]];
        [tauto | discriminate | tauto].
Qed.

Lemma re_search_leftmost_greedy_witness :
  let s := jstr "First {'a': 1} and then {'b': 2}, see?" in
  brace_pair_on_a_line s /\
  re_search s
  = Some {| m_start := 6; group := jstr "{'a': 1} and then {'b': 2}" |} /\
  json_loads (jstr "{'a': 1} and then {'b': 2}") = Raise JSONDecodeError /\
  exists m pre body post,
    re_search s = Some m /\
    s = pre ++ lbrace :: body ++ rbrace :: post /\
    m_start m = length pre /\
    group m = lbrace :: body ++ [rbrace] /\
    ~ In LF body /\
    no_rbrace_on_first_line post /\
    no_match_starts_in pre (lbrace :: body ++ rbrace :: post).
Proof.
  intros s.
  assert (Hpair : brace_pair_on_a_line s).
  { exists (ustr "First "), (jstr "'a': 1"), (jstr " and then {'b': 2}, see?").
    split; [reflexivity | apply not_in_str; reflexivity]. }
  split; [exact Hpair |]. split; [| split].
  - apply (proj2 (re_search_leftmost_greedy s)
             (ustr "First ") (jstr "'a': 1") (ustr " and then ") (jstr "'b': 2")
             (ustr ", see?"));
      [reflexivity | apply not_in_str; reflexivity ..].
  - vm_compute. reflexivity.
  - apply (proj1 (re_search_leftmost_greedy s) Hpair).
Defined.

(** C9.  The pattern does not cross a line feed: when no left brace of the
    response has a right brace after it on the same line, [re.search] finds
    nothing, [parse_response] returns [None], and the sample goes to the
    removed list, even when the response is a well-formed object written
    over several lines. *)
Theorem re_search_stays_on_a_line (rt : runtime) (s : str) :
  ~ brace_pair_on_a_line s ->
  re_search s = None /\
  parse_response rt (PyStr s) = Ok None /\
  forall sample,
    getitem sample (ustr "response") = Ok (PyStr s) ->
    keeps rt sample = Ok false /\
    filter_samples rt [sample] = Ok ([], [sample]) /\
    forall data retained removed,
      filter_samples rt data = Ok (retained, removed) ->
      In sample data ->
      In sample removed /\ ~ In sample retained.
Proof.
  intros Hn.
  assert (Hs : re_search s = None) by apply (proj2 (re_search_none_iff s) Hn).
  assert (Hp : parse_response rt (PyStr s) = Ok None).
  { unfold parse_response. now rewrite Hs. }
  split; [exact Hs |]. split; [exact Hp |].
  intros sample Hg. apply (no_features_is_removed rt _ _ Hp Hg).
Qed.

Lemma re_search_stays_on_a_line_witness :
  let obj := PyDict [(ustr "a", PyInt 1); (ustr "b", PyInt 0)] in
  let s := json_dumps ascii_runtime obj in
  s = [lbrace; LF] ++ jstr "  'a': 1," ++ [LF] ++ jstr "  'b': 0" ++ [LF; rbrace] /\
  json_loads s = Ok obj /\
  ~ brace_pair_on_a_line s /\
  parse_response ascii_runtime (PyStr s) = Ok None /\
  filter_samples ascii_runtime [sample_of s] = Ok ([], [sample_of s]).
Proof.
  intros obj s.
  assert (Hn : ~ brace_pair_on_a_line s).
  { apply re_search_none_iff. vm_compute. reflexivity. }
  split; [vm_compute; reflexivity |]. split; [vm_compute; reflexivity |].
  split; [exact Hn |].
  destruct (re_search_stays_on_a_line ascii_runtime s Hn) as (_ & Hp & Hs).
  split; [exact Hp |].
  apply (Hs (sample_of s)). reflexivity.
Defined.

(** ** The saved file *)

(** The last cell writes everything that was loaded. *)
Lemma run_cells_saves_all_samples (rt : runtime) (dir : directory)
      (all_samples : list pyvalue) :
  load_json_files dir = Ok all_samples ->
  run_cells rt dir
  = Ok {| total_printed := length all_samples;
          merged_data_json := json_dumps rt (PyList all_samples) |}.
Proof.
  intros H. unfold run_cells. rewrite H. reflexivity.
Qed.

(** C1.  The saved file is not the retained list.  On a directory with one
    file that holds one sample without any features, the filter retains
    nothing, and yet [merged_data.json] holds that sample: the cells never
    call [filter_samples] and the last one dumps [all_samples]. *)
Theorem saved_file_is_not_filtered :
  let sample := sample_of (ustr "no features here") in
  let dir := [(ustr "part1.json", Text (jstr "[{'response': 'no features here'}]"))] in
  load_json_files dir = Ok [sample] /\
  parse_response ascii_runtime (PyStr (ustr "no features here")) = Ok None /\
  filter_samples ascii_runtime [sample] = Ok ([], [sample]) /\
  run_cells ascii_runtime dir
  = Ok {| total_printed := 1;
          merged_data_json :=
            jstr "[" ++ [LF] ++ jstr "  {" ++ [LF]
            ++ jstr "    'response': 'no features here'" ++ [LF]
            ++ jstr "  }" ++ [LF] ++ jstr "]" |} /\
  json_dumps ascii_runtime (PyList []) = jstr "[]".
Proof.
  intros sample dir. repeat split; vm_compute; reflexivity.
Qed.

(** * Further properties *)

(** ** [filter_samples] as a whole *)

Section FilterFacts.

Context (rt : runtime).

Lemma accepts_of_keeps (sample : pyvalue) (b : bool) :
  keeps rt sample = Ok b -> accepts rt sample = b.
Proof.
  unfold accepts. intros ->. now destruct b.
Qed.

Lemma filter_loop_returns (data f r : list pyvalue) :
  Forall (test_returns rt) data ->
  filter_loop rt data f r
  = Ok (f ++ filter (accepts rt) data,
        r ++ filter (fun s => negb (accepts rt s)) data).
Proof.
  intros H. revert f r.
  induction H as [| s data [b Hb] _ IH]; intros f r; cbn [filter_loop filter].
  - now rewrite !app_nil_r.
  - rewrite Hb, (accepts_of_keeps s b Hb). cbn [bind].
    destruct b; cbn [negb]; rewrite IH, <- app_assoc; reflexivity.
Qed.

Lemma filter_loop_raises (data f r : list pyvalue) (e : exn) :
  filter_loop rt data f r = Raise e ->
  exists before sample after,
    data = before ++ sample :: after /\
    Forall (test_returns rt) before /\
    keeps rt sample = Raise e.
Proof.
  revert f r. induction data as [| s data IH]; intros f r; [discriminate |].
  cbn [filter_loop]. destruct (keeps rt s) as [b | e0] eqn:Hs; cbn [bind].
  - intros H.
    assert (H' : exists before sample after,
               data = before ++ sample :: after /\
               Forall (test_returns rt) before /\ keeps rt sample = Raise e).
    { destruct b; apply IH in H; exact H. }
    destruct H' as (before & sample & after & -> & Hb & Hk).
    exists (s :: before), sample, after. repeat split; auto.
    constructor; [exists b; exact Hs | exact Hb].
  - intros [= ->]. exists [], s, data. repeat split; auto.
Qed.

Lemma filter_samples_spec (data retained removed : list pyvalue) :
  filter_samples rt data = Ok (retained, removed) <->
  Forall (test_returns rt) data /\
  retained = filter (accepts rt) data /\
  removed = filter (fun s => negb (accepts rt s)) data.
Proof.
  split.
  - intros H.
    assert (Hall : Forall (test_returns rt) data).
    { apply filter_loop_ok in H.
      destruct H as (kept & gone & _ & _ & _ & _ & _ & _ & _ & Hall). exact Hall. }
    unfold filter_samples in H. rewrite (filter_loop_returns data [] [] Hall) in H.
    injection H as <- <-. auto.
  - intros (Hall & -> & ->). apply (filter_loop_returns data [] [] Hall).
Qed.

Lemma Forall_test_returns_filter (f : pyvalue -> bool) (data : list pyvalue) :
  Forall (test_returns rt) data -> Forall (test_returns rt) (filter f data).
Proof.
  rewrite !Forall_forall. intros H s Hs. apply filter_In in Hs. apply H, Hs.
Qed.

End FilterFacts.

Lemma filter_filter_same {A : Type} (f : A -> bool) (l : list A) :
  filter f (filter f l) = filter f l.
Proof.
  induction l as [| x l IH]; [reflexivity |]. simpl.
  destruct (f x) eqn:Hx; simpl; [rewrite Hx, IH |]; auto.
Qed.

Lemma filter_filter_negb {A : Type} (f : A -> bool) (l : list A) :
  filter f (filter (fun x => negb (f x)) l) = [] /\
  filter (fun x => negb (f x)) (filter f l) = [].
Proof.
  induction l as [| x l [IH1 IH2]]; [auto |]. simpl.
  destruct (f x) eqn:Hx; simpl; rewrite ?Hx; simpl; auto.
Qed.

Lemma Permutation_filter_same {A : Type} (f : A -> bool) (l l' : list A) :
  Permutation l l' -> Permutation (filter f l) (filter f l').
Proof.
  induction 1 as [| x l l' _ IH | x y l | l l' l'' _ IH1 _ IH2]; simpl.
  - constructor.
  - destruct (f x); auto.
  - destruct (f x), (f y); auto. apply perm_swap.
  - eapply perm_trans; eauto.
Qed.

(** X1.  [filter_samples] returns exactly when the test raises on no
    sample, and it then returns the samples the test accepts and the
    samples it rejects, each list in input order. *)
Theorem filter_samples_returns_iff (rt : runtime)
        (data retained removed : list pyvalue) :
  filter_samples rt data = Ok (retained, removed) <->
  Forall (test_returns rt) data /\
  retained = filter (accepts rt) data /\
  removed = filter (fun s => negb (accepts rt s)) data.
Proof. apply filter_samples_spec. Qed.

Lemma filter_samples_returns_iff_witness :
  let a := sample_of (jstr "{'a': 1}") in
  let b := sample_of (jstr "{'a': 0}") in
  filter_samples ascii_runtime [b; a; b] = Ok ([a], [b; b]).
Proof.
  intros a b. apply (filter_samples_returns_iff ascii_runtime).
  split; [| split; vm_compute; reflexivity].
  repeat constructor; eexists; vm_compute; reflexivity.
Defined.

(** X2.  [filter_samples] raises [e] exactly when the test raises [e] on
    some sample and returns on all the samples before it: the first sample
    that fails decides the exception, and the samples after it are never
    looked at. *)
Theorem filter_samples_raises_iff (rt : runtime) (data : list pyvalue) (e : exn) :
  filter_samples rt data = Raise e <->
  exists before sample after,
    data = before ++ sample :: after /\
    Forall (test_returns rt) before /\
    keeps rt sample = Raise e.
Proof.
  split.
  - apply filter_loop_raises.
  - intros (before & sample & after & -> & Hb & Hk).
    apply filter_loop_first_raise; assumption.
Qed.

Lemma filter_samples_raises_iff_witness :
  filter_samples ascii_runtime
    [sample_of (jstr "{'a': 1}"); sample_of (jstr "{'a': 'up'}"); PyDict []]
  = Raise ValueError.
Proof.
  apply (filter_samples_raises_iff ascii_runtime).
  exists [sample_of (jstr "{'a': 1}")], (sample_of (jstr "{'a': 'up'}")), [PyDict []].
  split; [reflexivity | split].
  - repeat constructor. exists true. vm_compute. reflexivity.
  - vm_compute. reflexivity.
Defined.

(** X3.  Filtering two lists put end to end gives the two results put end
    to end: merging files before filtering, or filtering each and merging,
    is the same. *)
Theorem filter_samples_app (rt : runtime) (d1 d2 r1 m1 r2 m2 : list pyvalue) :
  filter_samples rt d1 = Ok (r1, m1) ->
  filter_samples rt d2 = Ok (r2, m2) ->
  filter_samples rt (d1 ++ d2) = Ok (r1 ++ r2, m1 ++ m2).
Proof.
  intros H1 H2.
  apply filter_samples_spec in H1. destruct H1 as (Ha1 & -> & ->).
  apply filter_samples_spec in H2. destruct H2 as (Ha2 & -> & ->).
  apply filter_samples_spec. rewrite !filter_app. repeat split.
  apply Forall_app. auto.
Qed.

Lemma filter_samples_app_witness :
  let a := sample_of (jstr "{'a': 1}") in
  let b := sample_of (ustr "none") in
  filter_samples ascii_runtime ([a; b] ++ [b; a]) = Ok ([a] ++ [a], [b] ++ [b]).
Proof.
  intros a b.
  apply (filter_samples_app ascii_runtime [a; b] [b; a] [a] [b] [a] [b]);
    vm_compute; reflexivity.
Defined.

(** X4.  Filtering is idempotent: the retained list, filtered again, is
    retained whole, and the removed list is removed whole. *)
Theorem filter_samples_idempotent (rt : runtime)
        (data retained removed : list pyvalue) :
  filter_samples rt data = Ok (retained, removed) ->
  filter_samples rt retained = Ok (retained, []) /\
  filter_samples rt removed = Ok ([], removed).
Proof.
  intros H. apply filter_samples_spec in H. destruct H as (Hall & -> & ->).
  split; apply filter_samples_spec.
  - split; [apply Forall_test_returns_filter, Hall |].
    rewrite filter_filter_same.
    split; [reflexivity | symmetry; apply filter_filter_negb].
  - split; [apply Forall_test_returns_filter, Hall |].
    split; [symmetry; apply filter_filter_negb |].
    symmetry. apply (filter_filter_same (fun s => negb (accepts rt s))).
Qed.

Lemma filter_samples_idempotent_witness :
  let a := sample_of (jstr "{'a': 1}") in
  let b := sample_of (ustr "none") in
  filter_samples ascii_runtime [a] = Ok ([a], []) /\
  filter_samples ascii_runtime [b; b] = Ok ([], [b; b]).
Proof.
  intros a b.
  apply (filter_samples_idempotent ascii_runtime [b; a; b] [a] [b; b]).
  vm_compute. reflexivity.
Defined.

(** X5.  The order of the input matters only for the order of the output:
    on a rearranged input that filters without error, [filter_samples]
    returns rearrangements of the same two lists, and it does not raise. *)
Theorem filter_samples_permutation (rt : runtime)
        (data data' retained removed : list pyvalue) :
  filter_samples rt data = Ok (retained, removed) ->
  Permutation data data' ->
  exists retained' removed',
    filter_samples rt data' = Ok (retained', removed') /\
    Permutation retained retained' /\
    Permutation removed removed'.
Proof.
  intros H Hp. apply filter_samples_spec in H. destruct H as (Hall & -> & ->).
  exists (filter (accepts rt) data'), (filter (fun s => negb (accepts rt s)) data').
  split; [| split; apply Permutation_filter_same, Hp].
  apply filter_samples_spec. repeat split.
  eapply Permutation_Forall; eauto.
Qed.

Lemma filter_samples_permutation_witness :
  let a := sample_of (jstr "{'a': 1}") in
  let b := sample_of (ustr "none") in
  exists retained' removed',
    filter_samples ascii_runtime [b; a] = Ok (retained', removed') /\
    Permutation [a] retained' /\
    Permutation [b] removed'.
Proof.
  intros a b.
  apply (filter_samples_permutation ascii_runtime [a; b] [b; a] [a] [b]).
  - vm_compute. reflexivity.
  - apply perm_swap.
Defined.

(** X6.  Nothing is lost or duplicated: the two lists returned have,
    together, as many samples as the input. *)
Theorem filter_samples_count (rt : runtime) (data retained removed : list pyvalue) :
  filter_samples rt data = Ok (retained, removed) ->
  (length retained + length removed = length data)%nat.
Proof.
  intros H. apply filter_loop_ok in H.
  destruct H as (kept & gone & -> & -> & _ & _ & Hp & _).
  simpl. rewrite <- (Permutation_length Hp), length_app. reflexivity.
Qed.

Lemma filter_samples_count_witness :
  let a := sample_of (jstr "{'a': 1}") in
  let b := sample_of (ustr "none") in
  (length [a] + length [b; b] = length [b; a; b])%nat.
Proof.
  intros a b.
  apply (filter_samples_count ascii_runtime [b; a; b] [a] [b; b]).
  vm_compute. reflexivity.
Defined.

(** ** Samples and values of the wrong type *)

Lemma keeps_raise_everywhere (rt : runtime) (data : list pyvalue)
      (sample : pyvalue) (e : exn) :
  In sample data -> keeps rt sample = Raise e ->
  exists e', filter_samples rt data = Raise e'.
Proof.
  intros Hin Hk. apply (filter_loop_raise rt data [] [] sample e Hin Hk).
Qed.

(** X7.  A sample that is not a JSON object, or whose ['response'] is not
    a string (a number, [null], a list, an object), makes the test raise
    [TypeError], and [filter_samples] raises on any input that has one. *)
Theorem filter_samples_type_errors (rt : runtime)
        (data : list pyvalue) (sample : pyvalue) :
  In sample data ->
  (forall d, sample <> PyDict d) \/
  (exists d r, sample = PyDict d /\
               dict_get d (ustr "response") = Some r /\
               forall s, r <> PyStr s) ->
  keeps rt sample = Raise TypeError /\
  exists e, filter_samples rt data = Raise e.
Proof.
  intros Hin H.
  assert (Hk : keeps rt sample = Raise TypeError).
  { destruct H as [H | (d & r & -> & Hd & Hr)].
    - destruct sample; try reflexivity. exfalso. eapply H. reflexivity.
    - unfold keeps, getitem. rewrite Hd. cbn [bind].
      destruct r; try reflexivity. exfalso. eapply Hr. reflexivity. }
  split; [exact Hk | apply (keeps_raise_everywhere rt data sample _ Hin Hk)].
Qed.

Lemma filter_samples_type_errors_witness :
  (keeps ascii_runtime (PyStr (ustr "response")) = Raise TypeError /\
   exists e, filter_samples ascii_runtime
               [sample_of (jstr "{'a': 1}"); PyStr (ustr "response")] = Raise e) /\
  (keeps ascii_runtime (PyDict [(ustr "response", PyNone)]) = Raise TypeError /\
   exists e, filter_samples ascii_runtime
               [PyDict [(ustr "response", PyNone)]] = Raise e).
Proof.
  split.
  - apply (filter_samples_type_errors ascii_runtime).
    + right. left. reflexivity.
    + left. intros d. discriminate.
  - apply (filter_samples_type_errors ascii_runtime).
    + left. reflexivity.
    + right. exists [(ustr "response", PyNone)], PyNone.
      repeat split. intros s. discriminate.
Defined.

Lemma py_int_bad_head (rt : runtime) (c : char) (rest : str) :
  c = 84 \/ c = 70 \/ c = 91 \/ c = 123 ->
  py_int rt (c :: rest) = Raise ValueError.
Proof.
  intros H. unfold py_int. cbn [ascii_forms].
  assert (Hc : ascii_form rt c = Some c).
  { destruct H as [-> | [-> | [-> | ->]]]; reflexivity. }
  rewrite Hc. destruct (ascii_forms rt rest) as [r |]; [| reflexivity].
  destruct H as [-> | [-> | [-> | ->]]]; reflexivity.
Qed.

Lemma py_str_bool_or_container (rt : runtime) (v : pyvalue) :
  is_bool_or_container v = true ->
  exists c rest,
    py_str rt v = c :: rest /\ (c = 84 \/ c = 70 \/ c = 91 \/ c = 123).
Proof.
  destruct v as [| [|] | | | | l | d]; try discriminate; intros _;
    eexists; eexists; (split; [reflexivity | tauto]).
Qed.

(** X8.  A feature value that is a JSON [true] or [false], an array or an
    object is never read as a number: its string form is not an integer
    literal, so when it is reached (every value before it reads as zero)
    the test raises [ValueError] and so does [filter_samples]. *)
Theorem boolean_or_nested_feature_raises (rt : runtime)
        (data : list pyvalue) (sample : pyvalue) (s : str) (m : re_match)
        (before after : dict) (k : str) (v : pyvalue) :
  In sample data ->
  getitem sample (ustr "response") = Ok (PyStr s) ->
  re_search s = Some m ->
  json_loads (group m) = Ok (PyDict (before ++ (k, v) :: after)) ->
  Forall (fun feature => py_int rt (snd feature) = Ok 0%Z) (stringify rt before) ->
  is_bool_or_container v = true ->
  keeps rt sample = Raise ValueError /\
  exists e, filter_samples rt data = Raise e.
Proof.
  intros Hin Hg Hs Hl Hb Hv.
  assert (Hp : parse_response rt (PyStr s)
               = Ok (Some (stringify rt before ++ (k, py_str rt v) :: stringify rt after))).
  { unfold parse_response. rewrite Hs, Hl. unfold stringify.
    rewrite map_app. cbn [map fst snd]. destruct v; try discriminate; reflexivity. }
  assert (Hk : keeps rt sample = Raise ValueError).
  { rewrite (keeps_unfold rt _ _ _ Hg Hp).
    unfold dict_values. rewrite map_app. cbn [map snd].
    apply any_nonzero_raise; [apply Forall_map, Hb |].
    destruct (py_str_bool_or_container rt v Hv) as (c & rest & -> & Hc).
    apply py_int_bad_head, Hc. }
  split; [exact Hk | apply (keeps_raise_everywhere rt data sample _ Hin Hk)].
Qed.

Lemma boolean_or_nested_feature_raises_witness :
  let text := jstr "{'relevance': 0, 'sentiment': true, 'trend': 1}" in
  keeps ascii_runtime (sample_of text) = Raise ValueError /\
  exists e, filter_samples ascii_runtime [sample_of text] = Raise e.
Proof.
  intros text.
  apply (boolean_or_nested_feature_raises ascii_runtime [sample_of text]
           (sample_of text) text {| m_start := 0; group := text |}
           [(ustr "relevance", PyInt 0)] [(ustr "trend", PyInt 1)]
           (ustr "sentiment") (PyBool true)).
  - left. reflexivity.
  - reflexivity.
  - vm_compute. reflexivity.
  - vm_compute. reflexivity.
  - repeat constructor.
  - reflexivity.
Defined.

(** ** [load_json_files] as a whole *)

Lemma extend_iterated (data : list pyvalue) (v : pyvalue) :
  extend data v =
  match iterated v with
  | Some items => Ok (data ++ items)
  | None => Raise TypeError
  end.
Proof. destruct v; reflexivity. Qed.

Lemma load_loop_cons (name : str) (f : file) (rest : directory) (data : list pyvalue) :
  load_loop ((name, f) :: rest) data =
  if is_json_name (name, f)
  then items <- entry_items (name, f) ;; load_loop rest (data ++ items)
  else load_loop rest data.
Proof.
  cbn [load_loop]. unfold is_json_name, entry_items. cbn [fst snd].
  destruct (endswith name (ustr ".json")); [| reflexivity].
  destruct (read_file f) as [content | e]; [| reflexivity]. cbn [bind].
  destruct (json_loads content) as [loaded | e]; [| reflexivity]. cbn [bind].
  rewrite extend_iterated. destruct (iterated loaded); reflexivity.
Qed.

(** The list built so far is only added to. *)
Lemma load_loop_acc (entries : directory) (data : list pyvalue) :
  load_loop entries data = (l <- load_loop entries [] ;; Ok (data ++ l)).
Proof.
  revert data. induction entries as [| [name f] rest IH]; intros data.
  - simpl. now rewrite app_nil_r.
  - rewrite !load_loop_cons. destruct (is_json_name (name, f)); [| apply IH].
    destruct (entry_items (name, f)) as [items | e]; [| reflexivity].
    cbn [bind app]. rewrite (IH (data ++ items)), (IH items).
    destruct (load_loop rest []) as [l | e]; [| reflexivity].
    cbn [bind]. now rewrite app_assoc.
Qed.

Lemma load_loop_app (d1 d2 : directory) (data : list pyvalue) :
  load_loop (d1 ++ d2) data = (data' <- load_loop d1 data ;; load_loop d2 data').
Proof.
  revert data. induction d1 as [| [name f] rest IH]; intros data; [reflexivity |].
  cbn [app]. rewrite !load_loop_cons.
  destruct (is_json_name (name, f)); [| apply IH].
  destruct (entry_items (name, f)) as [items | e]; [| reflexivity].
  cbn [bind]. apply IH.
Qed.

(** X9.  Loading two listings put end to end loads the first, then the
    second, and puts the samples end to end; an exception of the first
    hides the second. *)
Theorem load_json_files_app (d1 d2 : directory) :
  load_json_files (d1 ++ d2) =
  (l1 <- load_json_files d1 ;; l2 <- load_json_files d2 ;; Ok (l1 ++ l2)).
Proof.
  unfold load_json_files. rewrite load_loop_app.
  destruct (load_loop d1 []) as [l1 | e]; [| reflexivity].
  cbn [bind]. apply load_loop_acc.
Qed.

Lemma load_loop_items (entries : directory) (l : list pyvalue) :
  load_loop entries [] = Ok l <->
  exists parts,
    Forall2 (fun entry items => entry_items entry = Ok items)
            (filter is_json_name entries) parts /\
    l = concat parts.
Proof.
  revert l. induction entries as [| [name f] rest IH]; intros l.
  - simpl. split.
    + intros [= <-]. exists []. split; [constructor | reflexivity].
    + intros (parts & H & ->). inversion H. reflexivity.
  - rewrite load_loop_cons. cbn [filter].
    destruct (is_json_name (name, f)); [| apply IH].
    destruct (entry_items (name, f)) as [items | e] eqn:He; cbn [bind app].
    + rewrite load_loop_acc. split.
      * intros H. apply bind_ok in H. destruct H as (l' & Hl' & [= <-]).
        apply IH in Hl'. destruct Hl' as (parts & Hp & ->).
        exists (items :: parts). split; [constructor; assumption | reflexivity].
      * intros (parts & Hp & ->). inversion Hp as [| ? items' ? parts' Hi Hp']; subst.
        rewrite He in Hi. injection Hi as <-.
        assert (Hr : load_loop rest [] = Ok (concat parts'))
          by (apply IH; exists parts'; auto).
        rewrite Hr. reflexivity.
    + split; [discriminate |].
      intros (parts & Hp & _). inversion Hp; subst. congruence.
Qed.

Lemma entry_items_ok (entry : str * file) (items : list pyvalue) :
  entry_items entry = Ok items <-> holds_items entry items.
Proof.
  unfold entry_items, holds_items. destruct entry as [name f]. cbn [snd]. split.
  - intros H. apply bind_ok in H. destruct H as (content & Hr & H).
    apply bind_ok in H. destruct H as (v & Hv & H).
    destruct f as [c | e]; [| discriminate]. injection Hr as ->.
    exists content, v. destruct (iterated v); [| discriminate].
    injection H as ->. auto.
  - intros (content & v & -> & Hv & Hi). cbn [read_file bind].
    rewrite Hv. cbn [bind]. now rewrite Hi.
Qed.

(** X10.  [load_json_files] returns exactly when every entry named
    [*.json] is a readable file whose text decodes to a list, an object or
    a string; what it returns is, entry after entry in listing order, the
    elements of the list, the keys of the object or the characters of the
    string. *)
Theorem load_json_files_returns_iff (dir : directory) (l : list pyvalue) :
  load_json_files dir = Ok l <->
  exists parts,
    Forall2 holds_items (filter is_json_name dir) parts /\ l = concat parts.
Proof.
  unfold load_json_files. rewrite load_loop_items.
  split; intros (parts & H & ->); exists parts; (split; [| reflexivity]).
  - eapply Forall2_impl; [| exact H]. intros a b. apply entry_items_ok.
  - eapply Forall2_impl; [| exact H]. intros a b. apply entry_items_ok.
Qed.

Lemma load_json_files_returns_iff_witness :
  load_json_files
    [(ustr "list.json", Text (jstr "[1, 2]"));
     (ustr "readme.md", Unreadable OSError);
     (ustr "object.json", Text (jstr "{'k': 1, 'j': 2}"));
     (ustr "text.json", Text (jstr "'ab'"))]
  = Ok [PyInt 1; PyInt 2; PyStr (ustr "k"); PyStr (ustr "j");
        PyStr (ustr "a"); PyStr (ustr "b")].
Proof.
  apply load_json_files_returns_iff.
  exists [[PyInt 1; PyInt 2]; [PyStr (ustr "k"); PyStr (ustr "j")];
          [PyStr (ustr "a"); PyStr (ustr "b")]].
  split; [| reflexivity].
  repeat constructor; eexists; eexists;
    (split; [reflexivity | split; vm_compute; reflexivity]).
Defined.

(** X11.  [load_json_files] raises [e] exactly when some entry named
    [*.json] fails with [e] (the file cannot be read, its text does not
    decode, or it decodes to a number, a boolean or [null], which cannot
    be iterated over: [TypeError]) and the entries before it load. *)
Theorem load_json_files_raises_iff (dir : directory) (e : exn) :
  load_json_files dir = Raise e <->
  exists before entry after loaded,
    dir = before ++ entry :: after /\
    load_json_files before = Ok loaded /\
    is_json_name entry = true /\
    entry_items entry = Raise e.
Proof.
  unfold load_json_files. split.
  - induction dir as [| [name f] rest IH]; [discriminate |].
    rewrite load_loop_cons. destruct (is_json_name (name, f)) eqn:Hn.
    + destruct (entry_items (name, f)) as [items | e0] eqn:He; cbn [bind app].
      * rewrite load_loop_acc.
        destruct (load_loop rest []) as [l | e1] eqn:Hr; [discriminate |].
        intros [= ->].
        destruct (IH eq_refl) as (before & entry & after & loaded & -> & Hb & Hj & Hi).
        exists ((name, f) :: before), entry, after, (items ++ loaded).
        repeat split; auto.
        rewrite load_loop_cons, Hn, He. cbn [bind app].
        rewrite load_loop_acc, Hb. reflexivity.
      * intros [= ->]. exists [], (name, f), rest, []. repeat split; auto.
    + intros H.
      destruct (IH H) as (before & entry & after & loaded & -> & Hb & Hj & Hi).
      exists ((name, f) :: before), entry, after, loaded.
      repeat split; auto.
      rewrite load_loop_cons, Hn. exact Hb.
  - intros (before & [name f] & after & loaded & -> & Hb & Hj & Hi).
    rewrite load_loop_app, Hb. cbn [bind].
    rewrite load_loop_cons, Hj, Hi. reflexivity.
Qed.

Lemma load_json_files_raises_iff_witness :
  load_json_files
    [(ustr "a.json", Text (jstr "[1]")); (ustr "b.json", Text (jstr "42"));
     (ustr "c.json", Text (jstr "[2"))]
  = Raise TypeError.
Proof.
  apply load_json_files_raises_iff.
  exists [(ustr "a.json", Text (jstr "[1]"))], (ustr "b.json", Text (jstr "42")),
         [(ustr "c.json", Text (jstr "[2"))], [PyInt 1].
  repeat split; vm_compute; reflexivity.
Defined.




(** X13.  With no entry named [*.json] in the directory (an empty
    directory, or one with other files only, readable or not) nothing is
    opened: the total printed is 0 and the saved file is the empty
    array. *)
Theorem run_cells_without_json_files (rt : runtime) (dir : directory) :
  Forall (fun entry => is_json_name entry = false) dir ->
  load_json_files dir = Ok [] /\
  run_cells rt dir = Ok {| total_printed := 0; merged_data_json := ustr "[]" |}.
Proof.
  intros H.
  assert (Hl : load_json_files dir = Ok []).
  { unfold load_json_files. induction H as [| [name f] rest Hn _ IH]; [reflexivity |].
    rewrite load_loop_cons, Hn. exact IH. }
  split; [exact Hl |]. unfold run_cells. rewrite Hl. reflexivity.
Qed.

Lemma run_cells_without_json_files_witness :
  run_cells ascii_runtime
    [(ustr "notes.txt", Text (ustr "[1, 2]")); (ustr "data.JSON", Unreadable OSError)]
  = Ok {| total_printed := 0; merged_data_json := ustr "[]" |}.
Proof.
  apply (run_cells_without_json_files ascii_runtime).
  repeat constructor.
Defined.

(** ** The saved file read back *)

(** *** Integers as text *)

Lemma uint_digits_are_digits (u : Decimal.uint) :
  Forall (fun c => isdigit c = true) (uint_digits u).
Proof.
  induction u; simpl; constructor; auto.
Qed.

Lemma digits_value_acc (u : Decimal.uint) (acc : positive) :
  fold_left (fun a d => (a * 10 + Z.of_N (d - 48))%Z) (uint_digits u) (Zpos acc)
  = Zpos (Pos.of_uint_acc u acc).
Proof.
  revert acc. induction u; intros acc; cbn [uint_digits fold_left Pos.of_uint_acc];
    [reflexivity | ..]; rewrite <- IHu; f_equal; lia.
Qed.

Lemma digits_value_uint (u : Decimal.uint) :
  digits_value (uint_digits u) = Z.of_N (Pos.of_uint u).
Proof.
  unfold digits_value.
  induction u; cbn [uint_digits fold_left Pos.of_uint]; [reflexivity | ..];
    try (cbn [Z.of_N]; rewrite <- digits_value_acc; reflexivity).
  exact IHu.
Qed.

Lemma digits_value_pos (p : positive) :
  digits_value (uint_digits (Pos.to_uint p)) = Zpos p.
Proof.
  rewrite digits_value_uint, DecimalPos.Unsigned.of_to. reflexivity.
Qed.

(** The decimal text of a positive number starts with a digit that is not
    zero. *)
Lemma uint_digits_pos_head (p : positive) :
  exists d ds,
    uint_digits (Pos.to_uint p) = d :: ds /\
    isdigit d = true /\ d <> 48.
Proof.
  assert (Hn : Decimal.unorm (Pos.to_uint p) = Pos.to_uint p).
  { pose proof (DecimalPos.Unsigned.to_of (Pos.to_uint p)) as H.
    rewrite DecimalPos.Unsigned.of_to in H. symmetry. exact H. }
  pose proof (DecimalPos.Unsigned.to_uint_nonzero p) as Hz.
  destruct (Pos.to_uint p) as [| u | u | u | u | u | u | u | u | u | u];
    try (eexists; eexists; split; [reflexivity | split; [reflexivity | discriminate]]).
  - discriminate.
  - exfalso.
    assert (Hh : forall w v, Decimal.nzhead w <> Decimal.D0 v).
    { intros w v. induction w; cbn [Decimal.nzhead]; try discriminate. exact IHw. }
    unfold Decimal.unorm in Hn. cbn [Decimal.nzhead] in Hn.
    destruct (Decimal.nzhead u) eqn:Hu; try discriminate.
    + injection Hn as <-. apply Hz. reflexivity.
    + apply (Hh u u0). exact Hu.
Qed.

Lemma isdigit_cases (d : char) :
  isdigit d = true ->
  d = 48 \/ d = 49 \/ d = 50 \/ d = 51 \/ d = 52 \/
  d = 53 \/ d = 54 \/ d = 55 \/ d = 56 \/ d = 57.
Proof.
  unfold isdigit. rewrite andb_true_iff, !N.leb_le. lia.
Qed.

(** Runs a closed-form check for each of the ten digits. *)
Ltac each_digit H :=
  apply isdigit_cases in H;
  repeat (destruct H as [-> | H]; [reflexivity |]);
  subst; reflexivity.

Lemma lex_idle_digit (d : char) (rest : str) :
  isdigit d = true -> lex LIdle (d :: rest) = lex (LInt [d]) rest.
Proof. intros H. each_digit H. Qed.

Lemma lex_idle_minus_digit (d : char) (rest : str) :
  isdigit d = true -> lex LIdle (45 :: d :: rest) = lex (LInt [d; 45]) rest.
Proof. intros H. each_digit H. Qed.

Lemma json_int_digits (d : char) (ds : str) :
  isdigit d = true ->
  json_int (d :: ds) =
  if (int_max_str_digits <? length (d :: ds))%nat then Raise ValueError
  else Ok (digits_value (d :: ds)).
Proof. intros H. each_digit H. Qed.

Ltac crack H :=
  repeat first
    [ reflexivity
    | discriminate H
    | match type of H with
      | context [match ?x with _ => _ end] =>
          is_var x; destruct x; cbv beta iota in H
      end ].

Lemma leading_zero_true (acc : str) :
  leading_zero acc = true -> acc = [48] \/ acc = [48; 45].
Proof.
  unfold leading_zero. intros H.
  repeat first
    [ discriminate H
    | (left; reflexivity)
    | (right; reflexivity)
    | match type of H with
      | context [match ?x with _ => _ end] =>
          is_var x; destruct x; cbv beta iota in H
      end ].
Qed.

Lemma lex_int_step (acc : str) (c : char) (rest : str) :
  isdigit c = true ->
  leading_zero acc = false ->
  lex (LInt acc) (c :: rest) = lex (LInt (c :: acc)) rest.
Proof.
  intros H1 H2. cbn [lex]. rewrite H1. unfold leading_zero in H2. crack H2.
Qed.

Lemma lex_int_end (acc : str) (rest : str) :
  ends_value rest ->
  lex (LInt acc) rest = TInt (rev acc) :: lex LIdle rest.
Proof.
  destruct rest as [| c rest]; [reflexivity |].
  intros [-> | ->]; reflexivity.
Qed.

Lemma lex_digits (ds : str) :
  Forall (fun c => isdigit c = true) ds ->
  forall acc rest,
    (forall more, leading_zero (more ++ acc) = false) ->
    ends_value rest ->
    lex (LInt acc) (ds ++ rest) = TInt (rev acc ++ ds) :: lex LIdle rest.
Proof.
  induction 1 as [| d ds Hd _ IH]; intros acc rest Hz He.
  - rewrite app_nil_r. apply lex_int_end, He.
  - cbn [app]. rewrite (lex_int_step acc d _ Hd (Hz [])).
    rewrite IH; auto.
    + cbn [rev]. now rewrite <- app_assoc.
    + intros more. specialize (Hz (more ++ [d])).
      now rewrite <- app_assoc in Hz.
Qed.

Lemma leading_zero_after (d : char) (more : str) :
  isdigit d = true -> d <> 48 ->
  leading_zero (more ++ [d]) = false /\ leading_zero (more ++ [d; 45]) = false.
Proof.
  intros Hd Hz.
  assert (H45 : d <> 45) by (intros ->; discriminate).
  split.
  - destruct (leading_zero (more ++ [d])) eqn:E; [| reflexivity].
    apply leading_zero_true in E.
    destruct more as [| a [| b [| c m]]]; cbn [app] in E;
      destruct E as [E | E]; try discriminate E; injection E; intros; subst;
      congruence.
  - destruct (leading_zero (more ++ [d; 45])) eqn:E; [| reflexivity].
    apply leading_zero_true in E.
    destruct more as [| a [| b [| c m]]]; cbn [app] in E;
      destruct E as [E | E]; try discriminate E; injection E; intros; subst;
      congruence.
Qed.

(** The lexer reads the decimal text of an integer as one token. *)
Lemma lex_int (z : Z) (rest : str) :
  ends_value rest ->
  lex LIdle (int_str z ++ rest) = TInt (int_str z) :: lex LIdle rest.
Proof.
  intros He. destruct z as [| p | p]; cbn [int_str].
  - change (lex LIdle ([48] ++ rest)) with (lex (LInt [48]) rest).
    apply (lex_int_end [48] rest He).
  - destruct (uint_digits_pos_head p) as (d & ds & Heq & Hd & Hz).
    pose proof (uint_digits_are_digits (Pos.to_uint p)) as Hall.
    rewrite Heq in *. inversion Hall as [| ? ? _ Hds]; subst.
    cbn [app]. rewrite (lex_idle_digit d _ Hd).
    rewrite (lex_digits ds Hds [d] rest); auto.
    intros more. apply (leading_zero_after d more Hd Hz).
  - destruct (uint_digits_pos_head p) as (d & ds & Heq & Hd & Hz).
    pose proof (uint_digits_are_digits (Pos.to_uint p)) as Hall.
    rewrite Heq in *. inversion Hall as [| ? ? _ Hds]; subst.
    cbn [app]. rewrite (lex_idle_minus_digit d _ Hd).
    rewrite (lex_digits ds Hds [d; 45] rest); auto.
    intros more. apply (leading_zero_after d more Hd Hz).
Qed.

(** The default [parse_int] gives the integer back. *)
Lemma json_int_int_str (z : Z) :
  fits_int z = true -> json_int (int_str z) = Ok z.
Proof.
  unfold fits_int. intros Hf. apply Nat.leb_le in Hf.
  destruct z as [| p | p]; cbn [int_str Z.abs] in *.
  - reflexivity.
  - destruct (uint_digits_pos_head p) as (d & ds & Heq & Hd & _).
    pose proof (digits_value_pos p) as Hv.
    rewrite Heq in *. rewrite (json_int_digits d ds Hd).
    destruct (int_max_str_digits <? length (d :: ds))%nat eqn:E.
    + apply Nat.ltb_lt in E. lia.
    + now rewrite Hv.
  - unfold json_int.
    destruct (int_max_str_digits <? length (uint_digits (Pos.to_uint p)))%nat eqn:E.
    + apply Nat.ltb_lt in E. lia.
    + now rewrite digits_value_pos.
Qed.

(** *** Text *)

Lemma hex_value_digit (d : N) : d < 16 -> hex_value (hex_digit d) = Some d.
Proof.
  intros H.
  assert (Hc : d = 0 \/ d = 1 \/ d = 2 \/ d = 3 \/ d = 4 \/ d = 5 \/ d = 6 \/ d = 7 \/
               d = 8 \/ d = 9 \/ d = 10 \/ d = 11 \/ d = 12 \/ d = 13 \/ d = 14 \/
               d = 15) by lia.
  repeat (destruct Hc as [-> | Hc]; [reflexivity |]). subst. reflexivity.
Qed.

Lemma hex4_fixed (c : N) :
  c < 65536 ->
  exists h1 h2 h3 h4,
    hex_fixed 4 c = [h1; h2; h3; h4] /\ hex4 h1 h2 h3 h4 = Some c.
Proof.
  intros Hc. cbn [hex_fixed app].
  do 4 eexists. split; [reflexivity |].
  unfold hex4.
  rewrite !hex_value_digit by (apply N.mod_lt; discriminate).
  f_equal.
  pose proof (N.div_mod c 16 ltac:(discriminate)) as H1.
  pose proof (N.div_mod (c / 16) 16 ltac:(discriminate)) as H2.
  pose proof (N.div_mod (c / 16 / 16) 16 ltac:(discriminate)) as H3.
  assert (H4 : c / 16 / 16 / 16 < 16).
  { rewrite !N.Div0.div_div. apply N.Div0.div_lt_upper_bound. exact Hc. }
  rewrite (N.mod_small (c / 16 / 16 / 16) 16 H4).
  pose proof (N.mod_lt c 16 ltac:(discriminate)).
  pose proof (N.mod_lt (c / 16) 16 ltac:(discriminate)).
  pose proof (N.mod_lt (c / 16 / 16) 16 ltac:(discriminate)).
  lia.
Qed.

Lemma lex_string_step (acc : str) (c : char) (rest : str) :
  (c =? 34) = false -> (c =? 92) = false -> (c <? 32) = false ->
  lex (LString acc) (c :: rest) = lex (LString (c :: acc)) rest.
Proof.
  intros H1 H2 H3. cbn [lex]. rewrite H1, H2, H3. reflexivity.
Qed.

(** One step of the lexer on a [\u] escape inside a string. *)
Lemma lex_backslash_u (acc : str) (h1 h2 h3 h4 : char) (r : str) :
  lex (LString acc) (92 :: 117 :: h1 :: h2 :: h3 :: h4 :: r) =
  match hex4 h1 h2 h3 h4 with
  | None => [TBad]
  | Some u =>
      if is_high_surrogate u then
        match r with
        | 92 :: 117 :: l1 :: l2 :: l3 :: l4 :: r' =>
            match hex4 l1 l2 l3 l4 with
            | None => [TBad]
            | Some u2 =>
                if is_low_surrogate u2
                then lex (LString (join_surrogates u u2 :: acc)) r'
                else lex (LString (u :: acc)) r
            end
        | _ => lex (LString (u :: acc)) r
        end
      else lex (LString (u :: acc)) r
  end.
Proof. reflexivity. Qed.

Lemma lex_u_escape (acc : str) (h1 h2 h3 h4 : char) (u : N) (rest : str) :
  hex4 h1 h2 h3 h4 = Some u ->
  is_high_surrogate u = false ->
  lex (LString acc) (92 :: 117 :: h1 :: h2 :: h3 :: h4 :: rest)
  = lex (LString (u :: acc)) rest.
Proof.
  intros H1 H2. rewrite lex_backslash_u, H1, H2. reflexivity.
Qed.

Lemma lex_pair_escape (acc : str) (h1 h2 h3 h4 l1 l2 l3 l4 : char) (u u2 : N)
      (rest : str) :
  hex4 h1 h2 h3 h4 = Some u ->
  is_high_surrogate u = true ->
  hex4 l1 l2 l3 l4 = Some u2 ->
  is_low_surrogate u2 = true ->
  lex (LString acc)
      (92 :: 117 :: h1 :: h2 :: h3 :: h4 :: 92 :: 117 :: l1 :: l2 :: l3 :: l4 :: rest)
  = lex (LString (join_surrogates u u2 :: acc)) rest.
Proof.
  intros H1 H2 H3 H4. rewrite lex_backslash_u, H1, H2, H3, H4. reflexivity.
Qed.

Lemma surrogate_pair (c : N) :
  65536 <= c -> c < 1114112 ->
  let n := c - 65536 in
  let hi := 55296 + (n / 1024) mod 1024 in
  let lo := 56320 + n mod 1024 in
  hi < 65536 /\ lo < 65536 /\
  is_high_surrogate hi = true /\ is_low_surrogate lo = true /\
  join_surrogates hi lo = c.
Proof.
  intros H1 H2. cbv zeta.
  remember (c - 65536) as n eqn:En.
  assert (Hn : n < 1048576) by lia.
  assert (Hq : n / 1024 < 1024) by (apply N.Div0.div_lt_upper_bound; exact Hn).
  pose proof (N.mod_lt n 1024 ltac:(discriminate)) as Hr.
  pose proof (N.div_mod n 1024 ltac:(discriminate)) as Hd.
  rewrite (N.mod_small _ _ Hq).
  unfold is_high_surrogate, is_low_surrogate, join_surrogates.
  rewrite !andb_true_iff, !N.leb_le.
  generalize dependent (n / 1024). generalize dependent (n mod 1024).
  intros r Hr q Hq Hd. repeat split; lia.
Qed.

Lemma scalar_not_high (c : char) :
  scalar c = true -> c < 65536 -> is_high_surrogate c = false.
Proof.
  unfold scalar, is_high_surrogate. intros H Hc.
  apply orb_true_iff in H. rewrite andb_true_iff, N.ltb_lt, N.leb_le, N.ltb_lt in H.
  apply andb_false_iff. rewrite !N.leb_gt. lia.
Qed.

(** The lexer reads the escaped text of a string back, up to the closing
    quote. *)
Lemma lex_string_body (s : str) :
  forallb scalar s = true ->
  forall acc rest,
    lex (LString acc) (flat_map json_escape s ++ 34 :: rest)
    = TString (rev acc ++ s) :: lex LIdle rest.
Proof.
  induction s as [| c s IH]; intros Hs acc rest.
  - cbn [flat_map app]. rewrite app_nil_r. reflexivity.
  - cbn [forallb] in Hs. apply andb_true_iff in Hs. destruct Hs as [Hc Hs].
    assert (Hgoal : forall acc', acc' = c :: acc ->
              lex (LString acc') (flat_map json_escape s ++ 34 :: rest)
              = TString (rev acc ++ c :: s) :: lex LIdle rest).
    { intros acc' ->. rewrite (IH Hs). cbn [rev]. now rewrite <- app_assoc. }
    cbn [flat_map]. rewrite <- app_assoc. unfold json_escape at 1.
    destruct (c =? 34) eqn:E34; [apply N.eqb_eq in E34; subst c; now apply Hgoal |].
    destruct (c =? 92) eqn:E92; [apply N.eqb_eq in E92; subst c; now apply Hgoal |].
    destruct (c =? 10) eqn:E10; [apply N.eqb_eq in E10; subst c; now apply Hgoal |].
    destruct (c =? 13) eqn:E13; [apply N.eqb_eq in E13; subst c; now apply Hgoal |].
    destruct (c =? 9) eqn:E9; [apply N.eqb_eq in E9; subst c; now apply Hgoal |].
    destruct (c =? 8) eqn:E8; [apply N.eqb_eq in E8; subst c; now apply Hgoal |].
    destruct (c =? 12) eqn:E12; [apply N.eqb_eq in E12; subst c; now apply Hgoal |].
    destruct ((32 <=? c) && (c <=? 126)) eqn:Ep.
    + apply andb_true_iff in Ep. destruct Ep as [Ep _]. apply N.leb_le in Ep.
      cbn [app]. rewrite lex_string_step; auto.
      apply N.ltb_ge. exact Ep.
    + destruct (c <? 65536) eqn:El.
      * apply N.ltb_lt in El.
        destruct (hex4_fixed c El) as (h1 & h2 & h3 & h4 & -> & Hh).
        cbn [app]. rewrite (lex_u_escape acc h1 h2 h3 h4 c _ Hh).
        -- now apply Hgoal.
        -- now apply scalar_not_high.
      * apply N.ltb_ge in El.
        assert (Hu : c < 1114112).
        { unfold scalar in Hc. apply orb_true_iff in Hc.
          rewrite andb_true_iff, !N.ltb_lt in Hc. lia. }
        destruct (surrogate_pair c El Hu) as (Hhi & Hlo & Hh & Hl & Hj).
        cbv zeta.
        destruct (hex4_fixed _ Hhi) as (h1 & h2 & h3 & h4 & -> & Hh4).
        destruct (hex4_fixed _ Hlo) as (l1 & l2 & l3 & l4 & -> & Hl4).
        cbn [app].
        rewrite (lex_pair_escape acc _ _ _ _ _ _ _ _ _ _ _ Hh4 Hh Hl4 Hl).
        apply Hgoal. now rewrite Hj.
Qed.

Lemma lex_json_string (s : str) (rest : str) :
  forallb scalar s = true ->
  lex LIdle (json_string s ++ rest) = TString s :: lex LIdle rest.
Proof.
  intros Hs. unfold json_string. cbn [app].
  change (lex LIdle (34 :: ?t)) with (lex (LString []) t).
  rewrite <- app_assoc. cbn [app]. apply (lex_string_body s Hs [] rest).
Qed.

(** *** Values *)

Lemma pyvalue_induction (P : pyvalue -> Prop) :
  P PyNone ->
  (forall b, P (PyBool b)) ->
  (forall z, P (PyInt z)) ->
  (forall f, P (PyFloat f)) ->
  (forall s, P (PyStr s)) ->
  (forall l, Forall P l -> P (PyList l)) ->
  (forall d, Forall (fun kv => P (snd kv)) d -> P (PyDict d)) ->
  forall v, P v.
Proof.
  intros HN HB HI HF HS HL HD. fix IH 1.
  intros [| b | z | f | s | l | d];
    [exact HN | apply HB | apply HI | apply HF | apply HS | |].
  - apply HL. induction l as [| x l IHl]; constructor; [apply IH | exact IHl].
  - apply HD. induction d as [| [k x] d IHd]; constructor; [apply IH | exact IHd].
Qed.

Lemma lex_spaces (k : nat) (rest : str) :
  lex LIdle (repeat 32 k ++ rest) = lex LIdle rest.
Proof.
  induction k as [| k IH]; [reflexivity |]. cbn [repeat app].
  change (lex LIdle (32 :: ?t)) with (lex LIdle t). exact IH.
Qed.

Lemma lex_newline_indent (level : nat) (rest : str) :
  lex LIdle (newline_indent level ++ rest) = lex LIdle rest.
Proof.
  unfold newline_indent. cbn [app].
  change (lex LIdle (LF :: ?t)) with (lex LIdle t). apply lex_spaces.
Qed.

Lemma ends_value_newline (level : nat) (rest : str) :
  ends_value (newline_indent level ++ rest).
Proof. right. reflexivity. Qed.

Lemma lex_joined (n m : nat) (texts : list str) (tss : list (list token)) (tail : str) :
  Forall2 lexes_to texts tss ->
  texts <> [] ->
  lex LIdle (join_with (44 :: newline_indent n) texts ++ newline_indent m ++ tail)
  = join_tokens tss ++ lex LIdle tail.
Proof.
  induction 1 as [| text ts texts tss Hl Hrest IH]; intros Hne; [congruence |].
  destruct Hrest as [| text' ts' texts' tss' Hl' Hrest'].
  - cbn [join_with join_tokens].
    rewrite (Hl _ (ends_value_newline m tail)). now rewrite lex_newline_indent.
  - change (join_with (44 :: newline_indent n) (text :: text' :: texts'))
      with (text ++ (44 :: newline_indent n)
                 ++ join_with (44 :: newline_indent n) (text' :: texts')).
    change (join_tokens (ts :: ts' :: tss'))
      with (ts ++ TComma :: join_tokens (ts' :: tss')).
    rewrite <- !app_assoc. rewrite Hl by (left; reflexivity).
    f_equal. cbn [app].
    change (lex LIdle (44 :: ?t)) with (TComma :: lex LIdle t).
    f_equal. rewrite lex_newline_indent. apply IH. discriminate.
Qed.

Section LexDumps.

Context (rt : runtime).

Lemma dumps_list (level : nat) (x : pyvalue) (l : list pyvalue) :
  dumps rt level (PyList (x :: l))
  = 91 :: newline_indent (S level)
       ++ join_with (44 :: newline_indent (S level))
            (map (dumps rt (S level)) (x :: l))
       ++ newline_indent level ++ [93].
Proof. reflexivity. Qed.

Lemma dumps_dict (level : nat) (kv : str * pyvalue) (d : dict) :
  dumps rt level (PyDict (kv :: d))
  = 123 :: newline_indent (S level)
        ++ join_with (44 :: newline_indent (S level))
             (map (fun kv => json_string (fst kv) ++ [58; 32]
                                ++ dumps rt (S level) (snd kv))
                  (kv :: d))
        ++ newline_indent level ++ [125].
Proof. reflexivity. Qed.

(** The lexer reads the dumped text of a value as the tokens of the
    value. *)
Lemma lex_dumps (v : pyvalue) :
  reloadable v = true -> forall level, lexes_to (dumps rt level v) (tokens_of v).
Proof.
  induction v as [| b | z | f | s | l IHl | d IHd] using pyvalue_induction;
    intros Hv level rest He.
  - reflexivity.
  - destruct b; reflexivity.
  - apply lex_int, He.
  - destruct f; [discriminate | reflexivity ..].
  - apply lex_json_string, Hv.
  - destruct l as [| x l]; [reflexivity |].
    cbn [reloadable] in Hv. rewrite forallb_forall in Hv.
    rewrite dumps_list. cbn [tokens_of app].
    change (lex LIdle (91 :: ?t)) with (TLBracket :: lex LIdle t).
    f_equal. rewrite <- !app_assoc. rewrite lex_newline_indent.
    rewrite (lex_joined (S level) level _ (map tokens_of (x :: l))).
    + reflexivity.
    + clear He rest. induction IHl as [| y l' Hy _ IH]; cbn [map]; constructor.
      * apply Hy. apply Hv. now left.
      * apply IH. intros z Hz. apply Hv. now right.
    + discriminate.
  - destruct d as [| kv d]; [reflexivity |].
    cbn [reloadable] in Hv. apply andb_true_iff in Hv. destruct Hv as [_ Hv].
    rewrite forallb_forall in Hv.
    rewrite dumps_dict. cbn [tokens_of app].
    change (lex LIdle (123 :: ?t)) with (TLBrace :: lex LIdle t).
    f_equal. rewrite <- !app_assoc. rewrite lex_newline_indent.
    rewrite (lex_joined (S level) level _
               (map (fun kv => TString (fst kv) :: TColon :: tokens_of (snd kv)) (kv :: d))).
    + reflexivity.
    + clear He rest. induction IHd as [| y d' Hy _ IH]; cbn [map]; constructor.
      * intros rest He.
        assert (Hyv := Hv y (or_introl eq_refl)).
        apply andb_true_iff in Hyv. destruct Hyv as [Hk Hyv].
        rewrite <- !app_assoc. rewrite (lex_json_string _ _ Hk).
        cbn [app]. f_equal.
        change (lex LIdle (58 :: 32 :: ?t)) with (TColon :: lex LIdle t).
        f_equal. apply (Hy Hyv (S level) rest He).
      * apply IH. intros z Hz. apply Hv. now right.
    + discriminate.
Qed.

End LexDumps.

(** *** The automaton on the tokens of a value *)

Lemma str_eqb_eq (a b : str) : str_eqb a b = true <-> a = b.
Proof.
  revert b. induction a as [| x a IH]; intros [| y b]; cbn [str_eqb];
    try (split; [discriminate | discriminate]); [tauto |].
  rewrite andb_true_iff, N.eqb_eq, IH. split.
  - intros [-> ->]. reflexivity.
  - intros [= -> ->]. auto.
Qed.

Lemma keys_distinct_NoDup (ks : list str) :
  keys_distinct ks = true <-> NoDup ks.
Proof.
  induction ks as [| k ks IH]; cbn [keys_distinct].
  - split; [constructor | reflexivity].
  - rewrite andb_true_iff, negb_true_iff, IH. split.
    + intros [Hn Hd]. constructor; [| exact Hd].
      intros Hin. assert (Ht : existsb (str_eqb k) ks = true).
      { apply existsb_exists. exists k. split; [exact Hin | now apply str_eqb_eq]. }
      congruence.
    + intros H. inversion H as [| ? ? Hn Hd]; subst. split; [| exact Hd].
      destruct (existsb (str_eqb k) ks) eqn:E; [| reflexivity].
      apply existsb_exists in E. destruct E as (x & Hx & He).
      apply str_eqb_eq in He. subst x. contradiction.
Qed.

(** Setting a key that the dict does not have appends the item. *)
Lemma dict_set_fresh {V : Type} (d : list (str * V)) (k : str) (v : V) :
  ~ In k (map fst d) -> dict_set d k v = d ++ [(k, v)].
Proof.
  induction d as [| [k' v'] d IH]; intros Hn; [reflexivity |].
  cbn [dict_set app]. destruct (str_eqb k' k) eqn:E.
  - apply str_eqb_eq in E. subst k'. exfalso. apply Hn. now left.
  - rewrite IH; [reflexivity |]. intros Hin. apply Hn. now right.
Qed.

Lemma parse_list_items (l : list pyvalue) :
  Forall (fun v => parses_as (tokens_of v) v) l ->
  l <> [] ->
  forall x acc stk rest,
    wants_value x ->
    parse x (FList acc :: stk) (join_tokens (map tokens_of l) ++ TRBracket :: rest) =
    match reduce (PyList (rev acc ++ l)) stk with
    | Some (x', stk') => parse x' stk' rest
    | None => Raise JSONDecodeError
    end.
Proof.
  induction 1 as [| v l Hv Hl IH]; intros Hne x acc stk rest Hx; [congruence |].
  destruct l as [| w l].
  - cbn [map join_tokens]. rewrite (Hv x _ _ Hx). cbn [reduce].
    cbn [parse parse_step bind rev]. reflexivity.
  - change (join_tokens (map tokens_of (v :: w :: l)))
      with (tokens_of v ++ TComma :: join_tokens (map tokens_of (w :: l))).
    rewrite <- app_assoc. rewrite (Hv x _ _ Hx). cbn [reduce app].
    cbn [parse parse_step bind].
    rewrite IH; [| discriminate | now left].
    cbn [rev]. rewrite <- app_assoc. reflexivity.
Qed.

Lemma parse_dict_items (d : dict) :
  Forall (fun kv => parses_as (tokens_of (snd kv)) (snd kv)) d ->
  d <> [] ->
  forall x d0 stk rest,
    x = XKeyOrEnd \/ x = XKey ->
    NoDup (map fst (d0 ++ d)) ->
    parse x (FDict d0 :: stk)
      (join_tokens (map (fun kv => TString (fst kv) :: TColon :: tokens_of (snd kv)) d)
       ++ TRBrace :: rest) =
    match reduce (PyDict (d0 ++ d)) stk with
    | Some (x', stk') => parse x' stk' rest
    | None => Raise JSONDecodeError
    end.
Proof.
  induction 1 as [| [k v] d Hv Hd IH]; intros Hne x d0 stk rest Hx Hnd; [congruence |].
  assert (Hk : ~ In k (map fst d0)).
  { rewrite map_app in Hnd. cbn [map fst] in Hnd.
    apply NoDup_remove_2 in Hnd. intros Hin. apply Hnd.
    apply in_or_app. now left. }
  assert (Hstep : forall ts,
            parse x (FDict d0 :: stk) (TString k :: TColon :: ts)
            = parse XValue (FDictValue d0 k :: stk) ts).
  { intros ts. destruct Hx as [-> | ->]; reflexivity. }
  cbn [snd] in Hv.
  destruct d as [| kw d].
  - cbn [map join_tokens fst snd app]. rewrite Hstep.
    rewrite (Hv XValue _ _ (or_introl eq_refl)). cbn [reduce].
    rewrite (dict_set_fresh d0 k v Hk).
    cbn [parse parse_step bind]. reflexivity.
  - change (join_tokens
              (map (fun kv => TString (fst kv) :: TColon :: tokens_of (snd kv))
                   ((k, v) :: kw :: d)))
      with ((TString k :: TColon :: tokens_of v)
            ++ TComma
            :: join_tokens
                 (map (fun kv => TString (fst kv) :: TColon :: tokens_of (snd kv))
                      (kw :: d))).
    rewrite <- app_assoc. cbn [app]. rewrite Hstep.
    rewrite (Hv XValue _ _ (or_introl eq_refl)). cbn [reduce].
    rewrite (dict_set_fresh d0 k v Hk).
    cbn [parse parse_step bind].
    rewrite IH; [| discriminate | now right |].
    + rewrite <- app_assoc. reflexivity.
    + rewrite <- app_assoc. exact Hnd.
Qed.

(** The automaton completes a value on the tokens of its dumped text. *)
Lemma parse_tokens_of (v : pyvalue) :
  reloadable v = true -> parses_as (tokens_of v) v.
Proof.
  induction v as [| b | z | f | s | l IHl | d IHd] using pyvalue_induction;
    intros Hv x stk rest Hx.
  - destruct Hx as [-> | ->]; reflexivity.
  - destruct Hx as [-> | ->]; reflexivity.
  - cbn [tokens_of app].
    assert (Hs : parse_step x stk (TInt (int_str z)) = Ok (reduce (PyInt z) stk)).
    { destruct Hx as [-> | ->]; cbn [parse_step value_token];
        rewrite (json_int_int_str z Hv); reflexivity. }
    cbn [parse]. rewrite Hs. reflexivity.
  - destruct f; [discriminate | ..]; destruct Hx as [-> | ->]; reflexivity.
  - destruct Hx as [-> | ->]; reflexivity.
  - cbn [reloadable] in Hv. rewrite forallb_forall in Hv.
    cbn [tokens_of app].
    assert (Hopen : forall ts,
              parse x stk (TLBracket :: ts) = parse XValueOrEnd (FList [] :: stk) ts).
    { intros ts. destruct Hx as [-> | ->]; reflexivity. }
    rewrite Hopen. destruct l as [| y l]; [reflexivity |].
    rewrite <- app_assoc. cbn [app].
    rewrite parse_list_items; [reflexivity | | discriminate | now right].
    rewrite Forall_forall in IHl. apply Forall_forall.
    intros w Hw. apply (IHl w Hw). apply Hv, Hw.
  - cbn [reloadable] in Hv. apply andb_true_iff in Hv. destruct Hv as [Hk Hv].
    rewrite forallb_forall in Hv. apply keys_distinct_NoDup in Hk.
    cbn [tokens_of app].
    assert (Hopen : forall ts,
              parse x stk (TLBrace :: ts) = parse XKeyOrEnd (FDict [] :: stk) ts).
    { intros ts. destruct Hx as [-> | ->]; reflexivity. }
    rewrite Hopen. destruct d as [| kv d]; [reflexivity |].
    rewrite <- app_assoc. cbn [app].
    rewrite parse_dict_items; [reflexivity | | discriminate | now left | exact Hk].
    rewrite Forall_forall in IHd. apply Forall_forall.
    intros w Hw. apply (IHd w Hw).
    specialize (Hv w Hw). apply andb_true_iff in Hv. tauto.
Qed.

(** The check for a byte order mark changes nothing: a text that starts
    with one has no first token. *)
Lemma json_loads_lex (s : str) : json_loads s = parse XValue [] (lex LIdle s).
Proof.
  destruct s as [| c s]; [reflexivity |].
  destruct (N.eq_dec c 65279) as [-> | Hc]; [reflexivity |].
  unfold json_loads.
  repeat first
    [ reflexivity
    | (exfalso; apply Hc; reflexivity)
    | match goal with
      | |- context [match ?x with _ => _ end] => is_var x; destruct x
      end ].
Qed.

(** What [json.dumps] writes for a value, [json.loads] reads back as the
    same value. *)
Lemma json_loads_dumps (rt : runtime) (v : pyvalue) :
  reloadable v = true -> json_loads (json_dumps rt v) = Ok v.
Proof.
  intros Hv. rewrite json_loads_lex. unfold json_dumps.
  pose proof (lex_dumps rt v Hv 0%nat [] I) as Hl.
  rewrite app_nil_r in Hl. rewrite Hl. cbn [lex].
  rewrite (parse_tokens_of v Hv XValue [] [] (or_introl eq_refl)).
  reflexivity.
Qed.

(** *** The saved file *)

Lemma load_single_file (name text : str) (v : pyvalue) (items : list pyvalue) :
  endswith name (ustr ".json") = true ->
  json_loads text = Ok v ->
  iterated v = Some items ->
  load_json_files [(name, Text text)] = Ok items.
Proof.
  intros Hn Hv Hi. unfold load_json_files. rewrite load_loop_cons.
  unfold is_json_name, entry_items. cbn [fst snd read_file bind].
  rewrite Hn, Hv. cbn [bind]. rewrite Hi. reflexivity.
Qed.

(** X14.  The saved file reads back as what was loaded: when the samples
    are made of text, integers, booleans, nulls, lists and objects with
    distinct keys, decoding [merged_data.json] gives the list of all loaded
    samples, in order, and loading a directory that holds only that file
    gives the same list as the first load. *)
Theorem saved_file_reloads (rt : runtime) (dir : directory) (all_samples : list pyvalue) :
  load_json_files dir = Ok all_samples ->
  forallb reloadable all_samples = true ->
  exists r,
    run_cells rt dir = Ok r /\
    total_printed r = length all_samples /\
    json_loads (merged_data_json r) = Ok (PyList all_samples) /\
    load_json_files [(merged_name, Text (merged_data_json r))] = Ok all_samples.
Proof.
  intros Hl Hr. eexists. split; [apply (run_cells_saves_all_samples rt dir _ Hl) |].
  cbn [total_printed merged_data_json].
  assert (Hj : json_loads (json_dumps rt (PyList all_samples)) = Ok (PyList all_samples))
    by (apply json_loads_dumps; exact Hr).
  split; [reflexivity |]. split; [exact Hj |].
  apply (load_single_file _ _ (PyList all_samples)); [reflexivity | exact Hj | reflexivity].
Qed.

Lemma saved_file_reloads_witness :
  let a := PyDict [(ustr "instruction", PyStr (ustr "Rate the news."));
                   (ustr "input", PyStr [233; 128512; 10]);
                   (ustr "response", PyStr (jstr "{'a': -1, 'b': null}"))] in
  let dir := [(ustr "a.json", Text (json_dumps ascii_runtime (PyList [a; PyInt (-7)])))] in
  exists r,
    run_cells ascii_runtime dir = Ok r /\
    total_printed r = 2%nat /\
    json_loads (merged_data_json r) = Ok (PyList [a; PyInt (-7)]) /\
    load_json_files [(merged_name, Text (merged_data_json r))] = Ok [a; PyInt (-7)].
Proof.
  intros a dir.
  apply (saved_file_reloads ascii_runtime dir [a; PyInt (-7)]);
    vm_compute; reflexivity.
Defined.

(** *** The characters of the saved file *)

Lemma all_plain_app (a b : str) : all_plain a -> all_plain b -> all_plain (a ++ b).
Proof. intros Ha Hb. apply Forall_app. auto. Qed.

Lemma all_plain_closed (s : str) : forallb plain_ascii s = true -> all_plain s.
Proof. intros H. apply Forall_forall. apply forallb_forall. exact H. Qed.

Lemma plain_digit (c : char) : isdigit c = true -> plain_ascii c = true.
Proof.
  unfold isdigit, plain_ascii. rewrite !andb_true_iff, !N.leb_le. intros H.
  apply orb_true_iff. right. rewrite andb_true_iff, !N.leb_le. lia.
Qed.

Lemma all_plain_int_str (z : Z) : all_plain (int_str z).
Proof.
  assert (H : forall u, all_plain (uint_digits u)).
  { intros u. eapply Forall_impl; [| apply uint_digits_are_digits].
    intros c. apply plain_digit. }
  destruct z; cbn [int_str]; [now apply all_plain_closed | apply H |].
  constructor; [reflexivity | apply H].
Qed.

Lemma plain_hex_digit (n : N) : n < 16 -> plain_ascii (hex_digit n) = true.
Proof.
  intros H. unfold hex_digit, plain_ascii.
  apply orb_true_iff. right. rewrite andb_true_iff, !N.leb_le.
  destruct (n <? 10) eqn:E; [apply N.ltb_lt in E | apply N.ltb_ge in E]; lia.
Qed.

Lemma all_plain_hex_fixed (w : nat) (n : N) : all_plain (hex_fixed w n).
Proof.
  revert n. induction w as [| w IH]; intros n; cbn [hex_fixed]; [constructor |].
  apply all_plain_app; [apply IH |].
  constructor; [| constructor]. apply plain_hex_digit, N.mod_lt. discriminate.
Qed.

Lemma all_plain_json_escape (c : char) : all_plain (json_escape c).
Proof.
  unfold json_escape.
  repeat match goal with
         | |- all_plain (if ?b then _ else _) => destruct b eqn:?
         end;
    try (apply all_plain_closed; reflexivity).
  - constructor; [| constructor].
    unfold plain_ascii. apply orb_true_iff. now right.
  - constructor; [reflexivity |]. constructor; [reflexivity |].
    apply all_plain_hex_fixed.
  - cbv zeta. apply all_plain_app;
      (constructor; [reflexivity |]; constructor; [reflexivity |];
       apply all_plain_hex_fixed).
Qed.

Lemma all_plain_json_string (s : str) : all_plain (json_string s).
Proof.
  unfold json_string. constructor; [reflexivity |].
  apply all_plain_app; [| constructor; [reflexivity | constructor]].
  induction s as [| c s IH]; cbn [flat_map]; [constructor |].
  apply all_plain_app; [apply all_plain_json_escape | exact IH].
Qed.

Lemma all_plain_newline_indent (level : nat) : all_plain (newline_indent level).
Proof.
  unfold newline_indent. constructor; [reflexivity |].
  apply Forall_forall. intros c Hc. apply repeat_spec in Hc. subst c. reflexivity.
Qed.

Lemma all_plain_join_with (sep : str) (items : list str) :
  all_plain sep -> Forall all_plain items -> all_plain (join_with sep items).
Proof.
  intros Hs. induction 1 as [| x items Hx Hi IH]; [constructor |].
  destruct items as [| y items]; [exact Hx |].
  change (join_with sep (x :: y :: items)) with (x ++ sep ++ join_with sep (y :: items)).
  auto using all_plain_app.
Qed.

Lemma all_plain_dumps (rt : runtime) (v : pyvalue) :
  no_number_float v = true -> forall level, all_plain (dumps rt level v).
Proof.
  induction v as [| b | z | f | s | l IHl | d IHd] using pyvalue_induction;
    intros Hv level.
  - now apply all_plain_closed.
  - destruct b; now apply all_plain_closed.
  - apply all_plain_int_str.
  - destruct f; [discriminate | ..]; now apply all_plain_closed.
  - apply all_plain_json_string.
  - destruct l as [| x l]; [now apply all_plain_closed |].
    cbn [no_number_float] in Hv. rewrite forallb_forall in Hv.
    rewrite dumps_list. constructor; [reflexivity |].
    repeat apply all_plain_app; try apply all_plain_newline_indent;
      [| now apply all_plain_closed].
    apply all_plain_join_with.
    + constructor; [reflexivity | apply all_plain_newline_indent].
    + apply Forall_map. rewrite Forall_forall in IHl. apply Forall_forall.
      intros y Hy. apply (IHl y Hy). apply Hv, Hy.
  - destruct d as [| kv d]; [now apply all_plain_closed |].
    cbn [no_number_float] in Hv. rewrite forallb_forall in Hv.
    rewrite dumps_dict. constructor; [reflexivity |].
    repeat apply all_plain_app; try apply all_plain_newline_indent;
      [| now apply all_plain_closed].
    apply all_plain_join_with.
    + constructor; [reflexivity | apply all_plain_newline_indent].
    + apply Forall_map. rewrite Forall_forall in IHd. apply Forall_forall.
      intros y Hy. repeat apply all_plain_app.
      * apply all_plain_json_string.
      * now apply all_plain_closed.
      * apply (IHd y Hy). apply Hv, Hy.
Qed.

(** X15.  The saved file is plain ASCII: whatever characters the samples
    hold, every character written to [merged_data.json] is a line feed or
    a printable ASCII character (every other one is written as an escape),
    so that writing the file cannot fail on the encoding.  Floats read
    from number tokens are left out, their text being the runtime's. *)
Theorem saved_file_is_plain_ascii (rt : runtime) (dir : directory)
        (all_samples : list pyvalue) (r : run) :
  load_json_files dir = Ok all_samples ->
  forallb no_number_float all_samples = true ->
  run_cells rt dir = Ok r ->
  Forall (fun c => plain_ascii c = true) (merged_data_json r).
Proof.
  intros Hl Hf H. rewrite (run_cells_saves_all_samples rt dir _ Hl) in H.
  injection H as <-. cbn [merged_data_json]. apply all_plain_dumps. exact Hf.
Qed.

Lemma saved_file_is_plain_ascii_witness :
  let dir := [(ustr "a.json",
               Text (jstr "[{'response': 'caf" ++ [233; 128512] ++ jstr "\t'}]"))] in
  exists r,
    run_cells ascii_runtime dir = Ok r /\
    Forall (fun c => plain_ascii c = true) (merged_data_json r).
Proof.
  intros dir.
  assert (Hl : load_json_files dir
               = Ok [PyDict [(ustr "response", PyStr (ustr "caf" ++ [233; 128512; 9]))]])
    by (vm_compute; reflexivity).
  eexists. split; [apply (run_cells_saves_all_samples ascii_runtime dir _ Hl) |].
  apply (saved_file_is_plain_ascii ascii_runtime dir _ _ Hl); [reflexivity |].
  apply (run_cells_saves_all_samples ascii_runtime dir _ Hl).
Defined.

(** *** Running the cells again *)

Lemma Permutation_concat_lists {A : Type} (l l' : list (list A)) :
  Permutation l l' -> Permutation (concat l) (concat l').
Proof.
  induction 1 as [| x l l' _ IH | x y l | l l' l'' _ IH1 _ IH2]; cbn [concat].
  - constructor.
  - now apply Permutation_app_head.
  - rewrite !app_assoc. apply Permutation_app_tail, Permutation_app_comm.
  - eapply perm_trans; eauto.
Qed.

Lemma filter_keeps_all {A : Type} (f : A -> bool) (l : list A) :
  Forall (fun x => f x = true) l -> filter f l = l.
Proof.
  induction 1 as [| x l Hx _ IH]; [reflexivity |]. cbn [filter].
  now rewrite Hx, IH.
Qed.

(** X16.  The saved file lies in the directory that is loaded and its name
    ends in [.json], so running the cells a second time loads it too: on a
    directory that had no [merged_data.json], and with samples made of
    text, integers, booleans, nulls, lists and objects with distinct keys,
    the second run loads every sample twice (in some order of the files)
    and prints twice the total of the first. *)
Theorem second_run_doubles (rt : runtime) (dir dir' : directory)
        (all_samples : list pyvalue) (r : run) :
  Forall (fun entry => fst entry <> merged_name) dir ->
  load_json_files dir = Ok all_samples ->
  forallb reloadable all_samples = true ->
  run_cells rt dir = Ok r ->
  after_run dir (merged_data_json r) dir' ->
  exists all_samples' r',
    load_json_files dir' = Ok all_samples' /\
    Permutation all_samples' (all_samples ++ all_samples) /\
    run_cells rt dir' = Ok r' /\
    total_printed r' = (2 * total_printed r)%nat.
Proof.
  intros Hnew Hl Hre Hrun Hafter.
  rewrite (run_cells_saves_all_samples rt dir _ Hl) in Hrun. injection Hrun as <-.
  cbn [merged_data_json total_printed] in *.
  set (text := json_dumps rt (PyList all_samples)) in *.
  unfold after_run in Hafter.
  rewrite filter_keeps_all in Hafter.
  2:{ eapply Forall_impl; [| exact Hnew]. intros [name f] Hn. cbn [fst] in *.
      apply negb_true_iff. destruct (str_eqb name merged_name) eqn:E; [| reflexivity].
      apply str_eqb_eq in E. contradiction. }
  assert (Hitems : entry_items (merged_name, Text text) = Ok all_samples).
  { unfold entry_items. cbn [snd read_file bind]. unfold text.
    rewrite (json_loads_dumps rt (PyList all_samples) Hre). reflexivity. }
  unfold load_json_files in Hl. apply load_loop_items in Hl.
  destruct Hl as (parts & Hparts & Hall).
  assert (Hp : Permutation ((merged_name, Text text) :: filter is_json_name dir)
                           (filter is_json_name dir')).
  { apply Permutation_sym.
    apply (Permutation_filter_same is_json_name) in Hafter. exact Hafter. }
  assert (Hf2 : Forall2 (fun entry items => entry_items entry = Ok items)
                        ((merged_name, Text text) :: filter is_json_name dir)
                        (all_samples :: parts))
    by (constructor; assumption).
  destruct (Permutation_Forall2 Hp Hf2) as (parts' & Hpp & Hf2').
  assert (Hl' : load_json_files dir' = Ok (concat parts')).
  { apply load_loop_items. exists parts'. auto. }
  assert (Hperm : Permutation (concat parts') (all_samples ++ all_samples)).
  { apply Permutation_sym. rewrite Hall at 2.
    apply (Permutation_concat_lists (all_samples :: parts) parts' Hpp). }
  exists (concat parts'). eexists.
  split; [exact Hl' |]. split; [exact Hperm |].
  split; [apply (run_cells_saves_all_samples rt dir' _ Hl') |].
  cbn [total_printed]. rewrite (Permutation_length Hperm), length_app. lia.
Qed.

Lemma second_run_doubles_witness :
  let a := sample_of (jstr "{'a': 1}") in
  let b := sample_of (ustr "none") in
  let dir := [(ustr "x.json", Text (jstr "[{'response': 'none'}]"));
              (ustr "y.json", Text (jstr "[{'response': '{\'a\': 1}'}]"))] in
  let text := json_dumps ascii_runtime (PyList [b; a]) in
  let dir' := [(ustr "x.json", Text (jstr "[{'response': 'none'}]"));
               (merged_name, Text text);
               (ustr "y.json", Text (jstr "[{'response': '{\'a\': 1}'}]"))] in
  run_cells ascii_runtime dir = Ok {| total_printed := 2; merged_data_json := text |} /\
  exists all_samples' r',
    load_json_files dir' = Ok all_samples' /\
    Permutation all_samples' ([b; a] ++ [b; a]) /\
    run_cells ascii_runtime dir' = Ok r' /\
    total_printed r' = 4%nat.
Proof.
  intros a b dir text dir'.
  assert (Hrun : run_cells ascii_runtime dir
                 = Ok {| total_printed := 2; merged_data_json := text |})
    by (vm_compute; reflexivity).
  split; [exact Hrun |].
  apply (second_run_doubles ascii_runtime dir dir' [b; a]
           {| total_printed := 2; merged_data_json := text |}).
  - repeat constructor; discriminate.
  - vm_compute. reflexivity.
  - reflexivity.
  - exact Hrun.
  - unfold after_run. cbn [merged_data_json filter fst str_eqb].
    change (filter _ dir) with dir. apply perm_swap.
Defined.

(** ** The keys of the Feature Map *)

Lemma dict_set_keys {V : Type} (d : list (str * V)) (k : str) (v : V) :
  dict_keys (dict_set d k v) = dict_keys d \/
  (~ In k (dict_keys d) /\ dict_keys (dict_set d k v) = dict_keys d ++ [k]).
Proof.
  unfold dict_keys. induction d as [| [k' v'] d IH]; cbn [dict_set map fst].
  - right. split; [tauto | reflexivity].
  - destruct (str_eqb k' k) eqn:E; [left; reflexivity |].
    cbn [map fst]. destruct IH as [IH | [Hn IH]].
    + left. now rewrite IH.
    + right. split; [| cbn [app]; now rewrite IH].
      intros [-> | Hin]; [| contradiction].
      assert (Ht : str_eqb k k = true) by now apply str_eqb_eq.
      congruence.
Qed.

Lemma dict_set_NoDup {V : Type} (d : list (str * V)) (k : str) (v : V) :
  NoDup (dict_keys d) -> NoDup (dict_keys (dict_set d k v)).
Proof.
  intros H. destruct (dict_set_keys d k v) as [-> | [Hn ->]]; [exact H |].
  eapply Permutation_NoDup; [apply Permutation_cons_append |].
  constructor; assumption.
Qed.

Lemma distinct_at_bottom_cons (f : frame) (stk : list frame) :
  stk <> [] -> distinct_at_bottom (f :: stk) = distinct_at_bottom stk.
Proof.
  destruct stk; [congruence |]. destruct f; reflexivity.
Qed.

Lemma distinct_at_bottom_push (f : frame) (stk : list frame) :
  distinct_at_bottom stk -> distinct_at_bottom (f :: stk).
Proof.
  intros H. rewrite distinct_at_bottom_cons; [exact H |].
  intros ->. exact H.
Qed.

Lemma reduce_distinct (v : pyvalue) (stk stk' : list frame) (x' : expect) :
  distinct_at_bottom stk ->
  reduce v stk = Some (x', stk') ->
  yields_distinct x' stk'.
Proof.
  destruct stk as [| [acc | d | d k] rest]; simpl reduce;
    try discriminate; intros Hb [= <- <-]; cbn [yields_distinct].
  - contradiction.
  - destruct rest; [contradiction | exact Hb].
  - destruct rest; [apply dict_set_NoDup, Hb | exact Hb].
Qed.

Lemma pop_distinct (v : pyvalue) (f : frame) (stk stk' : list frame) (x' : expect) :
  distinct_at_bottom (f :: stk) ->
  (stk = [] -> exists d, v = PyDict d /\ NoDup (dict_keys d)) ->
  reduce v stk = Some (x', stk') ->
  yields_distinct x' stk'.
Proof.
  intros Hb Hv. destruct stk as [| g rest].
  - intros [= <- <-]. cbn [yields_distinct]. auto.
  - apply reduce_distinct.
    rewrite distinct_at_bottom_cons in Hb; [exact Hb | discriminate].
Qed.

Lemma parse_step_value_distinct (stk stk' : list frame) (t : token) (x' : expect) :
  distinct_at_bottom stk ->
  parse_step XValue stk t = Ok (Some (x', stk')) ->
  yields_distinct x' stk'.
Proof.
  intros Hb. unfold parse_step.
  destruct t; cbn [value_token]; try discriminate;
    first [ intros [= <- <-]; cbn [yields_distinct];
            apply distinct_at_bottom_push, Hb
          | intros H; apply bind_ok in H; destruct H as (w & _ & [= H]);
            apply (reduce_distinct _ _ _ _ Hb H) ].
Qed.

Lemma parse_step_distinct (x x' : expect) (stk stk' : list frame) (t : token) :
  yields_distinct x stk ->
  parse_step x stk t = Ok (Some (x', stk')) ->
  yields_distinct x' stk'.
Proof.
  destruct x; cbn [yields_distinct]; intros Hb.
  - apply parse_step_value_distinct, Hb.
  - destruct t;
      try (match goal with
           | |- parse_step _ _ ?t = _ -> _ =>
               intros H; exact (parse_step_value_distinct stk stk' t x' Hb H)
           end).
    destruct stk as [| [acc | d | d k] rest];
      cbn [parse_step value_token]; try discriminate.
    intros [= H].
    apply (pop_distinct _ _ _ _ _ Hb) in H; [exact H |].
    intros ->. contradiction.
  - destruct t; cbn [parse_step]; try discriminate.
    + destruct stk as [| [acc | d | d k] rest]; try discriminate.
      intros [= H]. apply (pop_distinct _ _ _ _ _ Hb) in H; [exact H |].
      intros ->. exists d. split; [reflexivity | exact Hb].
    + intros [= <- <-]. exact Hb.
  - destruct t; cbn [parse_step]; try discriminate.
    intros [= <- <-]. exact Hb.
  - destruct t; cbn [parse_step]; try discriminate.
    destruct stk as [| [acc | d | d0 k0] rest]; try discriminate.
    intros [= <- <-]. cbn [yields_distinct].
    destruct rest; exact Hb.
  - destruct t; cbn [parse_step]; try discriminate;
      destruct stk as [| [acc | d | d0 k0] rest]; try discriminate.
    + intros [= H]. apply (pop_distinct _ _ _ _ _ Hb) in H; [exact H |].
      intros ->. exists d. split; [reflexivity | exact Hb].
    + intros [= H]. apply (pop_distinct _ _ _ _ _ Hb) in H; [exact H |].
      intros ->. contradiction.
    + intros [= <- <-]. exact Hb.
    + intros [= <- <-]. exact Hb.
  - discriminate.
Qed.

Lemma parse_distinct (ts : list token) (x : expect) (stk : list frame) (v : pyvalue) :
  yields_distinct x stk ->
  parse x stk ts = Ok v ->
  exists d, v = PyDict d /\ NoDup (dict_keys d).
Proof.
  revert x stk. induction ts as [| t ts IH]; intros x stk Hy; cbn [parse].
  - destruct x; try discriminate. intros [= <-]. exact Hy.
  - intros H. apply bind_ok in H. destruct H as ([[x' stk'] |] & Hs & H);
      [| discriminate].
    apply (IH x' stk'); [| exact H].
    apply (parse_step_distinct _ _ _ _ _ Hy Hs).
Qed.

Lemma json_loads_lbrace_distinct (rest : str) (v : pyvalue) :
  json_loads (lbrace :: rest) = Ok v ->
  exists d, v = PyDict d /\ NoDup (dict_keys d).
Proof.
  unfold json_loads.
  change (lex LIdle (lbrace :: rest)) with (TLBrace :: lex LIdle rest).
  cbn [parse parse_step bind]. apply parse_distinct. constructor.
Qed.

(** X17.  No key occurs twice in a Feature Map: when the object in the
    response repeats a key, the map has the key once.  (The example after
    the theorem shows where: at its first place, with the value given
    last.) *)
Theorem feature_map_keys_distinct (rt : runtime) (response : pyvalue)
        (fm : feature_map) :
  parse_response rt response = Ok (Some fm) ->
  NoDup (dict_keys fm).
Proof.
  unfold parse_response. destruct response as [| | | | s | |]; try discriminate.
  destruct (re_search s) as [m |] eqn:Hs; [| discriminate].
  destruct (json_loads (group m)) as [v | e] eqn:Hl.
  - destruct (search_from_some _ _ _ Hs) as (_ & body & _ & _ & Hg & _).
    rewrite Hg in Hl. apply json_loads_lbrace_distinct in Hl.
    destruct Hl as (d & -> & Hd). intros [= <-].
    rewrite stringify_keys. exact Hd.
  - destruct e; discriminate.
Qed.

Lemma feature_map_keys_distinct_witness :
  parse_response ascii_runtime (PyStr (jstr "{'a': 0, 'b': 2, 'a': 5}"))
  = Ok (Some [(ustr "a", ustr "5"); (ustr "b", ustr "2")]) /\
  NoDup (dict_keys [(ustr "a", ustr "5"); (ustr "b", ustr "2")]).
Proof.
  assert (H : parse_response ascii_runtime (PyStr (jstr "{'a': 0, 'b': 2, 'a': 5}"))
              = Ok (Some [(ustr "a", ustr "5"); (ustr "b", ustr "2")]))
    by (vm_compute; reflexivity).
  split; [exact H |].
  apply (feature_map_keys_distinct ascii_runtime _ _ H).
Defined.

(** ** The training notebook: from the merged file to the prompts *)

Lemma columns_loop_acc (data : list pyvalue) (acc : columns) :
  columns_loop data acc =
  (cols <- columns_loop data empty_columns ;;
   Ok {| instruction_col := instruction_col acc ++ instruction_col cols;
         input_col := input_col acc ++ input_col cols;
         output_col := output_col acc ++ output_col cols |}).
Proof.
  revert acc. induction data as [| item rest IH]; intros acc.
  - cbn. rewrite !app_nil_r. destruct acc; reflexivity.
  - cbn [columns_loop].
    destruct (getitem item (ustr "instruction")) as [i | e]; [| reflexivity].
    destruct (getitem item (ustr "input")) as [x | e]; [| reflexivity].
    destruct (getitem item (ustr "response")) as [o | e]; [| reflexivity].
    cbn [bind]. rewrite IH. rewrite (IH {| instruction_col := _ |}).
    destruct (columns_loop rest empty_columns) as [cols | e]; [| reflexivity].
    cbn. rewrite <- !app_assoc. reflexivity.
Qed.

Lemma columns_loop_cons (item : pyvalue) (rest : list pyvalue) :
  columns_loop (item :: rest) empty_columns =
  (instruction <- getitem item (ustr "instruction") ;;
   input <- getitem item (ustr "input") ;;
   response <- getitem item (ustr "response") ;;
   cols <- columns_loop rest empty_columns ;;
   Ok {| instruction_col := instruction :: instruction_col cols;
         input_col := input :: input_col cols;
         output_col := response :: output_col cols |}).
Proof.
  cbn [columns_loop].
  destruct (getitem item (ustr "instruction")) as [i | e]; [| reflexivity].
  destruct (getitem item (ustr "input")) as [x | e]; [| reflexivity].
  destruct (getitem item (ustr "response")) as [o | e]; [| reflexivity].
  cbn [bind]. rewrite columns_loop_acc. reflexivity.
Qed.

(** X18.  The loop that fills [dataset_dict] completes exactly when every
    item has the three fields, and then the three columns are the items'
    ["instruction"], ["input"] and ["response"] values, one per item and in
    the order of the file; the column named ["output"] holds the
    responses. *)
Theorem columns_loop_returns_iff (data : list pyvalue) (cols : columns) :
  columns_loop data empty_columns = Ok cols <->
  Forall2 (fun item v => getitem item (ustr "instruction") = Ok v) data (instruction_col cols) /\
  Forall2 (fun item v => getitem item (ustr "input") = Ok v) data (input_col cols) /\
  Forall2 (fun item v => getitem item (ustr "response") = Ok v) data (output_col cols).
Proof.
  revert cols. induction data as [| item rest IH]; intros cols.
  - cbn. split.
    + intros H. injection H as <-. cbn. repeat split; constructor.
    + intros (H1 & H2 & H3). destruct cols as [ci cx co]. cbn in *.
      inversion H1. inversion H2. inversion H3. reflexivity.
  - rewrite columns_loop_cons. split.
    + intros H.
      destruct (getitem item (ustr "instruction")) as [i | e] eqn:Hi; [| discriminate].
      destruct (getitem item (ustr "input")) as [x | e] eqn:Hx; [| discriminate].
      destruct (getitem item (ustr "response")) as [o | e] eqn:Ho; [| discriminate].
      cbn [bind] in H.
      destruct (columns_loop rest empty_columns) as [c | e] eqn:Hc; [| discriminate].
      cbn [bind] in H. injection H as <-.
      destruct (proj1 (IH c) eq_refl) as (H1 & H2 & H3).
      cbn [instruction_col input_col output_col].
      repeat split; constructor; assumption.
    + intros (H1 & H2 & H3). destruct cols as [ci cx co]. cbn in *.
      inversion H1 as [| ? i ? ci' Hi H1']; subst.
      inversion H2 as [| ? x ? cx' Hx H2']; subst.
      inversion H3 as [| ? o ? co' Ho H3']; subst.
      rewrite Hi, Hx, Ho. cbn [bind].
      rewrite (proj2 (IH {| instruction_col := ci'; input_col := cx'; output_col := co' |}));
        [reflexivity | cbn; auto].
Qed.

Lemma columns_loop_returns_iff_witness :
  let a := PyDict [(ustr "instruction", PyStr (ustr "Rate the news."));
                   (ustr "input", PyStr (ustr "Shares rose."));
                   (ustr "response", PyStr (jstr "{'a': 1}"));
                   (ustr "comment", PyNone)] in
  let b := PyDict [(ustr "response", PyInt 3);
                   (ustr "input", PyList []);
                   (ustr "instruction", PyStr (ustr "Again."))] in
  columns_loop [a; b] empty_columns =
  Ok {| instruction_col := [PyStr (ustr "Rate the news."); PyStr (ustr "Again.")];
        input_col := [PyStr (ustr "Shares rose."); PyList []];
        output_col := [PyStr (jstr "{'a': 1}"); PyInt 3] |}.
Proof.
  intros a b. apply columns_loop_returns_iff.
  cbn [instruction_col input_col output_col].
  repeat split; repeat constructor.
Defined.

Lemma field_fault_none (item : pyvalue) :
  field_fault item = None ->
  exists i x o,
    getitem item (ustr "instruction") = Ok i /\
    getitem item (ustr "input") = Ok x /\
    getitem item (ustr "response") = Ok o.
Proof.
  destruct item as [| b | z | f | s | l | d]; try discriminate.
  unfold field_fault, getitem.
  destruct (dict_get d (ustr "instruction")) as [i |]; [| discriminate].
  destruct (dict_get d (ustr "input")) as [x |]; [| discriminate].
  destruct (dict_get d (ustr "response")) as [o |]; [| discriminate].
  intros _. exists i, x, o. auto.
Qed.

Lemma field_fault_some {A : Type} (item : pyvalue) (e : exn)
      (k : pyvalue -> pyvalue -> pyvalue -> result A) :
  field_fault item = Some e ->
  (i <- getitem item (ustr "instruction") ;;
   x <- getitem item (ustr "input") ;;
   o <- getitem item (ustr "response") ;;
   k i x o) = Raise e.
Proof.
  destruct item as [| b | z | f | s | l | d];
    try (intros H; injection H as <-; reflexivity).
  unfold field_fault, getitem.
  destruct (dict_get d (ustr "instruction")) as [i |];
    [| intros H; injection H as <-; reflexivity].
  destruct (dict_get d (ustr "input")) as [x |];
    [| intros H; injection H as <-; reflexivity].
  destruct (dict_get d (ustr "response")) as [o |];
    [discriminate | intros H; injection H as <-; reflexivity].
Qed.

(** X19.  The loop that fills [dataset_dict] raises exactly at the first
    item that is not a dict with the three keys, whatever comes after it:
    [TypeError] when that item is no dict, [KeyError] when it is a dict that
    lacks ["instruction"], ["input"] or ["response"].  Nothing else is ever
    raised by the loop. *)
Theorem columns_loop_raises_iff (data : list pyvalue) (e : exn) :
  columns_loop data empty_columns = Raise e <->
  exists before item after,
    data = before ++ item :: after /\
    Forall (fun earlier => field_fault earlier = None) before /\
    field_fault item = Some e.
Proof.
  induction data as [| item rest IH].
  - split; [discriminate |].
    intros (before & it & after & H & _). destruct before; discriminate.
  - rewrite columns_loop_cons. split.
    + intros H. destruct (field_fault item) as [e' |] eqn:Hf.
      * rewrite (field_fault_some _ _ _ Hf) in H. injection H as ->.
        exists [], item, rest. auto.
      * destruct (field_fault_none _ Hf) as (i & x & o & Hi & Hx & Ho).
        rewrite Hi, Hx, Ho in H. cbn [bind] in H.
        destruct (columns_loop rest empty_columns) as [c | e'] eqn:Hc; [discriminate |].
        cbn [bind] in H. injection H as ->.
        destruct (proj1 IH eq_refl) as (before & it & after & -> & Hb & Hit).
        exists (item :: before), it, after. auto.
    + intros (before & it & after & Hd & Hb & Hit).
      destruct before as [| first before]; cbn [app] in Hd; injection Hd as -> ->.
      * apply field_fault_some. exact Hit.
      * inversion Hb as [| ? ? Hfirst Hb']; subst.
        destruct (field_fault_none _ Hfirst) as (i & x & o & Hi & Hx & Ho).
        rewrite Hi, Hx, Ho. cbn [bind].
        rewrite (proj2 IH); [reflexivity |].
        exists before, it, after. auto.
Qed.

Lemma columns_loop_raises_iff_witness :
  let a := PyDict [(ustr "instruction", PyStr (ustr "Rate the news."));
                   (ustr "input", PyStr (ustr "Shares rose."));
                   (ustr "response", PyStr (jstr "{'a': 1}"))] in
  columns_loop [a; sample_of (jstr "{'a': 1}"); PyInt 3] empty_columns = Raise KeyError.
Proof.
  intros a. apply columns_loop_raises_iff.
  exists [a], (sample_of (jstr "{'a': 1}")), [PyInt 3].
  split; [reflexivity | split].
  - repeat constructor.
  - reflexivity.
Defined.

Lemma str_format_alpaca_prompt (rt : runtime) (i x o : pyvalue) :
  str_format rt alpaca_prompt [i; x; o] = Some (Ok (alpaca_text rt [] i x o)).
Proof.
  reflexivity.
Qed.

Lemma alpaca_text_eos (rt : runtime) (eos : str) (i x o : pyvalue) :
  alpaca_text rt [] i x o ++ eos = alpaca_text rt eos i x o.
Proof.
  unfold alpaca_text. rewrite !app_nil_r.
  repeat rewrite <- app_assoc. reflexivity.
Qed.

(** X20.  [formatting_prompts_func] never raises and never leaves the
    fragment of [str.format] that is modelled: whatever the three columns
    hold, it returns one text per row of the shortest column, and each text
    is the fixed introduction and the three headings with the row's
    instruction, input and output put in as [str] gives them, followed by
    the end-of-sequence token.  Braces inside a field are copied, not read
    as replacement fields. *)
Theorem formatting_prompts_func_layout (rt : runtime) (EOS_TOKEN : str)
        (instructions inputs outputs : list pyvalue) :
  formatting_prompts_func rt EOS_TOKEN instructions inputs outputs =
  Some (Ok (map (fun row => alpaca_text rt EOS_TOKEN (fst row) (fst (snd row)) (snd (snd row)))
                (combine instructions (combine inputs outputs)))).
Proof.
  revert inputs outputs.
  induction instructions as [| i instructions IH]; intros inputs outputs; [reflexivity |].
  destruct inputs as [| x inputs]; [reflexivity |].
  destruct outputs as [| o outputs]; [reflexivity |].
  cbn [formatting_prompts_func]. rewrite str_format_alpaca_prompt, IH.
  cbn [combine map fst snd]. rewrite alpaca_text_eos. reflexivity.
Qed.

(** A response that is itself full of braces goes into the prompt as it
    is, and the longer columns are cut to the shortest. *)
Example braces_in_fields_are_copied :
  formatting_prompts_func ascii_runtime (ustr "</s>")
    [PyStr (ustr "{}"); PyStr (ustr "dropped")]
    [PyStr (ustr "{0}")]
    [PyStr (jstr "}{ {'a': 1}"); PyNone]
  = Some (Ok [ustr "Below is an instruction that describes a task, paired with an input that provides further context. Write a response that appropriately completes the request."
              ++ [LF; LF] ++ ustr "### Instruction:" ++ [LF]
              ++ ustr "{}" ++ [LF; LF] ++ ustr "### Input:" ++ [LF]
              ++ ustr "{0}" ++ [LF; LF] ++ ustr "### Response:" ++ [LF]
              ++ jstr "}{ {'a': 1}" ++ ustr "</s>"]).
Proof.
  vm_compute. reflexivity.
Qed.

(** X21.  The training notebook reads what the merge notebook wrote: when
    the loaded samples are made of text, integers, booleans, nulls, lists
    and objects with distinct keys, filling the columns from the saved
    [merged_data.json] goes exactly as filling them from the list of all
    loaded samples, unfiltered and in the order of loading, and so it
    returns the same columns or raises the same exception. *)
Theorem training_reads_what_was_merged (rt : runtime) (dir : directory)
        (all_samples : list pyvalue) :
  load_json_files dir = Ok all_samples ->
  forallb reloadable all_samples = true ->
  exists r,
    run_cells rt dir = Ok r /\
    build_columns (merged_data_json r) = columns_loop all_samples empty_columns.
Proof.
  intros Hl Hr. eexists. split; [apply (run_cells_saves_all_samples rt dir _ Hl) |].
  cbn [merged_data_json]. unfold build_columns.
  rewrite (json_loads_dumps rt (PyList all_samples)) by exact Hr.
  reflexivity.
Qed.

Lemma training_reads_what_was_merged_witness :
  let a := PyDict [(ustr "instruction", PyStr (ustr "Rate the news."));
                   (ustr "input", PyStr [233; 128512; 10]);
                   (ustr "response", PyStr (jstr "{'a': 0}"))] in
  let dir := [(ustr "a.json", Text (json_dumps ascii_runtime (PyList [a])));
              (ustr "b.json", Text (jstr "[{'response': '{}'}]"))] in
  exists r,
    run_cells ascii_runtime dir = Ok r /\
    build_columns (merged_data_json r)
    = columns_loop [a; sample_of (ustr "{}")] empty_columns.
Proof.
  intros a dir.
  apply (training_reads_what_was_merged ascii_runtime dir [a; sample_of (ustr "{}")]);
    vm_compute; reflexivity.
Defined.
